(** * orla-tool-fs: the file-system tool, embedded and checked against its specification

    The development follows the two source files of the tool:
    - [internal/fs/fs.go]: the result constructors [mcpError] / [mcpSuccess],
      the path resolver [ExpandPath] and the nine operations;
    - [cmd/fs/main.go]: the sub-commands that call one operation, print its
      result and fix the exit status of the process.

    The Go standard library and the operating system are not part of the
    repository.  Their lexical functions ([strings], [unicode/utf8],
    [os.Expand], [path/filepath] on a Unix host, [fmt]'s [%o]) are written
    out as functions; the file-system calls are the fields of the class
    [Host], so every operation is a function of the host it runs on, and
    [MemFS] is one concrete host (an in-memory tree without symbolic links
    that never denies access). *)

From Stdlib Require Import ZArith Lia Ascii String List Bool.
From stdpp Require Import base tactics option list strings pretty gmap.

Set Warnings "-register-all".
Open Scope string_scope.

(* ================================================================== *)
(** ** Package [strings] *)

(** [strings.HasPrefix(s, prefix)]. *)
Fixpoint strings_HasPrefix (s pre : string) {struct pre} : bool :=
  match pre, s with
  | EmptyString, _ => true
  | String _ _, EmptyString => false
  | String a pre', String b s' => bool_decide (a = b) && strings_HasPrefix s' pre'
  end.

(** The suffix of [s] after its first [n] bytes, [s[n:]]. *)
Fixpoint string_drop (n : nat) (s : string) : string :=
  match n, s with
  | O, _ => s
  | S _, EmptyString => EmptyString
  | S k, String _ r => string_drop k r
  end.

(** The first [n] bytes of [s], [s[:n]]. *)
Fixpoint string_take (n : nat) (s : string) : string :=
  match n, s with
  | O, _ => EmptyString
  | S _, EmptyString => EmptyString
  | S k, String c r => String c (string_take k r)
  end.

(** [strings.Contains(s, substr)]. *)
Fixpoint strings_Contains (s sub : string) : bool :=
  strings_HasPrefix s sub ||
  match s with
  | EmptyString => false
  | String _ r => strings_Contains r sub
  end.

(** [strings.Replace(s, old, new, 1)]: only the first occurrence of [old]
    is replaced. *)
Fixpoint strings_Replace1 (s old new : string) : string :=
  if strings_HasPrefix s old then new ++ string_drop (String.length old) s
  else match s with
       | EmptyString => EmptyString
       | String c r => String c (strings_Replace1 r old new)
       end.

(** The numeric value of a byte. *)
Definition byte_val (c : ascii) : Z := Z.of_N (N_of_ascii c).

Definition in_range (lo hi b : Z) : bool := (lo <=? b)%Z && (b <=? hi)%Z.

(* ================================================================== *)
(** ** Package [unicode/utf8] *)

(** [utf8.Valid]: the table [first] of the package gives, for a leading
    byte, the number of continuation bytes and the range accepted for the
    first of them ([acceptRanges]); the others lie in [0x80..0xBF].
    [need] is the list of ranges still owed by the current sequence. *)
Fixpoint utf8_valid_from (need : list (Z * Z)) (s : string) : bool :=
  match s with
  | EmptyString => match need with [] => true | _ => false end
  | String c r =>
      let b := byte_val c in
      match need with
      | (lo, hi) :: need' => in_range lo hi b && utf8_valid_from need' r
      | [] =>
          if (b <? 0x80)%Z then utf8_valid_from [] r
          else if in_range 0xC2 0xDF b then utf8_valid_from [(0x80, 0xBF)%Z] r
          else if (b =? 0xE0)%Z then
            utf8_valid_from [(0xA0, 0xBF)%Z; (0x80, 0xBF)%Z] r
          else if in_range 0xE1 0xEC b || in_range 0xEE 0xEF b then
            utf8_valid_from [(0x80, 0xBF)%Z; (0x80, 0xBF)%Z] r
          else if (b =? 0xED)%Z then
            utf8_valid_from [(0x80, 0x9F)%Z; (0x80, 0xBF)%Z] r
          else if (b =? 0xF0)%Z then
            utf8_valid_from [(0x90, 0xBF)%Z; (0x80, 0xBF)%Z; (0x80, 0xBF)%Z] r
          else if in_range 0xF1 0xF3 b then
            utf8_valid_from [(0x80, 0xBF)%Z; (0x80, 0xBF)%Z; (0x80, 0xBF)%Z] r
          else if (b =? 0xF4)%Z then
            utf8_valid_from [(0x80, 0x8F)%Z; (0x80, 0xBF)%Z; (0x80, 0xBF)%Z] r
          else false
      end
  end.

Definition utf8_Valid (data : string) : bool := utf8_valid_from [] data.

(* ================================================================== *)
(** ** Errors and results of host calls *)

(** A Go [error] as the tool observes it: its message [err.Error()] and
    the two classifications the tool asks for, [os.IsNotExist(err)] and
    [os.IsPermission(err)]. *)
Record error : Type := mkError {
  Error : string;
  IsNotExist : bool;
  IsPermission : bool
}.

(** [errors.New(msg)] and [fmt.Errorf(msg)]: an error that is neither a
    not-exist nor a permission error. *)
Definition errors_New (msg : string) : error :=
  {| Error := msg; IsNotExist := false; IsPermission := false |}.

(** The pair [(value, err)] returned by a Go call. *)
Inductive res (A : Type) : Type :=
  | Ok (a : A)
  | Err (e : error).
Arguments Ok {A} a.
Arguments Err {A} e.

(* ================================================================== *)
(** ** [os.Expand], [os.ExpandEnv], [os.UserHomeDir] *)

Definition isShellSpecialVar (c : ascii) : bool :=
  let b := byte_val c in
  bool_decide (c = "*"%char) || bool_decide (c = "#"%char) ||
  bool_decide (c = "$"%char) || bool_decide (c = "@"%char) ||
  bool_decide (c = "!"%char) || bool_decide (c = "?"%char) ||
  bool_decide (c = "-"%char) || in_range 48 57 b.

Definition isAlphaNum (c : ascii) : bool :=
  let b := byte_val c in
  bool_decide (c = "_"%char) || in_range 48 57 b || in_range 97 122 b ||
  in_range 65 90 b.

(** Index of the first ["}"] of [s] at or after position [i] (the caller
    starts at 1), if any. *)
Fixpoint find_close (i : nat) (s : string) : option nat :=
  match s with
  | EmptyString => None
  | String c r =>
      if bool_decide (c = "}"%char) then Some i else find_close (S i) r
  end.

(** Length of the longest prefix of alphanumerics. *)
Fixpoint scan_alnum (s : string) : nat :=
  match s with
  | EmptyString => O
  | String c r => if isAlphaNum c then S (scan_alnum r) else O
  end.

(** [getShellName(s)] for a non-empty [s]: the name that follows a [$] and
    the number of bytes it takes. *)
Definition getShellName (s : string) : string * nat :=
  match s with
  | EmptyString => (EmptyString, O)
  | String c0 r =>
      if bool_decide (c0 = "{"%char) then
        match r with
        | String c1 (String c2 _) =>
            if isShellSpecialVar c1 && bool_decide (c2 = "}"%char)
            then (String c1 EmptyString, 3)
            else match find_close 1 r with
                 | Some i => if Nat.eqb i 1 then (EmptyString, 2)
                             else (string_take (i - 1) r, S i)
                 | None => (EmptyString, 1)
                 end
        | _ => match find_close 1 r with
               | Some i => if Nat.eqb i 1 then (EmptyString, 2)
                           else (string_take (i - 1) r, S i)
               | None => (EmptyString, 1)
               end
        end
      else if isShellSpecialVar c0 then (String c0 EmptyString, 1)
      else let i := scan_alnum s in (string_take i s, i)
  end.

(** [os.Expand(s, mapping)].  The loop index of the source jumps over the
    [w] bytes of a name; [skip] counts the bytes still to be jumped. *)
Fixpoint expand_from (mapping : string -> string) (skip : nat) (s : string)
  : string :=
  match s with
  | EmptyString => EmptyString
  | String c r =>
      match skip with
      | S k => expand_from mapping k r
      | O =>
          if bool_decide (c = "$"%char) && negb (bool_decide (r = EmptyString))
          then
            let '(name, w) := getShellName r in
            let put :=
              if bool_decide (name = EmptyString) then
                if Nat.ltb 0 w then EmptyString else "$"
              else mapping name in
            put ++ expand_from mapping w r
          else String c (expand_from mapping O r)
      end
  end.

Definition os_Expand (s : string) (mapping : string -> string) : string :=
  expand_from mapping O s.

(** [os.ExpandEnv(s)] is [os.Expand(s, os.Getenv)]. *)
Definition os_ExpandEnv (getenv : string -> string) (s : string) : string :=
  os_Expand s getenv.

(** [os.UserHomeDir()] on a Unix host: the value of [$HOME], an error when
    it is empty or unset. *)
Definition os_UserHomeDir (getenv : string -> string) : res string :=
  let v := getenv "HOME" in
  if bool_decide (v = EmptyString) then Err (errors_New "$HOME is not defined")
  else Ok v.

(* ================================================================== *)
(** ** Package [path/filepath] (Unix: the separator is [/], no volume) *)

Definition is_sep (c : ascii) : bool := bool_decide (c = "/"%char).

(** The elements of a path: the pieces between separators, empty ones
    included, so that [join_sep (split_sep s) = s]. *)
Fixpoint split_sep (s : string) : list string :=
  match s with
  | EmptyString => [EmptyString]
  | String c r =>
      if is_sep c then EmptyString :: split_sep r
      else match split_sep r with
           | x :: xs => String c x :: xs
           | [] => [String c EmptyString]
           end
  end.

(** [strings.Join(elems, "/")]. *)
Fixpoint join_sep (l : list string) : string :=
  match l with
  | [] => EmptyString
  | [x] => x
  | x :: xs => x ++ "/" ++ join_sep xs
  end.

(** One element read by [filepath.Clean].  [out] holds the elements written
    so far, the last one first.  An empty element and [.] are dropped; [..]
    removes the last written element when there is one to backtrack over,
    is dropped at the root, and is written when the path is relative and
    only [..] elements precede it. *)
Definition clean_step (rooted : bool) (out : list string) (seg : string)
  : list string :=
  if bool_decide (seg = EmptyString) || bool_decide (seg = ".") then out
  else if bool_decide (seg = "..") then
    match out with
    | top :: rest => if bool_decide (top = "..") then ".." :: out else rest
    | [] => if rooted then [] else [".."]
    end
  else seg :: out.

Definition clean_elems (rooted : bool) (segs : list string) : list string :=
  rev (fold_left (clean_step rooted) segs []).

(** [filepath.Clean(path)]: the shortest path equivalent to [path] by
    lexical processing; the empty path becomes [.]. *)
Definition filepath_Clean (path : string) : string :=
  if bool_decide (path = EmptyString) then "."
  else
    let rooted := strings_HasPrefix path "/" in
    let body := join_sep (clean_elems rooted (split_sep path)) in
    if rooted then "/" ++ body
    else if bool_decide (body = EmptyString) then "." else body.

(** The prefix of a path up to and including its last separator. *)
Fixpoint upto_last_sep (s : string) : string :=
  match s with
  | EmptyString => EmptyString
  | String c r =>
      let t := upto_last_sep r in
      if negb (bool_decide (t = EmptyString)) then String c t
      else if is_sep c then String c EmptyString
      else EmptyString
  end.

(** [filepath.Dir(path)]: all but the last element, cleaned. *)
Definition filepath_Dir (path : string) : string :=
  filepath_Clean (upto_last_sep path).

(** [filepath.Base(path)]: the last element; [.] for the empty path and
    [/] for a path made of separators only. *)
Definition filepath_Base (path : string) : string :=
  if bool_decide (path = EmptyString) then "."
  else
    match rev (filter (fun x => x <> EmptyString) (split_sep path)) with
    | x :: _ => x
    | [] => "/"
    end.

(** The list without its leading empty elements. *)
Fixpoint drop_empty (elem : list string) : list string :=
  match elem with
  | [] => []
  | x :: rest => if bool_decide (x = EmptyString) then drop_empty rest else elem
  end.

(** [filepath.Join(elem...)]: leading empty elements are ignored, the rest
    is joined with separators and cleaned. *)
Definition filepath_Join (elem : list string) : string :=
  match drop_empty elem with
  | [] => EmptyString
  | rest => filepath_Clean (join_sep rest)
  end.

(** The elements of a cleaned path without its leading separator; none for
    the empty string. *)
Definition rel_elems (s : string) : list string :=
  let s' := if strings_HasPrefix s "/" then string_drop 1 s else s in
  if bool_decide (s' = EmptyString) then [] else split_sep s'.

(** The two lists after their longest common prefix. *)
Fixpoint strip_common (b t : list string) : list string * list string :=
  match b, t with
  | x :: b', y :: t' =>
      if bool_decide (x = y) then strip_common b' t' else (b, t)
  | _, _ => (b, t)
  end.

(** [filepath.Rel(basepath, targpath)]. *)
Definition filepath_Rel (basepath targpath : string) : res string :=
  let cant :=
    errors_New ("Rel: can't make " ++ targpath ++ " relative to " ++ basepath) in
  let base := filepath_Clean basepath in
  let targ := filepath_Clean targpath in
  if bool_decide (targ = base) then Ok "."
  else
    let base := if bool_decide (base = ".") then EmptyString else base in
    if negb (Bool.eqb (strings_HasPrefix base "/") (strings_HasPrefix targ "/"))
    then Err cant
    else
      let '(rb, rt) := strip_common (rel_elems base) (rel_elems targ) in
      match rb with
      | [] => Ok (join_sep rt)
      | x :: _ =>
          if bool_decide (x = "..") then Err cant
          else Ok (join_sep (map (fun _ => "..") rb ++ rt))
      end.

(* ================================================================== *)
(** ** [fmt.Sprintf("%o", n)] *)

Definition octal_digit (d : Z) : ascii := ascii_of_N (48 + Z.to_N d).

(** The octal digits of [n >= 0], most significant first, in front of
    [acc]. *)
Fixpoint octal_from (fuel : nat) (n : Z) (acc : string) : string :=
  match fuel with
  | O => String (octal_digit (n mod 8)) acc
  | S k =>
      if (n <? 8)%Z then String (octal_digit n) acc
      else octal_from k (n / 8) (String (octal_digit (n mod 8)) acc)
  end.

Definition fmt_octal (n : Z) : string := octal_from (Z.to_nat n) n EmptyString.

(** The number an octal numeral denotes; [None] when a byte is not an octal
    digit. *)
Fixpoint octal_value_from (acc : Z) (s : string) : option Z :=
  match s with
  | EmptyString => Some acc
  | String c r =>
      let b := byte_val c in
      if in_range 48 55 b then octal_value_from (8 * acc + (b - 48)) r
      else None
  end.

Definition octal_value (s : string) : option Z :=
  match s with
  | EmptyString => None
  | _ => octal_value_from 0 s
  end.

(* ================================================================== *)
(** ** Result mappings ([map[string]any]) *)

(** The dynamic values the tool stores in a result. *)
Inductive value : Type :=
  | VBool (b : bool)
  | VStr (s : string)
  | VInt (n : Z)                          (* Go [int] *)
  | VInt64 (n : Z)                        (* Go [int64] *)
  | VItems (l : list (gmap string value)) (* [[]map[string]any] *).

(** What [%T] prints for a value. *)
Definition go_type_name (v : value) : string :=
  match v with
  | VBool _ => "bool"
  | VStr _ => "string"
  | VInt _ => "int"
  | VInt64 _ => "int64"
  | VItems _ => "[]map[string]interface {}"
  end.

(** [mcpError]: the success flag is false and the error is returned. *)
Definition mcpError (err : error) : gmap string value :=
  <["success" := VBool false]> (<["error" := VStr (Error err)]> ∅).

(** The loop of [mcpSuccess] over the name-value pairs, [i] being the index
    of the next name. *)
Fixpoint mcpSuccess_pairs (i : nat) (nameValuePairs : list value)
    (result : gmap string value) : gmap string value :=
  match nameValuePairs with
  | VStr name :: v :: rest =>
      mcpSuccess_pairs (i + 2) rest (<[name := v]> result)
  | other :: _ :: _ =>
      mcpError (errors_New ("name at index " ++ pretty i ++
                            " must be a string, got " ++ go_type_name other))
  | _ => result
  end.

(** [mcpSuccess]: the success flag is true and the name-value pairs are
    added to the result. *)
Definition mcpSuccess (nameValuePairs : list value) : gmap string value :=
  let result : gmap string value := {[ "success" := VBool true ]} in
  if negb (Nat.eqb (length nameValuePairs mod 2) 0) then
    mcpError (errors_New "odd number of name-value pairs")
  else mcpSuccess_pairs 0 nameValuePairs result.

(* ================================================================== *)
(** ** The host: [os.FileInfo], [fs.DirEntry] and the file-system calls *)

(** [fs.FileMode]: the permission bits are the low nine bits, the type
    bits lie above. *)
Definition ModeDir : Z := 2 ^ 31.
Definition ModeSymlink : Z := 2 ^ 27.
Definition ModePerm : Z := 511.        (* 0o777 *)

Definition Perm (mode : Z) : Z := Z.land mode ModePerm.

Record FileInfo : Type := mkFileInfo {
  Name : string;
  Size : Z;
  Mode : Z;
  ModTime_Unix : Z
}.

(** [info.IsDir()] is [info.Mode().IsDir()]. *)
Definition IsDir (info : FileInfo) : bool :=
  negb (Z.land (Mode info) ModeDir =? 0)%Z.

Record DirEntry : Type := mkDirEntry {
  de_Name : string;
  de_Info : res FileInfo
}.

(** One call of the function given to [filepath.WalkDir]: the path
    visited, the entry and the error the walk met there, if any. *)
Record visit : Type := mkVisit {
  walkPath : string;
  walkEntry : DirEntry;
  walkErr : option error
}.

(** The calls the tool makes to its host.  A call that changes the file
    system returns the new state and the error, if any.  [walk_visits]
    lists the calls [filepath.WalkDir] makes to its function as long as
    that function returns [nil]. *)
Class Host : Type := {
  fsstate : Type;
  os_Getenv : string -> string;
  os_Stat : fsstate -> string -> res FileInfo;
  os_ReadFile : fsstate -> string -> res string;
  os_WriteFile : fsstate -> string -> string -> Z -> fsstate * option error;
  os_MkdirAll : fsstate -> string -> Z -> fsstate * option error;
  os_Mkdir : fsstate -> string -> Z -> fsstate * option error;
  os_Remove : fsstate -> string -> fsstate * option error;
  os_RemoveAll : fsstate -> string -> fsstate * option error;
  os_Rename : fsstate -> string -> string -> fsstate * option error;
  copyutil_Copy : fsstate -> string -> string -> fsstate * option error;
  os_ReadDir : fsstate -> string -> res (list DirEntry);
  walk_visits : fsstate -> string -> list visit
}.

(* ================================================================== *)
(** ** [internal/fs/fs.go]: the path resolver and the nine operations *)

Section Operations.
Context {H : Host}.

Definition itemType (info : FileInfo) : string :=
  if IsDir info then "directory" else "file".

(** [ExpandPath] expands shell-style paths like [~] and [$VAR].  The
    deferred function cleans the returned path whenever no error is
    returned. *)
Definition ExpandPath (p : string) : res string :=
  let p := os_ExpandEnv os_Getenv p in
  let returned :=
    if strings_HasPrefix p "~/" || bool_decide (p = "~") then
      match os_UserHomeDir os_Getenv with
      | Err err =>
          Err (errors_New ("failed to get home directory: " ++ Error err))
      | Ok home =>
          if bool_decide (p = "~") then Ok home
          else Ok (strings_Replace1 p "~" home)
      end
    else Ok p in
  match returned with
  | Err err => Err err
  | Ok rtn => Ok (filepath_Clean rtn)
  end.

(** [Read] reads the contents of a file. *)
Definition Read (s : fsstate) (path : string) : gmap string value :=
  if bool_decide (path = "") then mcpError (errors_New "path is required")
  else
    match ExpandPath path with
    | Err err => mcpError err
    | Ok p =>
        match os_Stat s p with
        | Err err =>
            if IsNotExist err then
              mcpError (errors_New ("file not found: " ++ path))
            else mcpError err
        | Ok info =>
            if IsDir info then
              mcpError (errors_New ("path is not a file: " ++ path))
            else
              match os_ReadFile s p with
              | Err err =>
                  if IsPermission err then
                    mcpError (errors_New ("permission denied: " ++ path))
                  else mcpError err
              | Ok data =>
                  if negb (utf8_Valid data) then
                    mcpError
                      (errors_New ("file is not valid UTF-8: " ++ path))
                  else mcpSuccess [VStr "content"; VStr data]
              end
        end
    end.

(** [Write] writes content to a file. *)
Definition Write (s : fsstate) (path content : string) (createDirs : bool)
  : fsstate * gmap string value :=
  if bool_decide (path = "") then (s, mcpError (errors_New "path is required"))
  else if bool_decide (content = "") then
    (s, mcpError (errors_New "content is required"))
  else
    match ExpandPath path with
    | Err err => (s, mcpError err)
    | Ok p =>
        let made :=
          if createDirs then os_MkdirAll s (filepath_Dir p) 493 (* 0755 *)
          else (s, None) in
        match made with
        | (s1, Some err) => (s1, mcpError err)
        | (s1, None) =>
            match os_WriteFile s1 p content 420 (* 0644 *) with
            | (s2, Some err) =>
                if IsPermission err then
                  (s2, mcpError (errors_New ("permission denied: " ++ path)))
                else (s2, mcpError err)
            | (s2, None) => (s2, mcpSuccess [VStr "path"; VStr p])
            end
        end
    end.

(** The function [List] gives to [filepath.WalkDir], run over the visits
    of the walk; [items] is the slice it appends to. *)
Fixpoint List_walk (p : string) (visits : list visit)
    (items : list (gmap string value)) : res (list (gmap string value)) :=
  match visits with
  | [] => Ok items
  | v :: rest =>
      match walkErr v with
      | Some err => Err err
      | None =>
          (* Skip the root directory itself *)
          if bool_decide (walkPath v = p) then List_walk p rest items
          else
            let d := walkEntry v in
            match de_Info d with
            | Err err => Err err
            | Ok entryInfo =>
                let rel :=
                  match filepath_Rel p (walkPath v) with
                  | Ok rel => rel
                  | Err _ => de_Name d
                  end in
                List_walk p rest
                  (items ++
                   [ <["relative" := VStr rel]>
                     (<["type" := VStr (itemType entryInfo)]>
                     (<["name" := VStr (de_Name d)]>
                     (<["path" := VStr (walkPath v)]> ∅))) ])
            end
      end
  end.

(** The loop of the non-recursive [List] over the directory entries. *)
Fixpoint List_entries (p : string) (entries : list DirEntry)
    (items : list (gmap string value)) : res (list (gmap string value)) :=
  match entries with
  | [] => Ok items
  | entry :: rest =>
      match de_Info entry with
      | Err err => Err err
      | Ok info =>
          List_entries p rest
            (items ++
             [ <["type" := VStr (itemType info)]>
               (<["name" := VStr (de_Name entry)]>
               (<["path" := VStr (filepath_Join [p; de_Name entry])]> ∅)) ])
      end
  end.

(** [List] lists directory contents. *)
Definition List (s : fsstate) (path : string) (recursive : bool)
  : gmap string value :=
  if bool_decide (path = "") then mcpError (errors_New "path is required")
  else
    match ExpandPath path with
    | Err err => mcpError err
    | Ok p =>
        match os_Stat s p with
        | Err err =>
            if IsNotExist err then
              mcpError (errors_New ("directory not found: " ++ path))
            else mcpError err
        | Ok info =>
            if negb (IsDir info) then
              mcpError (errors_New ("path is not a directory: " ++ path))
            else if recursive then
              match List_walk p (walk_visits s p) [] with
              | Err err =>
                  if IsPermission err then
                    mcpError (errors_New ("permission denied: " ++ path))
                  else mcpError err
              | Ok items =>
                  mcpSuccess [VStr "items"; VItems items;
                              VStr "count"; VInt (Z.of_nat (length items))]
              end
            else
              match os_ReadDir s p with
              | Err err =>
                  if IsPermission err then
                    mcpError (errors_New ("permission denied: " ++ path))
                  else mcpError err
              | Ok entries =>
                  match List_entries p entries [] with
                  | Err err => mcpError err
                  | Ok items =>
                      mcpSuccess [VStr "items"; VItems items;
                                  VStr "count"; VInt (Z.of_nat (length items))]
                  end
              end
        end
    end.

(** [Exists] checks if a path exists. *)
Definition Exists (s : fsstate) (path : string) : gmap string value :=
  if bool_decide (path = "") then mcpError (errors_New "path is required")
  else
    match ExpandPath path with
    | Err err => mcpError err
    | Ok p =>
        match os_Stat s p with
        | Ok info =>
            let result := mcpSuccess [VStr "exists"; VBool true;
                                      VStr "path"; VStr p] in
            <["is_dir" := VBool (IsDir info)]>
              (<["is_file" := VBool (negb (IsDir info))]>
              (<["type" := VStr (itemType info)]> result))
        | Err err =>
            if negb (IsNotExist err) then mcpError err
            else mcpSuccess [VStr "exists"; VBool false; VStr "path"; VStr p]
        end
    end.

(** [Stat] returns file/directory statistics. *)
Definition Stat (s : fsstate) (path : string) : gmap string value :=
  if bool_decide (path = "") then mcpError (errors_New "path is required")
  else
    match ExpandPath path with
    | Err err => mcpError err
    | Ok p =>
        match os_Stat s p with
        | Err err =>
            if IsNotExist err then
              mcpError (errors_New ("path not found: " ++ path))
            else mcpError err
        | Ok info =>
            mcpSuccess
              [VStr "path"; VStr p;
               VStr "name"; VStr (filepath_Base p);
               VStr "type"; VStr (itemType info);
               VStr "size"; VInt64 (Size info);
               VStr "mode"; VStr (fmt_octal (Perm (Mode info)));
               VStr "modified"; VInt64 (ModTime_Unix info);
               VStr "accessed"; VInt64 (ModTime_Unix info);
               VStr "created"; VInt64 (ModTime_Unix info);
               VStr "is_file"; VBool (negb (IsDir info));
               VStr "is_dir"; VBool (IsDir info);
               VStr "is_symlink";
                 VBool (negb (Z.land (Mode info) ModeSymlink =? 0)%Z)]
        end
    end.

(** [Mkdir] creates a directory. *)
Definition Mkdir (s : fsstate) (path : string) (parents : bool)
  : fsstate * gmap string value :=
  if bool_decide (path = "") then (s, mcpError (errors_New "path is required"))
  else
    match ExpandPath path with
    | Err err => (s, mcpError err)
    | Ok p =>
        match os_Stat s p with
        | Ok info =>
            if IsDir info then
              (s, mcpSuccess [VStr "path"; VStr p;
                              VStr "message"; VStr "directory already exists"])
            else
              (s, mcpError (errors_New
                    ("path exists but is not a directory: " ++ path)))
        | Err _ =>
            let '(s1, err) :=
              if parents then os_MkdirAll s p 493 (* 0755 *)
              else os_Mkdir s p 493 in
            match err with
            | Some err =>
                if IsPermission err then
                  (s1, mcpError (errors_New ("permission denied: " ++ path)))
                else (s1, mcpError err)
            | None => (s1, mcpSuccess [VStr "path"; VStr p])
            end
        end
    end.

(** [Rm] removes a file or directory. *)
Definition Rm (s : fsstate) (path : string) (recursive : bool)
  : fsstate * gmap string value :=
  if bool_decide (path = "") then (s, mcpError (errors_New "path is required"))
  else
    match ExpandPath path with
    | Err err => (s, mcpError err)
    | Ok p =>
        match os_Stat s p with
        | Err err =>
            if IsNotExist err then
              (s, mcpError (errors_New ("path not found: " ++ path)))
            else (s, mcpError err)
        | Ok info =>
            let finish (r : fsstate * option error) :=
              match r with
              | (s1, Some err) =>
                  if IsPermission err then
                    (s1, mcpError (errors_New ("permission denied: " ++ path)))
                  else (s1, mcpError err)
              | (s1, None) => (s1, mcpSuccess [VStr "path"; VStr p])
              end in
            if IsDir info then
              if recursive then finish (os_RemoveAll s p)
              else
                match os_Remove s p with
                | (s1, Some err) =>
                    if strings_Contains (Error err) "not empty" then
                      (s1, mcpError (errors_New
                             ("directory not empty: " ++ path ++
                              ". use recursive=true")))
                    else finish (s1, Some err)
                | (s1, None) => finish (s1, None)
                end
            else finish (os_Remove s p)
        end
    end.

(** [Mv] moves or renames a file/directory. *)
Definition Mv (s : fsstate) (source dest : string)
  : fsstate * gmap string value :=
  if bool_decide (source = "") then
    (s, mcpError (errors_New "source is required"))
  else if bool_decide (dest = "") then
    (s, mcpError (errors_New "dest is required"))
  else
    match ExpandPath source with
    | Err err => (s, mcpError err)
    | Ok src =>
        match ExpandPath dest with
        | Err err => (s, mcpError err)
        | Ok dst =>
            match os_Stat s src with
            | Err err =>
                if IsNotExist err then
                  (s, mcpError (errors_New ("source not found: " ++ source)))
                else (s, mcpError err)
            | Ok _ =>
                match os_Rename s src dst with
                | (s1, Some err) =>
                    if IsPermission err then
                      (s1, mcpError
                             (errors_New ("permission denied: " ++ source)))
                    else (s1, mcpError err)
                | (s1, None) =>
                    (s1, mcpSuccess [VStr "source"; VStr src;
                                     VStr "dest"; VStr dst])
                end
            end
        end
    end.

(** [Cp] copies a file or directory. *)
Definition Cp (s : fsstate) (source dest : string) (recursive : bool)
  : fsstate * gmap string value :=
  if bool_decide (source = "") then
    (s, mcpError (errors_New "source is required"))
  else if bool_decide (dest = "") then
    (s, mcpError (errors_New "dest is required"))
  else
    match ExpandPath source with
    | Err err => (s, mcpError err)
    | Ok src =>
        match ExpandPath dest with
        | Err err => (s, mcpError err)
        | Ok dst =>
            match os_Stat s src with
            | Err err =>
                if IsNotExist err then
                  (s, mcpError (errors_New ("source not found: " ++ source)))
                else (s, mcpError err)
            | Ok info =>
                if IsDir info && negb recursive then
                  (s, mcpError (errors_New
                        "source is a directory. use recursive=true"))
                else
                  match copyutil_Copy s src dst with
                  | (s1, Some err) =>
                      if IsPermission err then
                        (s1, mcpError
                               (errors_New ("permission denied: " ++ source)))
                      else (s1, mcpError err)
                  | (s1, None) =>
                      (s1, mcpSuccess [VStr "source"; VStr src;
                                       VStr "dest"; VStr dst])
                  end
            end
        end
    end.

(* ================================================================== *)
(** ** [cmd/fs/main.go]: the sub-commands and the exit status *)

(** The values of the persistent flags of the root command. *)
Record Flags : Type := mkFlags {
  flag_path : string;
  flag_source : string;
  flag_dest : string;
  flag_content : string;
  flag_recursive : string;
  flag_parents : string;
  flag_create_dirs : string
}.

(** What one run of the process leaves behind: the file system, the
    values it printed on standard output, and its exit status. *)
Record Outcome : Type := mkOutcome {
  out_state : fsstate;
  out_printed : list (gmap string value);
  out_exit : Z
}.

(** [mcpOutput] encodes the value on standard output; [printed] is what
    was written before.  (The encoder cannot fail on a result mapping.) *)
Definition mcpOutput (printed : list (gmap string value))
    (v : gmap string value) : list (gmap string value) :=
  printed ++ [v].

(** [mcpFatalError] prints the error as a failure result and exits with
    status 1. *)
Definition mcpFatalError (s : fsstate) (printed : list (gmap string value))
    (err : error) : Outcome :=
  {| out_state := s;
     out_printed :=
       mcpOutput printed
         (<["success" := VBool false]> (<["error" := VStr (Error err)]> ∅));
     out_exit := 1 |}.

(** The byte [0x22]. *)
Definition double_quote : string := String (ascii_of_nat 34) EmptyString.

(** [strconv.ParseBool]; the text is quoted in the message (without the
    escapes [strconv.Quote] adds for unprintable bytes). *)
Definition strconv_ParseBool (str : string) : res bool :=
  if bool_decide (str ∈ ["1"; "t"; "T"; "TRUE"; "true"; "True"]) then Ok true
  else if bool_decide (str ∈ ["0"; "f"; "F"; "FALSE"; "false"; "False"]) then
    Ok false
  else Err (errors_New ("strconv.ParseBool: parsing " ++ double_quote ++
                        str ++ double_quote ++ ": invalid syntax")).

(** [toBool]: the flag parsed as a boolean; the process stops with a
    fatal error when it is not one. *)
Definition toBool (s : fsstate) (str : string) (k : bool -> Outcome)
  : Outcome :=
  match strconv_ParseBool str with
  | Err err =>
      mcpFatalError s []
        (errors_New ("failed to parse bool " ++ str ++ ": " ++ Error err))
  | Ok b => k b
  end.

(** [getBool(m, key)]: [None] stands for the fatal error raised when the
    value is absent or not a boolean. *)
Definition getBool (m : gmap string value) (key : string) : option bool :=
  match m !! key with
  | Some (VBool v) => Some v
  | _ => None
  end.

(** The end shared by every sub-command but [exists]: the result is
    printed, and the process exits with status 1 unless [success] is
    true. *)
Definition output_and_exit (r : fsstate * gmap string value) : Outcome :=
  let '(s, result) := r in
  let printed := mcpOutput [] result in
  match getBool result "success" with
  | None =>
      mcpFatalError s printed
        (errors_New ("value success is not a boolean: false"))
  | Some false => {| out_state := s; out_printed := printed; out_exit := 1 |}
  | Some true => {| out_state := s; out_printed := printed; out_exit := 0 |}
  end.

Definition newReadCmd (fl : Flags) (s : fsstate) : Outcome :=
  output_and_exit (s, Read s (flag_path fl)).

Definition newWriteCmd (fl : Flags) (s : fsstate) : Outcome :=
  toBool s (flag_create_dirs fl) (fun createDirs =>
    output_and_exit (Write s (flag_path fl) (flag_content fl) createDirs)).

Definition newListCmd (fl : Flags) (s : fsstate) : Outcome :=
  toBool s (flag_recursive fl) (fun recursive =>
    output_and_exit (s, List s (flag_path fl) recursive)).

(** [exists] prints the result and returns [nil]: the status is 0. *)
Definition newExistsCmd (fl : Flags) (s : fsstate) : Outcome :=
  {| out_state := s;
     out_printed := mcpOutput [] (Exists s (flag_path fl));
     out_exit := 0 |}.

Definition newStatCmd (fl : Flags) (s : fsstate) : Outcome :=
  output_and_exit (s, Stat s (flag_path fl)).

Definition newMkdirCmd (fl : Flags) (s : fsstate) : Outcome :=
  toBool s (flag_parents fl) (fun parents =>
    output_and_exit (Mkdir s (flag_path fl) parents)).

Definition newRmCmd (fl : Flags) (s : fsstate) : Outcome :=
  toBool s (flag_recursive fl) (fun recursive =>
    output_and_exit (Rm s (flag_path fl) recursive)).

Definition newMvCmd (fl : Flags) (s : fsstate) : Outcome :=
  output_and_exit (Mv s (flag_source fl) (flag_dest fl)).

Definition newCpCmd (fl : Flags) (s : fsstate) : Outcome :=
  toBool s (flag_recursive fl) (fun recursive =>
    output_and_exit (Cp s (flag_source fl) (flag_dest fl) recursive)).

(** The nine operations. *)
Inductive Operation : Type :=
  | OpRead | OpWrite | OpList | OpExists | OpStat
  | OpMkdir | OpRm | OpMv | OpCp.

(** [subCommandMap]. *)
Definition subCommandMap (operation : string) : option Operation :=
  if bool_decide (operation = "read") then Some OpRead
  else if bool_decide (operation = "write") then Some OpWrite
  else if bool_decide (operation = "list") then Some OpList
  else if bool_decide (operation = "exists") then Some OpExists
  else if bool_decide (operation = "stat") then Some OpStat
  else if bool_decide (operation = "mkdir") then Some OpMkdir
  else if bool_decide (operation = "rm") then Some OpRm
  else if bool_decide (operation = "mv") then Some OpMv
  else if bool_decide (operation = "cp") then Some OpCp
  else None.

Definition RunE (op : Operation) : Flags -> fsstate -> Outcome :=
  match op with
  | OpRead => newReadCmd
  | OpWrite => newWriteCmd
  | OpList => newListCmd
  | OpExists => newExistsCmd
  | OpStat => newStatCmd
  | OpMkdir => newMkdirCmd
  | OpRm => newRmCmd
  | OpMv => newMvCmd
  | OpCp => newCpCmd
  end.

(** The root command: without [--operation] it prints the help text and
    ends with status 0; an unknown selector is an error, which [main]
    reports by [mcpFatalError] before any file-system access. *)
Definition rootCmd (operation : string) (fl : Flags) (s : fsstate) : Outcome :=
  if bool_decide (operation = "") then
    {| out_state := s; out_printed := []; out_exit := 0 |}
  else
    match subCommandMap operation with
    | None =>
        mcpFatalError s [] (errors_New ("unknown operation: " ++ operation))
    | Some op => RunE op fl s
    end.

(** The library call a sub-command makes, with the arguments it takes from
    the flags. *)
Inductive Call : Type :=
  | CallRead (path : string)
  | CallWrite (path content : string) (createDirs : bool)
  | CallList (path : string) (recursive : bool)
  | CallExists (path : string)
  | CallStat (path : string)
  | CallMkdir (path : string) (parents : bool)
  | CallRm (path : string) (recursive : bool)
  | CallMv (source dest : string)
  | CallCp (source dest : string) (recursive : bool).

Definition call_operation (c : Call) : Operation :=
  match c with
  | CallRead _ => OpRead
  | CallWrite _ _ _ => OpWrite
  | CallList _ _ => OpList
  | CallExists _ => OpExists
  | CallStat _ => OpStat
  | CallMkdir _ _ => OpMkdir
  | CallRm _ _ => OpRm
  | CallMv _ _ => OpMv
  | CallCp _ _ _ => OpCp
  end.

(** The state and the result mapping a library call returns. *)
Definition perform (s : fsstate) (c : Call) : fsstate * gmap string value :=
  match c with
  | CallRead path => (s, Read s path)
  | CallWrite path content createDirs => Write s path content createDirs
  | CallList path recursive => (s, List s path recursive)
  | CallExists path => (s, Exists s path)
  | CallStat path => (s, Stat s path)
  | CallMkdir path parents => Mkdir s path parents
  | CallRm path recursive => Rm s path recursive
  | CallMv source dest => Mv s source dest
  | CallCp source dest recursive => Cp s source dest recursive
  end.

(** The call a sub-command makes for the given flags: the boolean flags it
    reads are parsed first, and a flag that is not a boolean stops the
    process before any call. *)
Definition call_of_flags (op : Operation) (fl : Flags) : res Call :=
  let with_bool (str : string) (k : bool -> Call) : res Call :=
    match strconv_ParseBool str with
    | Err err => Err err
    | Ok b => Ok (k b)
    end in
  match op with
  | OpRead => Ok (CallRead (flag_path fl))
  | OpWrite =>
      with_bool (flag_create_dirs fl)
        (CallWrite (flag_path fl) (flag_content fl))
  | OpList => with_bool (flag_recursive fl) (CallList (flag_path fl))
  | OpExists => Ok (CallExists (flag_path fl))
  | OpStat => Ok (CallStat (flag_path fl))
  | OpMkdir => with_bool (flag_parents fl) (CallMkdir (flag_path fl))
  | OpRm => with_bool (flag_recursive fl) (CallRm (flag_path fl))
  | OpMv => Ok (CallMv (flag_source fl) (flag_dest fl))
  | OpCp =>
      with_bool (flag_recursive fl)
        (CallCp (flag_source fl) (flag_dest fl))
  end.

End Operations.

(* ================================================================== *)
(** ** [MemFS]: an in-memory host

    A file system is a finite map from absolute paths, given as the list of
    their elements from the root, to nodes.  There are no symbolic links, no
    users and no permission checks: a call fails only for the reasons of the
    shape of the tree ([ENOENT], [ENOTDIR], [EISDIR], [ENOTEMPTY], [EEXIST])
    or because it names the root or [.] / [..] where the system refuses
    them ([EBUSY], [EINVAL]).  The process has a working directory and an
    environment, which the tool never changes. *)

Module MemFS.

Inductive node : Type :=
  | NFile (data : string) (perm mtime : Z)
  | NDir (perm mtime : Z).

Record state : Type := mkState {
  nodes : gmap (list string) node;
  cwd : list string;
  clock : Z
}.

Inductive errno : Type :=
  | ENOENT | ENOTDIR | EISDIR | ENOTEMPTY | EINVAL | EBUSY | EEXIST.

Definition errno_Error (e : errno) : string :=
  match e with
  | ENOENT => "no such file or directory"
  | ENOTDIR => "not a directory"
  | EISDIR => "is a directory"
  | ENOTEMPTY => "directory not empty"
  | EINVAL => "invalid argument"
  | EBUSY => "device or resource busy"
  | EEXIST => "file exists"
  end.

Definition is_ENOENT (e : errno) : bool :=
  match e with ENOENT => true | _ => false end.

(** [*fs.PathError]: its message is [op path: errno]; [os.IsNotExist]
    holds for [ENOENT] only, and no errno of this host is a permission
    error. *)
Definition PathError (op path : string) (e : errno) : error :=
  {| Error := op ++ " " ++ path ++ ": " ++ errno_Error e;
     IsNotExist := is_ENOENT e;
     IsPermission := false |}.

(** [*os.LinkError]. *)
Definition LinkError (op old new : string) (e : errno) : error :=
  {| Error := op ++ " " ++ old ++ " " ++ new ++ ": " ++ errno_Error e;
     IsNotExist := is_ENOENT e;
     IsPermission := false |}.

(** Path resolution without symbolic links.  The elements are read from
    the root for an absolute path and from the working directory otherwise;
    [done] holds the elements reached so far, the last one first. *)
Definition locate_step (done : list string) (seg : string) : list string :=
  if bool_decide (seg = "") || bool_decide (seg = ".") then done
  else if bool_decide (seg = "..") then tail done
  else seg :: done.

Definition locate (s : state) (p : string) : list string :=
  rev (fold_left locate_step (split_sep p)
         (if strings_HasPrefix p "/" then [] else rev (cwd s))).

(** The node at [pre ++ rest], reached from [pre] through directories. *)
Fixpoint walk (m : gmap (list string) node) (pre rest : list string)
  : errno + node :=
  match m !! pre with
  | None => inl ENOENT
  | Some n =>
      match rest with
      | [] => inr n
      | x :: rest' =>
          match n with
          | NDir _ _ => walk m (pre ++ [x]) rest'
          | NFile _ _ _ => inl ENOTDIR
          end
      end
  end.

Definition node_info (name : string) (n : node) : FileInfo :=
  match n with
  | NFile data perm mtime =>
      {| Name := name; Size := Z.of_nat (String.length data);
         Mode := Perm perm; ModTime_Unix := mtime |}
  | NDir perm mtime =>
      {| Name := name; Size := 4096;
         Mode := Z.lor ModeDir (Perm perm); ModTime_Unix := mtime |}
  end.

Definition with_nodes (s : state) (m : gmap (list string) node) : state :=
  {| nodes := m; cwd := cwd s; clock := clock s |}.

(** The last element of the path as written. *)
Definition last_elem (p : string) : string :=
  default "" (last (split_sep p)).

(** [k] lies strictly below [dir]. *)
Definition below (dir k : list string) : Prop := dir `prefix_of` k /\ dir <> k.

Definition has_entries (m : gmap (list string) node) (dir : list string)
  : bool :=
  existsb (fun kn => bool_decide (below dir kn.1)) (map_to_list m).

(** The map without [k] and everything below it. *)
Definition prune (m : gmap (list string) node) (k : list string)
  : gmap (list string) node :=
  filter (fun kn => ~ k `prefix_of` kn.1) m.

(** The map without what lies strictly below [k]. *)
Definition prune_below (m : gmap (list string) node) (k : list string)
  : gmap (list string) node :=
  filter (fun kn => ~ below k kn.1) m.

Definition stat (s : state) (p : string) : res FileInfo :=
  if bool_decide (p = "") then Err (PathError "stat" p ENOENT)
  else
    match walk (nodes s) [] (locate s p) with
    | inl e => Err (PathError "stat" p e)
    | inr n => Ok (node_info (filepath_Base p) n)
    end.

Definition readFile (s : state) (p : string) : res string :=
  if bool_decide (p = "") then Err (PathError "open" p ENOENT)
  else
    match walk (nodes s) [] (locate s p) with
    | inl e => Err (PathError "open" p e)
    | inr (NDir _ _) => Err (PathError "read" p EISDIR)
    | inr (NFile data _ _) => Ok data
    end.

(** [os.WriteFile]: the file is created with the given permission bits or,
    when it exists, truncated and rewritten. *)
Definition writeFile (s : state) (p data : string) (perm : Z)
  : state * option error :=
  if bool_decide (p = "") then (s, Some (PathError "open" p ENOENT))
  else
    let k := locate s p in
    match k with
    | [] => (s, Some (PathError "open" p EISDIR))
    | _ :: _ =>
        match walk (nodes s) [] (removelast k) with
        | inl e => (s, Some (PathError "open" p e))
        | inr (NFile _ _ _) => (s, Some (PathError "open" p ENOTDIR))
        | inr (NDir _ _) =>
            match nodes s !! k with
            | Some (NDir _ _) => (s, Some (PathError "open" p EISDIR))
            | Some (NFile _ perm0 _) =>
                (with_nodes s (<[k := NFile data perm0 (clock s)]> (nodes s)),
                 None)
            | None =>
                (with_nodes s (<[k := NFile data perm (clock s)]> (nodes s)),
                 None)
            end
        end
    end.

(** [os.Mkdir]: the parent must be a directory and the name must be
    free. *)
Definition mkdir (s : state) (p : string) (perm : Z) : state * option error :=
  if bool_decide (p = "") then (s, Some (PathError "mkdir" p ENOENT))
  else
    let k := locate s p in
    match k with
    | [] => (s, Some (PathError "mkdir" p EEXIST))
    | _ :: _ =>
        match walk (nodes s) [] (removelast k) with
        | inl e => (s, Some (PathError "mkdir" p e))
        | inr (NFile _ _ _) => (s, Some (PathError "mkdir" p ENOTDIR))
        | inr (NDir _ _) =>
            match nodes s !! k with
            | Some _ => (s, Some (PathError "mkdir" p EEXIST))
            | None =>
                (with_nodes s (<[k := NDir perm (clock s)]> (nodes s)), None)
            end
        end
    end.

(** The part of the path before its last element, [path[:j-1]] in
    [os.MkdirAll]: trailing separators are skipped, the last element is
    scanned backward, and the separator before it is dropped.  There is
    none when the last element starts at index 0 or 1. *)
Fixpoint drop_while (f : ascii -> bool) (l : list ascii) : list ascii :=
  match l with
  | [] => []
  | c :: r => if f c then drop_while f r else l
  end.

Definition parent_text (path : string) : option string :=
  let r := rev (list_ascii_of_string path) in
  let r1 := drop_while is_sep r in
  let r2 := drop_while (fun c => negb (is_sep c)) r1 in
  if Nat.ltb 1 (length r2) then Some (string_of_list_ascii (rev (tail r2)))
  else None.

(** The end of [os.MkdirAll]: [Mkdir], and when it fails a second look,
    for a directory that is there after all. *)
Definition mkdir_checked (s : state) (path : string) (perm : Z)
  : state * option error :=
  match mkdir s path perm with
  | (s1, Some err) =>
      match stat s1 path with
      | Ok dir => if IsDir dir then (s1, None) else (s1, Some err)
      | Err _ => (s1, Some err)
      end
  | (s1, None) => (s1, None)
  end.

(** [os.MkdirAll]: nothing to do for a directory; a file in the way is an
    error; otherwise the parent is made first.  The recursion is on the
    text of the path, which gets shorter. *)
Fixpoint mkdirAll_from (fuel : nat) (s : state) (path : string) (perm : Z)
  : state * option error :=
  match stat s path with
  | Ok dir =>
      if IsDir dir then (s, None)
      else (s, Some (PathError "mkdir" path ENOTDIR))
  | Err _ =>
      match fuel, parent_text path with
      | S fuel', Some parent =>
          match mkdirAll_from fuel' s parent perm with
          | (s1, Some err) => (s1, Some err)
          | (s1, None) => mkdir_checked s1 path perm
          end
      | _, _ => mkdir_checked s path perm
      end
  end.

Definition mkdirAll (s : state) (p : string) (perm : Z)
  : state * option error :=
  mkdirAll_from (String.length p) s p perm.

(** [os.Remove]: [unlink] for a file, [rmdir] for a directory.  The
    system refuses [.] ([EINVAL]), [..] ([ENOTEMPTY]) and the root
    ([EBUSY]) as the directory to remove. *)
Definition remove (s : state) (p : string) : state * option error :=
  if bool_decide (p = "") then (s, Some (PathError "remove" p ENOENT))
  else if bool_decide (last_elem p = ".") then
    (s, Some (PathError "remove" p EINVAL))
  else if bool_decide (last_elem p = "..") then
    (s, Some (PathError "remove" p ENOTEMPTY))
  else
    let k := locate s p in
    match k with
    | [] => (s, Some (PathError "remove" p EBUSY))
    | _ :: _ =>
        match walk (nodes s) [] k with
        | inl e => (s, Some (PathError "remove" p e))
        | inr (NFile _ _ _) => (with_nodes s (delete k (nodes s)), None)
        | inr (NDir _ _) =>
            if has_entries (nodes s) k then
              (s, Some (PathError "remove" p ENOTEMPTY))
            else (with_nodes s (delete k (nodes s)), None)
        end
    end.

(** [endsWithDot] of package [os]. *)
Definition endsWithDot (p : string) : bool :=
  bool_decide (p = ".") ||
  (bool_decide (last_elem p = ".") && Nat.leb 2 (String.length p)).

(** [os.RemoveAll]: nothing to do for a path that does not exist; [.] is
    refused at once; the root and [..] lose their contents and then fail
    as directories the system does not remove. *)
Definition removeAll (s : state) (p : string) : state * option error :=
  if bool_decide (p = "") then (s, None)
  else if endsWithDot p then (s, Some (PathError "RemoveAll" p EINVAL))
  else
    let k := locate s p in
    match walk (nodes s) [] k with
    | inl ENOENT => (s, None)
    | inl e => (s, Some (PathError "openfdat" p e))
    | inr _ =>
        if bool_decide (last_elem p = "..") then
          (with_nodes s (prune_below (nodes s) k),
           Some (PathError "unlinkat" p ENOTEMPTY))
        else
          match k with
          | [] =>
              (with_nodes s (prune_below (nodes s) k),
               Some (PathError "unlinkat" p EBUSY))
          | _ :: _ => (with_nodes s (prune (nodes s) k), None)
          end
    end.

(** The nodes at and below [from], re-rooted at [to]. *)
Definition moved (m : gmap (list string) node) (from to : list string)
  : gmap (list string) node :=
  list_to_map
    (map (fun kn : list string * node => ((to ++ drop (length from) kn.1)%list, kn.2))
         (map_to_list (filter (fun kn => from `prefix_of` kn.1) m))).

(** [os.Rename]: an existing directory is never replaced ([EEXIST]); a
    directory is not moved below itself, nor over a file. *)
Definition rename (s : state) (old new : string) : state * option error :=
  let fail e := (s, Some (LinkError "rename" old new e)) in
  if bool_decide (old = "") || bool_decide (new = "") then fail ENOENT
  else
    let ks := locate s old in
    let kd := locate s new in
    match walk (nodes s) [] ks with
    | inl e => fail e
    | inr nsrc =>
        match ks, kd with
        | [], _ | _, [] => fail EBUSY
        | _ :: _, _ :: _ =>
            match walk (nodes s) [] (removelast kd) with
            | inl e => fail e
            | inr (NFile _ _ _) => fail ENOTDIR
            | inr (NDir _ _) =>
                if bool_decide (ks = kd) then (s, None)
                else if bool_decide (ks `prefix_of` kd) then fail EINVAL
                else
                  let go :=
                    (with_nodes s
                       (moved (nodes s) ks kd ∪ prune (nodes s) ks), None) in
                  match nodes s !! kd, nsrc with
                  | Some (NDir _ _), _ => fail EEXIST
                  | Some (NFile _ _ _), NDir _ _ => fail ENOTDIR
                  | _, _ => go
                  end
            end
        end
    end.

(** Insertion sort: directory entries come in the order of their names. *)
Fixpoint insert_by {A : Type} (le : A -> A -> bool) (x : A) (l : list A)
  : list A :=
  match l with
  | [] => [x]
  | y :: l' => if le x y then x :: l else y :: insert_by le x l'
  end.

Definition sort_by {A : Type} (le : A -> A -> bool) (l : list A) : list A :=
  foldr (insert_by le) [] l.

Fixpoint elems_leb (a b : list string) : bool :=
  match a, b with
  | [], _ => true
  | _ :: _, [] => false
  | x :: a', y :: b' =>
      if String.eqb x y then elems_leb a' b' else String.ltb x y
  end.

(** The directories from [pre] down to [pre ++ rest], made where they are
    missing: what the copy does for the directories it needs. *)
Fixpoint mkdirall (m : gmap (list string) node) (perm now : Z)
    (pre rest : list string) : errno + gmap (list string) node :=
  match m !! pre with
  | Some (NFile _ _ _) => inl ENOTDIR
  | Some (NDir _ _) =>
      match rest with
      | [] => inr m
      | x :: rest' => mkdirall m perm now (pre ++ [x]) rest'
      end
  | None =>
      let m' := <[pre := NDir perm now]> m in
      match rest with
      | [] => inr m'
      | x :: rest' => mkdirall m' perm now (pre ++ [x]) rest'
      end
  end.

(** One node copied to [k]: a directory is made with its ancestors, a file
    is written after the ancestors are made. *)
Definition copy_node (now : Z) (k : list string) (n : node)
    (m : gmap (list string) node) : errno + gmap (list string) node :=
  match n with
  | NDir perm _ => mkdirall m perm now [] k
  | NFile data perm _ =>
      match mkdirall m 493 now [] (removelast k) with
      | inl e => inl e
      | inr m' =>
          match m' !! k with
          | Some (NDir _ _) => inl EISDIR
          | _ => inr (<[k := NFile data perm now]> m')
          end
      end
  end.

Fixpoint copy_nodes (now : Z) (l : list (list string * node))
    (m : gmap (list string) node) : errno + gmap (list string) node :=
  match l with
  | [] => inr m
  | (k, n) :: rest =>
      match copy_node now k n m with
      | inl e => inl e
      | inr m' => copy_nodes now rest m'
      end
  end.

(** [copy.Copy] of [github.com/otiai10/copy] with its default options: a
    file is copied to [dest], a directory is copied with everything below
    it (a directory before its contents), missing directories being
    created on the way. *)
Definition copy (s : state) (src dest : string) : state * option error :=
  if bool_decide (src = "") then (s, Some (PathError "lstat" src ENOENT))
  else
    let ks := locate s src in
    let kd := locate s dest in
    match walk (nodes s) [] ks with
    | inl e => (s, Some (PathError "lstat" src e))
    | inr _ =>
        if bool_decide (dest = "") then
          (s, Some (PathError "mkdir" dest ENOENT))
        else
          match copy_nodes (clock s)
                  (sort_by (fun a b => elems_leb a.1 b.1)
                     (map_to_list (moved (nodes s) ks kd)))
                  (nodes s) with
          | inl e => (s, Some (PathError "open" dest e))
          | inr m => (with_nodes s m, None)
          end
    end.

Definition entry_of (kn : list string * node) : DirEntry :=
  let name := default "" (last kn.1) in
  {| de_Name := name; de_Info := Ok (node_info name kn.2) |}.

Definition readDir (s : state) (p : string) : res (list DirEntry) :=
  if bool_decide (p = "") then Err (PathError "open" p ENOENT)
  else
    let k := locate s p in
    match walk (nodes s) [] k with
    | inl e => Err (PathError "open" p e)
    | inr (NFile _ _ _) => Err (PathError "readdirent" p ENOTDIR)
    | inr (NDir _ _) =>
        Ok (map entry_of
              (sort_by (fun a b => elems_leb a.1 b.1)
                 (map_to_list
                    (filter
                       (fun kn => k `prefix_of` kn.1 /\
                                  length kn.1 = S (length k))
                       (nodes s)))))
    end.

(** The visits of [filepath.WalkDir(p, fn)]: the root, then everything
    below it in lexical order, a directory before its contents. *)
Definition walkVisits (s : state) (p : string) : list visit :=
  let k := locate s p in
  let missing :=
    {| de_Name := filepath_Base p;
       de_Info := Err (PathError "lstat" p ENOENT) |} in
  if bool_decide (p = "") then
    [ {| walkPath := p; walkEntry := missing;
         walkErr := Some (PathError "lstat" p ENOENT) |} ]
  else
    match walk (nodes s) [] k with
    | inl e =>
        [ {| walkPath := p; walkEntry := missing;
             walkErr := Some (PathError "lstat" p e) |} ]
    | inr n =>
        {| walkPath := p;
           walkEntry := {| de_Name := filepath_Base p;
                           de_Info := Ok (node_info (filepath_Base p) n) |};
           walkErr := None |} ::
        map (fun kn : list string * node =>
               {| walkPath :=
                    filepath_Join [p; join_sep (drop (length k) kn.1)];
                  walkEntry := entry_of kn;
                  walkErr := None |})
            (sort_by (fun a b => elems_leb a.1 b.1)
               (map_to_list (filter (fun kn => below k kn.1) (nodes s))))
    end.

(** The host made of these calls, for a given environment. *)
Definition host (getenv : string -> string) : Host :=
  {| fsstate := state;
     os_Getenv := getenv;
     os_Stat := stat;
     os_ReadFile := readFile;
     os_WriteFile := writeFile;
     os_MkdirAll := mkdirAll;
     os_Mkdir := mkdir;
     os_Remove := remove;
     os_RemoveAll := removeAll;
     os_Rename := rename;
     copyutil_Copy := copy;
     os_ReadDir := readDir;
     walk_visits := walkVisits |}.

End MemFS.

(* ================================================================== *)
(** ** Predicates of the specification *)

(** A failure result: exactly the two fields of [mcpError]. *)
Definition failure_result (r : gmap string value) : Prop :=
  exists msg : string,
    r = <["success" := VBool false]> (<["error" := VStr msg]> ∅).

(** A success result: [success] is true and there is no [error] field. *)
Definition success_result (r : gmap string value) : Prop :=
  r !! "success" = Some (VBool true) /\ r !! "error" = None.

Definition well_shaped (r : gmap string value) : Prop :=
  failure_result r \/ success_result r.

(** The names of a list of name-value pairs are strings other than
    [success] and [error], and no value lacks its name. *)
Fixpoint plain_pairs (nameValuePairs : list value) : bool :=
  match nameValuePairs with
  | [] => true
  | VStr name :: _ :: rest =>
      negb (bool_decide (name = "success")) &&
      negb (bool_decide (name = "error")) && plain_pairs rest
  | _ => false
  end.

(** No separator occurs in [x]. *)
Fixpoint sep_free (x : string) : bool :=
  match x with
  | EmptyString => true
  | String c r => negb (is_sep c) && sep_free r
  end.

(** An ordinary path element: not empty, not [.], not [..], and without a
    separator. *)
Definition plain_name (x : string) : Prop :=
  x <> "" /\ x <> "." /\ x <> ".." /\ sep_free x = true.

(** The cleaned paths: [.], a rooted path made of ordinary elements, or a
    non-empty relative path made of [..] elements followed by ordinary
    ones. *)
Inductive lexically_clean : string -> Prop :=
  | clean_dot : lexically_clean "."
  | clean_rooted ns :
      Forall plain_name ns -> lexically_clean ("/" ++ join_sep ns)
  | clean_relative ds ns :
      Forall (fun x => x = "..") ds -> Forall plain_name ns ->
      (ds ++ ns)%list <> [] ->
      lexically_clean (join_sep (ds ++ ns)).

(** The stack of [filepath.Clean] always holds ordinary elements above
    [..] elements, and no [..] at all for a rooted path. *)
Definition clean_stack (rooted : bool) (out : list string) : Prop :=
  exists ns ds,
    out = (ns ++ ds)%list /\ Forall plain_name ns /\
    Forall (fun x => x = "..") ds /\ (rooted = true -> ds = []).

(** No [$] occurs in [s]. *)
Fixpoint dollar_free (s : string) : bool :=
  match s with
  | EmptyString => true
  | String c r => negb (bool_decide (c = "$"%char)) && dollar_free r
  end.


(** The reasons for which [Read] fails: no path, a path that cannot be
    resolved, an error of the host when the target is examined or read, a
    directory as the target, or content that is not valid UTF-8. *)
Definition Read_failure_cause {H : Host} (s : fsstate) (path : string) : Prop :=
  path = "" \/
  (exists e, ExpandPath path = Err e) \/
  (exists p, ExpandPath path = Ok p /\
     ((exists e, os_Stat s p = Err e) \/
      (exists info, os_Stat s p = Ok info /\
         (IsDir info = true \/
          (exists e, os_ReadFile s p = Err e) \/
          (exists data, os_ReadFile s p = Ok data /\
                        utf8_Valid data = false))))).

(** The reasons for which [Exists] fails: no path, a path that cannot be
    resolved, or an error of the existence check other than not-found. *)
Definition Exists_failure_cause {H : Host} (s : fsstate) (path : string)
  : Prop :=
  path = "" \/
  (exists e, ExpandPath path = Err e) \/
  (exists p e, ExpandPath path = Ok p /\ os_Stat s p = Err e /\
               IsNotExist e = false).

(** What the round trips ask of a host.  A file written without error can
    be examined and read back; a directory made without error is found as a
    directory. *)
Definition WriteFile_law (H : Host) : Prop :=
  forall (s s' : fsstate) (q data : string) (perm : Z),
    os_WriteFile s q data perm = (s', None) ->
    (exists info, os_Stat s' q = Ok info /\ IsDir info = false) /\
    os_ReadFile s' q = Ok data.

Definition MkdirAll_law (H : Host) : Prop :=
  forall (s s' : fsstate) (q : string) (perm : Z),
    os_MkdirAll s q perm = (s', None) ->
    exists info, os_Stat s' q = Ok info /\ IsDir info = true.

(** The path ends in an ordinary element: it names neither the root as
    [/], nor a directory as [.] or [..]. *)
Definition ends_in_name (p : string) : Prop :=
  MemFS.last_elem p <> "" /\ MemFS.last_elem p <> "." /\
  MemFS.last_elem p <> "..".

(** What the removal of directories asks of a host, for the paths that end
    in an ordinary element.  [Remove] refuses a directory that has entries
    with an error that says [not empty], and changes nothing; [RemoveAll]
    of a directory reports no error, and the path is not found
    afterwards. *)
Definition Remove_law (H : Host) : Prop :=
  forall (s : fsstate) (q : string) (info : FileInfo)
         (entries : list DirEntry),
    ends_in_name q -> os_Stat s q = Ok info -> IsDir info = true ->
    os_ReadDir s q = Ok entries -> entries <> [] ->
    exists err,
      os_Remove s q = (s, Some err) /\
      strings_Contains (Error err) "not empty" = true.

Definition RemoveAll_law (H : Host) : Prop :=
  forall (s : fsstate) (q : string) (info : FileInfo),
    ends_in_name q -> os_Stat s q = Ok info -> IsDir info = true ->
    exists s' e,
      os_RemoveAll s q = (s', None) /\
      os_Stat s' q = Err e /\ IsNotExist e = true.

(* ================================================================== *)
(** ** Sample hosts *)

(** An environment in which only [HOME] is set. *)
Definition env_home (home : string) (name : string) : string :=
  if bool_decide (name = "HOME") then home else "".

(** The empty environment. *)
Definition env_empty (name : string) : string := "".

(** A file system with nothing but its root. *)
Definition fs_bare : MemFS.state :=
  {| MemFS.nodes := {[ [] := MemFS.NDir 493 0 ]};
     MemFS.cwd := [];
     MemFS.clock := 1 |}.

(** [/], [/home/u] (the working directory) with the file [notes], [/tmp]
    and the five-byte file [/tmp/f]. *)
Definition fs_sample : MemFS.state :=
  {| MemFS.nodes :=
       list_to_map
         [ ([], MemFS.NDir 493 0);
           (["home"], MemFS.NDir 493 0);
           (["home"; "u"], MemFS.NDir 493 0);
           (["home"; "u"; "notes"], MemFS.NFile "to do" 420 3);
           (["tmp"], MemFS.NDir 493 0);
           (["tmp"; "f"], MemFS.NFile "hello" 420 7) ];
     MemFS.cwd := ["home"; "u"];
     MemFS.clock := 100 |}.

(** An environment in which [HOME] is set and [LINK] holds the text
    [$HOME]. *)
Definition env_nested (name : string) : string :=
  if bool_decide (name = "HOME") then "/home/u"
  else if bool_decide (name = "LINK") then "$HOME"
  else "".

Definition host_home : Host := MemFS.host (env_home "/home/u").
Definition host_nested : Host := MemFS.host env_nested.
Definition host_no_home : Host := MemFS.host env_empty.

(** The flags with their default values and the given path. *)
Definition flags_path (path : string) : Flags :=
  {| flag_path := path; flag_source := ""; flag_dest := "";
     flag_content := ""; flag_recursive := "false";
     flag_parents := "false"; flag_create_dirs := "false" |}.

(** The string made of the given bytes. *)
Definition string_of_bytes (l : list nat) : string :=
  fold_right (fun n s => String (ascii_of_nat n) s) EmptyString l.

(** The environment of the expansion table of package [os]. *)
Definition testGetenv (s : string) : string :=
  if bool_decide (s = "*") then "all the args"
  else if bool_decide (s = "#") then "NARGS"
  else if bool_decide (s = "$") then "PID"
  else if bool_decide (s = "1") then "ARGUMENT1"
  else if bool_decide (s = "HOME") then "/usr/gopher"
  else if bool_decide (s = "H") then "(Value of H)"
  else if bool_decide (s = "home_1") then "/usr/foo"
  else if bool_decide (s = "_") then "underscore"
  else "".

(* ================================================================== *)
(** ** Further notions used to describe the code *)

(** A list of name-value pairs in which every name is a string. *)
Fixpoint string_names (nameValuePairs : list value) : bool :=
  match nameValuePairs with
  | [] => true
  | VStr _ :: _ :: rest => string_names rest
  | _ => false
  end.

(** The value of the last pair named [name], if any. *)
Fixpoint last_binding (name : string) (nameValuePairs : list value)
  : option value :=
  match nameValuePairs with
  | VStr n :: v :: rest =>
      match last_binding name rest with
      | Some w => Some w
      | None => if bool_decide (n = name) then Some v else None
      end
  | _ => None
  end.

Definition is_VStr (v : value) : bool :=
  match v with VStr _ => true | _ => false end.

(** The first required argument of a call that is empty, in the order the
    operation looks at them. *)
Definition missing_argument (c : Call) : option string :=
  let first_empty (args : list (string * string)) :=
    fst <$> head (filter (fun a : string * string => a.2 = "") args) in
  match c with
  | CallRead path | CallList path _ | CallExists path | CallStat path
  | CallMkdir path _ | CallRm path _ => first_empty [("path", path)]
  | CallWrite path content _ =>
      first_empty [("path", path); ("content", content)]
  | CallMv source dest | CallCp source dest _ =>
      first_empty [("source", source); ("dest", dest)]
  end.

(** The key of an operation in [subCommandMap]. *)
Definition op_name (op : Operation) : string :=
  match op with
  | OpRead => "read"
  | OpWrite => "write"
  | OpList => "list"
  | OpExists => "exists"
  | OpStat => "stat"
  | OpMkdir => "mkdir"
  | OpRm => "rm"
  | OpMv => "mv"
  | OpCp => "cp"
  end.

(** The fields of an item of a listing, by mode. *)
Definition item_fields (recursive : bool) : gset string :=
  if recursive then {[ "path"; "name"; "type"; "relative" ]}
  else {[ "path"; "name"; "type" ]}.

(** The fields of a success result of [Stat]. *)
Definition stat_fields : gset string :=
  {[ "success"; "path"; "name"; "type"; "size"; "mode"; "modified";
     "accessed"; "created"; "is_file"; "is_dir"; "is_symlink" ]}.

(** The fields of a success result of [Exists], by what it found. *)
Definition exists_fields (found : bool) : gset string :=
  if found then
    {[ "success"; "exists"; "path"; "type"; "is_file"; "is_dir" ]}
  else {[ "success"; "exists"; "path" ]}.

(** The boolean flags a sub-command parses. *)
Definition boolean_flags (op : Operation) (fl : Flags) : list string :=
  match op with
  | OpWrite => [flag_create_dirs fl]
  | OpList | OpRm | OpCp => [flag_recursive fl]
  | OpMkdir => [flag_parents fl]
  | OpRead | OpExists | OpStat | OpMv => []
  end.

(** Text that [strconv.Quote] leaves as it is between the quotes:
    printable ASCII without the double quote and the backslash. *)
Fixpoint quoted_as_is (str : string) : bool :=
  match str with
  | EmptyString => true
  | String c rest =>
      let n := nat_of_ascii c in
      (32 <=? n)%nat && (n <=? 126)%nat && negb (n =? 34)%nat &&
      negb (n =? 92)%nat &&
      quoted_as_is rest
  end.

(* ================================================================== *)
(** * Properties *)

(** ** The library functions on the tables of their own packages *)

Example os_Expand_table :
  map (fun s => os_Expand s testGetenv)
    [ ""; "$*"; "$$"; "${*}"; "$1"; "${1}"; "now is the time"; "$HOME";
      "$home_1"; "${HOME}"; "${H}OME"; "A$$$#$1$H$home_1*B";
      "start$+middle$^end$"; "mixed$|bag$$$"; "$"; "$}"; "${"; "${}" ] =
    [ ""; "all the args"; "PID"; "all the args"; "ARGUMENT1"; "ARGUMENT1";
      "now is the time"; "/usr/gopher"; "/usr/foo"; "/usr/gopher";
      "(Value of H)OME"; "APIDNARGSARGUMENT1(Value of H)/usr/foo*B";
      "start$+middle$^end$"; "mixed$|bagPID$"; "$"; "$}"; ""; "" ].
Proof. vm_compute. reflexivity. Qed.

Example filepath_Clean_table :
  map filepath_Clean
    [ "abc"; "abc/def"; "a/b/c"; "."; ".."; "../.."; "../../abc"; "/abc";
      "/"; ""; "abc/"; "abc/def/"; "a/b/c/"; "./"; "../"; "../../"; "/abc/";
      "abc//def//ghi"; "//abc"; "///abc"; "//abc//"; "abc//";
      "abc/./def"; "/./abc/def"; "abc/.";
      "abc/def/ghi/../jkl"; "abc/def/../ghi/../jkl"; "abc/def/..";
      "abc/def/../.."; "/abc/def/../.."; "abc/def/../../..";
      "/abc/def/../../.."; "abc/def/../../../ghi/jkl/../../../mno";
      "/../abc"; "abc/./../def"; "abc//./../def"; "abc/../../././../def" ] =
    [ "abc"; "abc/def"; "a/b/c"; "."; ".."; "../.."; "../../abc"; "/abc";
      "/"; "."; "abc"; "abc/def"; "a/b/c"; "."; ".."; "../.."; "/abc";
      "abc/def/ghi"; "/abc"; "/abc"; "/abc"; "abc";
      "abc/def"; "/abc/def"; "abc";
      "abc/def/jkl"; "abc/jkl"; "abc";
      "."; "/"; "..";
      "/"; "../../mno";
      "/abc"; "def"; "def"; "../../def" ].
Proof. vm_compute. reflexivity. Qed.

Example filepath_Rel_table :
  map (fun bt : string * string => filepath_Rel bt.1 bt.2)
    [ ("a/b", "a/b"); ("a/b/.", "a/b"); ("a/b", "a/b/."); ("./a/b", "a/b");
      ("ab/cd", "ab/cde"); ("ab/cd", "ab/c"); ("a/b", "a/b/c/d");
      ("a/b", "a/b/../c"); ("a/b/../c", "a/b"); ("a/b/c", "a/c/d");
      ("a/b", "c/d"); ("a/b/c/d", "a/b"); ("a/b/c/d/", "a/b");
      ("../../a/b", "../../a/b/c/d"); ("/a/b", "/a/b"); ("/a/b", "/a/b/c/d");
      ("/a/b/c/d", "/a/b"); ("/ab/cd", "/ab/cde"); ("/a/b", "/c/d");
      (".", "a/b"); (".", "..") ] =
    map Ok
      [ "."; "."; "."; "."; "../cde"; "../c"; "c/d"; "../c"; "../b";
        "../../c/d"; "../../c/d"; "../.."; "../.."; "c/d"; "."; "c/d";
        "../.."; "../cde"; "../../c/d"; "a/b"; ".." ].
Proof. vm_compute. reflexivity. Qed.

Example filepath_Base_Dir_table :
  map filepath_Base
    [ ""; "."; "/."; "/"; "////"; "x/"; "abc"; "abc/def"; "a/b/.x"; "a/b/c." ] =
    [ "."; "."; "."; "/"; "/"; "x"; "abc"; "def"; ".x"; "c." ] /\
  map filepath_Dir
    [ ""; "."; "/."; "/"; "/foo"; "x/"; "abc"; "abc/def"; "a/b/.x"; "a/b/c." ] =
    [ "."; "."; "/"; "/"; "/"; "x"; "."; "abc"; "a/b"; "a/b" ].
Proof. vm_compute. split; reflexivity. Qed.

Example utf8_Valid_table :
  map (fun l => utf8_Valid (string_of_bytes l))
    [ []; [97]; [97; 98; 99]; [226; 152; 186]; [244; 143; 191; 191];
      [97; 97; 226]; [66; 250]; [66; 250; 67]; [244; 144; 128; 128];
      [247; 191; 191; 191]; [192; 128]; [237; 160; 128]; [237; 191; 191] ] =
    [ true; true; true; true; true;
      false; false; false; false;
      false; false; false; false ].
Proof. vm_compute. reflexivity. Qed.

Example fmt_octal_table :
  map fmt_octal [0; 7; 8; 420; 493; 511]%Z =
    [ "0"; "7"; "10"; "644"; "755"; "777" ].
Proof. vm_compute. reflexivity. Qed.

(** ** The shape of a result mapping *)

Lemma mcpError_failure (err : error) : failure_result (mcpError err).
Proof. by exists (Error err). Qed.

Lemma failure_result_fields (r : gmap string value) :
  failure_result r ->
  r !! "success" = Some (VBool false) /\
  (exists msg, r !! "error" = Some (VStr msg)) /\
  dom r = ({[ "success"; "error" ]} : gset string).
Proof.
  intros [msg ->]. split; [done|]. split; [by exists msg|].
  rewrite !dom_insert_L, dom_empty_L. set_solver.
Qed.

(** Adding a field other than [success] and [error] keeps a success
    result one. *)
Lemma success_result_insert (r : gmap string value) (name : string) (v : value) :
  name <> "success" -> name <> "error" ->
  success_result r -> success_result (<[name := v]> r).
Proof.
  intros Hs He [H1 H2]. split.
  - by rewrite lookup_insert_ne.
  - by rewrite lookup_insert_ne.
Qed.

Lemma success_result_init :
  success_result ({[ "success" := VBool true ]} : gmap string value).
Proof. by split. Qed.

Lemma mcpSuccess_pairs_success i nvs r :
  plain_pairs nvs = true -> success_result r ->
  success_result (mcpSuccess_pairs i nvs r).
Proof.
  revert i r. induction nvs as [nvs IH] using (induction_ltof1 _ (@length _)).
  intros i r Hp Hr. destruct nvs as [|[| name | | |] [|v rest]]; try done.
  cbn in Hp |- *. apply andb_true_iff in Hp as [Hn Hp].
  apply andb_true_iff in Hn as [Hs He].
  apply negb_true_iff, bool_decide_eq_false in Hs, He.
  apply IH; [unfold ltof; cbn; lia | done |].
  by apply success_result_insert.
Qed.

Lemma plain_pairs_even nvs :
  plain_pairs nvs = true -> exists k, length nvs = k * 2.
Proof.
  induction nvs as [nvs IH] using (induction_ltof1 _ (@length _)).
  destruct nvs as [|[| name | | |] [|v rest]]; try done.
  - by exists 0.
  - cbn [plain_pairs]. intros Hp. apply andb_true_iff in Hp as [_ Hp].
    destruct (IH rest) as [k Hk]; [unfold ltof; cbn; lia|done|].
    exists (S k). cbn. lia.
Qed.

Lemma mcpSuccess_success nvs :
  plain_pairs nvs = true -> success_result (mcpSuccess nvs).
Proof.
  intros Hp. unfold mcpSuccess.
  destruct (plain_pairs_even _ Hp) as [k ->].
  rewrite Nat.Div0.mod_mul. cbn [Nat.eqb negb].
  by apply mcpSuccess_pairs_success, success_result_init.
Qed.

(** Closes the goal [well_shaped r] for a result built by [mcpError], or by
    [mcpSuccess] and insertions with literal field names. *)
Ltac success_leaf :=
  lazymatch goal with
  | |- success_result (<[_ := _]> _) =>
      apply success_result_insert; [discriminate | discriminate | success_leaf]
  | |- success_result (mcpSuccess _) => apply mcpSuccess_success; reflexivity
  end.

Ltac shape_leaf :=
  lazymatch goal with
  | |- well_shaped (mcpError _) => left; apply mcpError_failure
  | |- well_shaped _ => right; success_leaf
  end.

Ltac shape_cases :=
  repeat (case_match; simplify_eq; cbn [snd]; try shape_leaf).

Lemma mcpSuccess_plain nvs :
  plain_pairs nvs = true ->
  mcpSuccess nvs = mcpSuccess_pairs 0 nvs {[ "success" := VBool true ]}.
Proof.
  intros Hp. unfold mcpSuccess. destruct (plain_pairs_even _ Hp) as [k ->].
  by rewrite Nat.Div0.mod_mul.
Qed.

Lemma mcpError_success err : mcpError err !! "success" = Some (VBool false).
Proof. done. Qed.

(** Rewrites a result built by [mcpSuccess] with literal names into the
    insertions it stands for. *)
Ltac open_success :=
  rewrite ?mcpSuccess_plain by reflexivity; cbn [mcpSuccess_pairs].

Section Shape.
Context {H : Host}.

Lemma Read_well_shaped s path : well_shaped (Read s path).
Proof. unfold Read. shape_cases. Qed.

Lemma Write_well_shaped s path content createDirs :
  well_shaped (Write s path content createDirs).2.
Proof. unfold Write. shape_cases. Qed.

Lemma List_well_shaped s path recursive : well_shaped (List s path recursive).
Proof. unfold List. shape_cases. Qed.

Lemma Exists_well_shaped s path : well_shaped (Exists s path).
Proof. unfold Exists. shape_cases. Qed.

Lemma Stat_well_shaped s path : well_shaped (Stat s path).
Proof. unfold Stat. shape_cases. Qed.

Lemma Mkdir_well_shaped s path parents : well_shaped (Mkdir s path parents).2.
Proof. unfold Mkdir. shape_cases. Qed.

Lemma Rm_well_shaped s path recursive : well_shaped (Rm s path recursive).2.
Proof. unfold Rm. shape_cases. Qed.

Lemma Mv_well_shaped s source dest : well_shaped (Mv s source dest).2.
Proof. unfold Mv. shape_cases. Qed.

Lemma Cp_well_shaped s source dest recursive :
  well_shaped (Cp s source dest recursive).2.
Proof. unfold Cp. shape_cases. Qed.

Lemma perform_well_shaped s c : well_shaped (perform s c).2.
Proof.
  destruct c; cbn [perform snd];
    auto using Read_well_shaped, Write_well_shaped, List_well_shaped,
      Exists_well_shaped, Stat_well_shaped, Mkdir_well_shaped, Rm_well_shaped,
      Mv_well_shaped, Cp_well_shaped.
Qed.

End Shape.

(** ** Lexical cleaning *)

Lemma split_sep_nonempty s : split_sep s <> [].
Proof. destruct s as [|c r]; cbn; [done|]. by repeat case_match. Qed.

(** Splitting a path at its separators loses nothing. *)
Lemma join_split (s : string) : join_sep (split_sep s) = s.
Proof.
  induction s as [|c r IH]; [done|]. cbn [split_sep].
  pose proof (split_sep_nonempty r) as Hne.
  destruct (split_sep r) as [|x xs]; [done|].
  destruct (is_sep c) eqn:Hc.
  - apply bool_decide_eq_true in Hc. subst c.
    change (join_sep ("" :: x :: xs)) with ("/" ++ join_sep (x :: xs)).
    by rewrite IH.
  - assert (join_sep (String c x :: xs) = String c (join_sep (x :: xs))) as ->
      by (by destruct xs).
    by rewrite IH.
Qed.

Lemma split_sep_sep_free s : Forall (fun x => sep_free x = true) (split_sep s).
Proof.
  induction s as [|c r IH]; cbn [split_sep].
  - by repeat constructor.
  - destruct (is_sep c) eqn:Hc.
    + by constructor.
    + destruct (split_sep r) as [|x xs]; inversion IH; subst;
        repeat constructor; cbn [sep_free]; rewrite ?Hc; done.
Qed.

Lemma split_sep_plain x : sep_free x = true -> split_sep x = [x].
Proof.
  induction x as [|c r IH]; cbn [split_sep sep_free]; [done|].
  intros [Hc Hr]%andb_true_iff. apply negb_true_iff in Hc.
  by rewrite Hc, IH.
Qed.

Lemma split_sep_app x t :
  sep_free x = true -> split_sep (x ++ "/" ++ t) = x :: split_sep t.
Proof.
  induction x as [|c r IH]; [done|].
  change (String c r ++ "/" ++ t) with (String c (r ++ "/" ++ t)).
  cbn [split_sep sep_free].
  intros [Hc Hr]%andb_true_iff. apply negb_true_iff in Hc.
  by rewrite Hc, IH.
Qed.

Lemma split_join l :
  l <> [] -> Forall (fun x => sep_free x = true) l -> split_sep (join_sep l) = l.
Proof.
  induction l as [|x [|y rest] IH]; intros Hne Hl; [done| |].
  - cbn. apply split_sep_plain. by inversion Hl.
  - change (join_sep (x :: y :: rest)) with (x ++ "/" ++ join_sep (y :: rest)).
    inversion Hl; subst. rewrite split_sep_app by done. f_equal. by apply IH.
Qed.

Lemma clean_step_stack rooted out seg :
  sep_free seg = true -> clean_stack rooted out ->
  clean_stack rooted (clean_step rooted out seg).
Proof.
  intros Hseg (ns & ds & -> & Hns & Hds & Hr). unfold clean_step.
  destruct (bool_decide (seg = "")) eqn:H0; [by exists ns, ds|].
  destruct (bool_decide (seg = ".")) eqn:H1; [by exists ns, ds|].
  apply bool_decide_eq_false in H0, H1. cbn [orb].
  destruct (bool_decide (seg = "..")) eqn:H2.
  - destruct ns as [|n ns'].
    + cbn. destruct ds as [|d ds'].
      * destruct rooted; [by exists [], []|].
        exists [], [".."]. repeat split; by repeat constructor.
      * inversion Hds; subst. rewrite bool_decide_eq_true_2 by done.
        exists [], (".." :: ".." :: ds'). repeat split; try done.
        -- by repeat constructor.
        -- intros ->. by specialize (Hr eq_refl).
    + cbn. inversion Hns as [|? ? Hn Hns']; subst.
      rewrite bool_decide_eq_false_2 by (destruct Hn as (_ & _ & ? & _); done).
      by exists ns', ds.
  - apply bool_decide_eq_false in H2.
    exists (seg :: ns), ds. repeat split; try done. by constructor.
Qed.

Lemma clean_fold_stack rooted segs out :
  Forall (fun x => sep_free x = true) segs -> clean_stack rooted out ->
  clean_stack rooted (fold_left (clean_step rooted) segs out).
Proof.
  revert out. induction segs as [|x segs IH]; intros out Hs Ho; [done|].
  inversion Hs; subst. cbn. apply IH; [done|]. by apply clean_step_stack.
Qed.

Lemma clean_fold_names rooted ns out :
  Forall plain_name ns ->
  fold_left (clean_step rooted) ns out = (rev ns ++ out)%list.
Proof.
  revert out. induction ns as [|n ns IH]; intros out Hns; [done|].
  inversion Hns as [|? ? (H0 & H1 & H2 & _) Hns']; subst. cbn.
  rewrite IH by done. unfold clean_step.
  rewrite !bool_decide_eq_false_2 by done. cbn. by rewrite <- app_assoc.
Qed.

Lemma clean_fold_dots ds out :
  Forall (fun x => x = "..") ds -> Forall (fun x => x = "..") out ->
  fold_left (clean_step false) ds out = (rev ds ++ out)%list.
Proof.
  revert out. induction ds as [|d ds IH]; intros out Hds Hout; [done|].
  inversion Hds; subst. cbn.
  assert (clean_step false out ".." = ".." :: out) as ->.
  { unfold clean_step. cbn. destruct out as [|o out']; [done|].
    inversion Hout; by subst. }
  rewrite IH; [by rewrite <- app_assoc | done | by constructor].
Qed.

Lemma clean_elems_fixed rooted ds ns :
  Forall (fun x => x = "..") ds -> Forall plain_name ns ->
  (rooted = true -> ds = []) ->
  clean_elems rooted (ds ++ ns) = (ds ++ ns)%list.
Proof.
  intros Hds Hns Hr. unfold clean_elems. rewrite fold_left_app.
  rewrite clean_fold_names by done.
  destruct rooted.
  - rewrite (Hr eq_refl). cbn. by rewrite app_nil_r, rev_involutive.
  - rewrite clean_fold_dots by done.
    by rewrite app_nil_r, rev_app_distr, !rev_involutive.
Qed.

Lemma plain_name_sep_free ns :
  Forall plain_name ns -> Forall (fun x => sep_free x = true) ns.
Proof. intros Hf. eapply Forall_impl; [done|]. by intros x (_ & _ & _ & ?). Qed.

Lemma dots_sep_free ds :
  Forall (fun x => x = "..") ds -> Forall (fun x => sep_free x = true) ds.
Proof. intros Hf. eapply Forall_impl; [done|]. by intros x ->. Qed.

(** The first byte of a joined list is the first byte of its first
    element. *)
Lemma join_sep_head x l :
  x <> "" -> exists c t, x = String c t /\
                         exists t', join_sep (x :: l) = String c t'.
Proof.
  destruct x as [|c t]; [done|]. intros _. exists c, t. split; [done|].
  destruct l; cbn; eauto.
Qed.

Lemma join_sep_not_rooted x l :
  x <> "" -> sep_free x = true ->
  strings_HasPrefix (join_sep (x :: l)) "/" = false /\ join_sep (x :: l) <> "".
Proof.
  intros Hx Hs. destruct (join_sep_head x l Hx) as (c & t & -> & t' & ->).
  cbn in Hs. apply andb_true_iff in Hs as [Hc _]. apply negb_true_iff in Hc.
  split; [|done]. cbn [strings_HasPrefix].
  unfold is_sep in Hc. apply bool_decide_eq_false in Hc.
  by rewrite bool_decide_eq_false_2.
Qed.

(** [filepath.Clean] returns a cleaned path. *)
Lemma filepath_Clean_clean path : lexically_clean (filepath_Clean path).
Proof.
  unfold filepath_Clean. case_bool_decide; [constructor|].
  destruct (clean_fold_stack (strings_HasPrefix path "/") (split_sep path) [])
    as (ns & ds & Hout & Hns & Hds & Hr).
  { apply split_sep_sep_free. }
  { by exists [], []. }
  unfold clean_elems. rewrite Hout, rev_app_distr.
  destruct (strings_HasPrefix path "/") eqn:Hroot.
  - rewrite (Hr eq_refl). cbn. constructor. by apply Forall_rev.
  - case_bool_decide as Hb.
    + constructor.
    + apply clean_relative; [by apply Forall_rev | by apply Forall_rev |].
      intros Hnil. by rewrite Hnil in Hb.
Qed.

(** Cleaning a cleaned path changes nothing. *)
Lemma lexically_clean_fixed r : lexically_clean r -> filepath_Clean r = r.
Proof.
  intros [|ns Hns|ds ns Hds Hns Hne]; [done| |].
  - unfold filepath_Clean.
    rewrite bool_decide_eq_false_2 by done.
    change (strings_HasPrefix ("/" ++ join_sep ns) "/") with true.
    change (split_sep ("/" ++ join_sep ns)) with ("" :: split_sep (join_sep ns)).
    cbv iota. f_equal.
    change (clean_elems true ("" :: split_sep (join_sep ns)))
      with (clean_elems true (split_sep (join_sep ns))).
    destruct ns as [|n ns']; [done|].
    rewrite split_join; [|done|by apply plain_name_sep_free].
    f_equal. by apply (clean_elems_fixed true [] (n :: ns')).
  - assert (Forall (fun x => sep_free x = true) (ds ++ ns)) as Hfree.
    { apply Forall_app. split; [by apply dots_sep_free | by apply plain_name_sep_free]. }
    assert (strings_HasPrefix (join_sep (ds ++ ns)) "/" = false /\
            join_sep (ds ++ ns) <> "") as [Hrel Hnon].
    { destruct (ds ++ ns)%list as [|x l] eqn:Hl; [done|].
      inversion Hfree; subst. apply join_sep_not_rooted; [|done].
      destruct ds as [|d ds']; cbn in Hl; simplify_eq.
      - inversion Hns as [|? ? (? & _)]; by subst.
      - inversion Hds; by subst. }
    unfold filepath_Clean. rewrite bool_decide_eq_false_2 by done.
    rewrite Hrel, split_join by done.
    rewrite clean_elems_fixed by done.
    by rewrite bool_decide_eq_false_2.
Qed.

Lemma filepath_Clean_idempotent path :
  filepath_Clean (filepath_Clean path) = filepath_Clean path.
Proof. apply lexically_clean_fixed, filepath_Clean_clean. Qed.

Lemma contains_dbl_plain x : sep_free x = true -> strings_Contains x "//" = false.
Proof.
  induction x as [|c r IH]; [done|]. cbn [sep_free strings_Contains strings_HasPrefix].
  intros [Hc Hr]%andb_true_iff. apply negb_true_iff, bool_decide_eq_false in Hc.
  rewrite IH by done. by rewrite bool_decide_eq_false_2.
Qed.

Lemma contains_dbl_skip x t :
  sep_free x = true -> strings_Contains (x ++ t) "//" = strings_Contains t "//".
Proof.
  induction x as [|c r IH]; [done|].
  change (String c r ++ t) with (String c (r ++ t)).
  cbn [sep_free strings_Contains strings_HasPrefix].
  intros [Hc Hr]%andb_true_iff. apply negb_true_iff, bool_decide_eq_false in Hc.
  rewrite IH by done. by rewrite bool_decide_eq_false_2.
Qed.

Lemma contains_dbl_join l :
  Forall (fun x => x <> "" /\ sep_free x = true) l ->
  strings_Contains (join_sep l) "//" = false.
Proof.
  induction l as [|x [|y rest] IH]; intros Hl; [done| |].
  - inversion Hl as [|? ? [_ ?]]; subst. by apply contains_dbl_plain.
  - inversion Hl as [|? ? [Hx Hs] Hl']; subst.
    change (join_sep (x :: y :: rest)) with (x ++ "/" ++ join_sep (y :: rest)).
    rewrite contains_dbl_skip by done.
    change ("/" ++ join_sep (y :: rest)) with (String "/" (join_sep (y :: rest))).
    cbn [strings_Contains strings_HasPrefix]. rewrite IH by done.
    inversion Hl' as [|? ? [Hy Hsy]]; subst.
    destruct (join_sep_not_rooted y rest Hy Hsy) as [Hrel _].
    cbn [strings_HasPrefix] in Hrel.
    destruct (join_sep (y :: rest)); [done|].
    cbn [strings_HasPrefix] in Hrel |- *. by rewrite Hrel.
Qed.

Lemma clean_elems_nonempty ds ns :
  Forall (fun x => x = "..") ds -> Forall plain_name ns ->
  Forall (fun x => x <> "" /\ sep_free x = true) (ds ++ ns).
Proof.
  intros Hds Hns. apply Forall_app. split.
  - eapply Forall_impl; [done|]. by intros x ->.
  - eapply Forall_impl; [done|]. by intros x (? & _ & _ & ?).
Qed.

(** A cleaned path has no doubled separator. *)
Lemma lexically_clean_no_double_sep r :
  lexically_clean r -> strings_Contains r "//" = false.
Proof.
  intros [|ns Hns|ds ns Hds Hns Hne]; [done| |].
  - pose proof (contains_dbl_join ns (clean_elems_nonempty [] ns (Forall_nil_2 _) Hns)) as Hj.
    change ("/" ++ join_sep ns) with (String "/" (join_sep ns)).
    cbn [strings_Contains strings_HasPrefix]. rewrite Hj.
    destruct ns as [|n ns']; [done|].
    inversion Hns as [|? ? (Hn & _ & _ & Hs)]; subst.
    destruct (join_sep_not_rooted n ns' Hn Hs) as [Hrel _].
    destruct (join_sep (n :: ns')); [done|].
    cbn [strings_HasPrefix] in Hrel |- *. by rewrite Hrel.
  - by apply contains_dbl_join, clean_elems_nonempty.
Qed.

(** The elements of a cleaned path. *)
Lemma lexically_clean_elems r :
  lexically_clean r ->
  r = "." \/
  (exists ns, Forall plain_name ns /\
              (split_sep r = "" :: ns \/ split_sep r = [""; ""])) \/
  (exists ds ns, Forall (fun x => x = "..") ds /\ Forall plain_name ns /\
                 split_sep r = (ds ++ ns)%list).
Proof.
  intros [|ns Hns|ds ns Hds Hns Hne]; [by left| |].
  - right; left. exists ns. split; [done|].
    change (split_sep ("/" ++ join_sep ns)) with ("" :: split_sep (join_sep ns)).
    destruct ns as [|n ns']; [by right|left].
    f_equal. apply split_join; [done|by apply plain_name_sep_free].
  - right; right. exists ds, ns. repeat split; try done.
    apply split_join; [done|].
    eapply Forall_impl; [by apply clean_elems_nonempty|]. by intros x [_ ?].
Qed.

(** [.] is an element of a cleaned path only when the path is [.]. *)
Lemma lexically_clean_dot r :
  lexically_clean r -> "." ∈ split_sep r -> r = ".".
Proof.
  intros Hc Hin. destruct (lexically_clean_elems r Hc)
    as [?|[(ns & Hns & [Hs|Hs])|(ds & ns & Hds & Hns & Hs)]]; [done|..];
    rewrite Hs in Hin; exfalso.
  - apply elem_of_cons in Hin as [?|Hin]; [done|].
    rewrite Forall_forall in Hns. by destruct (Hns _ Hin) as (_ & ? & _).
  - apply list_elem_of_In in Hin. cbn in Hin. intuition discriminate.
  - apply elem_of_app in Hin as [Hin|Hin].
    + rewrite Forall_forall in Hds. by specialize (Hds _ Hin).
    + rewrite Forall_forall in Hns. by destruct (Hns _ Hin) as (_ & ? & _).
Qed.

(** Only [..] elements stand before a [..] element of a cleaned path: they
    all are at the beginning of a relative path. *)
Lemma lexically_clean_dotdot r i j :
  lexically_clean r -> split_sep r !! i = Some ".." -> j < i ->
  split_sep r !! j = Some "..".
Proof.
  intros Hc Hi Hj. destruct (lexically_clean_elems r Hc)
    as [->|[(ns & Hns & [Hs|Hs])|(ds & ns & Hds & Hns & Hs)]].
  - by destruct i as [|[|i]].
  - rewrite Hs in Hi. destruct i as [|i]; [done|]. cbn in Hi.
    apply list_elem_of_lookup_2 in Hi. rewrite Forall_forall in Hns.
    by destruct (Hns _ Hi) as (_ & _ & ? & _).
  - rewrite Hs in Hi. by destruct i as [|[|i]].
  - rewrite Hs in Hi |- *.
    destruct (decide (i < length ds)) as [Hlt|Hge].
    + rewrite lookup_app_l by lia.
      destruct (lookup_lt_is_Some_2 ds j) as [d Hd]; [lia|].
      rewrite Hd. f_equal. rewrite Forall_forall in Hds.
      by apply Hds, list_elem_of_lookup_2 with j.
    + rewrite lookup_app_r in Hi by lia.
      apply list_elem_of_lookup_2 in Hi. rewrite Forall_forall in Hns.
      by destruct (Hns _ Hi) as (_ & _ & ? & _).
Qed.

(** ** Environment expansion *)

Lemma os_ExpandEnv_dollar_free getenv s :
  dollar_free s = true -> os_ExpandEnv getenv s = s.
Proof.
  unfold os_ExpandEnv, os_Expand.
  induction s as [|c r IH]; [done|]. cbn [dollar_free expand_from].
  intros [Hc Hr]%andb_true_iff. apply negb_true_iff in Hc.
  rewrite Hc. cbn [andb]. by rewrite IH.
Qed.

Section Resolver.
Context {H : Host}.

Lemma ExpandPath_clean p r : ExpandPath p = Ok r -> lexically_clean r.
Proof.
  unfold ExpandPath. intros Hr.
  repeat case_match; simplify_eq; apply filepath_Clean_clean.
Qed.

(** A cleaned path without [$] that does not begin with [~] resolves to
    itself. *)
Lemma ExpandPath_fixed r :
  lexically_clean r -> dollar_free r = true ->
  strings_HasPrefix r "~" = false -> ExpandPath r = Ok r.
Proof.
  intros Hc Hd Ht. unfold ExpandPath. rewrite os_ExpandEnv_dollar_free by done.
  assert (strings_HasPrefix r "~/" = false) as ->.
  { destruct r as [|c r']; [done|]. cbn [strings_HasPrefix] in Ht |- *.
    apply andb_false_iff in Ht as [->|?]; done. }
  rewrite bool_decide_eq_false_2 by (by intros ->).
  cbn [orb]. by rewrite lexically_clean_fixed.
Qed.

(** A cleaned path that is not [~], does not begin with [~/] and is left
    as it is by the expansion of the variables resolves to itself. *)
Lemma ExpandPath_fixed_point r :
  lexically_clean r -> r <> "~" -> strings_HasPrefix r "~/" = false ->
  os_ExpandEnv os_Getenv r = r -> ExpandPath r = Ok r.
Proof.
  intros Hc Hne Ht He. unfold ExpandPath. rewrite He, Ht.
  rewrite bool_decide_eq_false_2 by done.
  cbn [orb]. by rewrite lexically_clean_fixed.
Qed.

End Resolver.

(** ** The in-memory host *)

Module MemFSFacts.
Import MemFS.

Lemma IsDir_dir name perm mtime : IsDir (node_info name (NDir perm mtime)) = true.
Proof.
  unfold IsDir, node_info, Mode. apply negb_true_iff, Z.eqb_neq. intros Hz.
  apply (f_equal (fun z => Z.testbit z 31)) in Hz.
  rewrite Z.land_spec, Z.lor_spec in Hz. by cbn in Hz.
Qed.

Lemma IsDir_file name data perm mtime :
  IsDir (node_info name (NFile data perm mtime)) = false.
Proof.
  unfold IsDir, node_info, Mode, Perm. apply negb_false_iff, Z.eqb_eq.
  rewrite <- Z.land_assoc.
  change (Z.land ModePerm ModeDir) with 0%Z. apply Z.land_0_r.
Qed.

Lemma locate_with_nodes s m p : locate (with_nodes s m) p = locate s p.
Proof. done. Qed.

Lemma app_last_ne {A : Type} (pre rest : list A) (x : A) :
  pre <> ((pre ++ rest) ++ [x])%list.
Proof.
  intros Heq. apply (f_equal length) in Heq. rewrite !length_app in Heq.
  cbn in Heq. lia.
Qed.

(** A node put into a directory is found there. *)
Lemma walk_insert_child m n x rest : forall pre perm mtime,
  walk m pre rest = inr (NDir perm mtime) ->
  walk (<[((pre ++ rest) ++ [x])%list := n]> m) pre (rest ++ [x]) = inr n.
Proof.
  induction rest as [|y rest IH]; intros pre perm mtime Hw.
  - cbn in Hw |- *. rewrite app_nil_r.
    rewrite lookup_insert_ne by (pose proof (app_last_ne pre [] x) as Hne;
                                 rewrite app_nil_r in Hne; done).
    destruct (m !! pre) as [nd|]; [|done]. simplify_eq.
    by rewrite lookup_insert_eq.
  - cbn [walk app] in Hw |- *.
    rewrite lookup_insert_ne by (symmetry; apply app_last_ne).
    destruct (m !! pre) as [[| perm' mtime']|]; [done| |done].
    replace ((pre ++ y :: rest) ++ [x])%list
      with (((pre ++ [y]) ++ rest) ++ [x])%list
      by (by rewrite <- (app_assoc pre [y] rest)).
    by eapply IH.
Qed.

Lemma walk_insert_at m k n perm mtime :
  k <> [] -> walk m [] (removelast k) = inr (NDir perm mtime) ->
  walk (<[k := n]> m) [] k = inr n.
Proof.
  intros Hk Hw. destruct (exists_last Hk) as (k' & x & ->).
  rewrite removelast_last in Hw.
  by eapply (walk_insert_child m n x k' []).
Qed.

Lemma prune_lookup_outside m K k :
  ~ K `prefix_of` k -> prune m K !! k = m !! k.
Proof.
  intros Hk. unfold prune. destruct (m !! k) as [n|] eqn:Hm.
  - by apply map_lookup_filter_Some_2.
  - apply map_lookup_filter_None_2. left. done.
Qed.

Lemma prune_lookup_inside m K k : K `prefix_of` k -> prune m K !! k = None.
Proof.
  intros Hk. unfold prune. apply map_lookup_filter_None_2. right.
  intros n _ Hn. by apply Hn.
Qed.

Lemma not_prefix_longer (pre rest : list string) :
  rest <> [] -> ~ (pre ++ rest)%list `prefix_of` pre.
Proof.
  intros Hr Hp. apply prefix_length in Hp. rewrite length_app in Hp.
  destruct rest; [done|]. cbn in Hp. lia.
Qed.

(** After pruning at a node below [pre], the walk to it ends with
    [ENOENT]. *)
Lemma walk_prune m rest : forall pre n,
  rest <> [] -> walk m pre rest = inr n ->
  walk (prune m (pre ++ rest)%list) pre rest = inl ENOENT.
Proof.
  induction rest as [|x rest IH]; intros pre n Hne Hw; [done|].
  cbn [walk] in Hw |- *.
  rewrite prune_lookup_outside by (by apply not_prefix_longer).
  destruct (m !! pre) as [[|p t]|]; [done| |done].
  replace (pre ++ x :: rest)%list with ((pre ++ [x]) ++ rest)%list
    by (by rewrite <- app_assoc).
  destruct rest as [|y rest'].
  - cbn. by rewrite app_nil_r, prune_lookup_inside.
  - by eapply IH.
Qed.

(** The message of an [ENOTEMPTY] error contains the words the tool looks
    for. *)
Lemma contains_app_r a b sub :
  strings_Contains b sub = true -> strings_Contains (a ++ b) sub = true.
Proof.
  intros Hb. induction a as [|c a IH]; [done|].
  change (String c a ++ b) with (String c (a ++ b)).
  cbn [strings_Contains]. rewrite IH. apply orb_true_r.
Qed.

Lemma ENOTEMPTY_message op p :
  strings_Contains (Error (PathError op p ENOTEMPTY)) "not empty" = true.
Proof.
  unfold PathError, Error. do 3 apply contains_app_r. done.
Qed.


(** What the host calls leave behind when they succeed. *)

Lemma writeFile_ok s q data perm s' :
  writeFile s q data perm = (s', None) ->
  q <> "" /\
  exists perm', walk (nodes s') [] (locate s' q) = inr (NFile data perm' (clock s)).
Proof.
  unfold writeFile. case_bool_decide as Hq; [done|]. intros Hw.
  split; [done|].
  destruct (locate s q) as [|x k'] eqn:Hk; [done|].
  destruct (walk (nodes s) [] (removelast (x :: k'))) as [e|[|perm0 mtime0]] eqn:Hpar;
    [done..|].
  destruct (nodes s !! (x :: k')) as [[data1 perm1 mtime1|]|] eqn:Hat;
    simplify_eq; rewrite locate_with_nodes, Hk; cbn [nodes with_nodes];
    eexists; by eapply walk_insert_at.
Qed.

Lemma mkdir_ok s q perm s' :
  mkdir s q perm = (s', None) ->
  q <> "" /\
  exists perm' mtime, walk (nodes s') [] (locate s' q) = inr (NDir perm' mtime).
Proof.
  unfold mkdir. case_bool_decide as Hq; [done|]. intros Hm.
  split; [done|].
  destruct (locate s q) as [|x k'] eqn:Hk; [done|].
  destruct (walk (nodes s) [] (removelast (x :: k'))) as [e|[|perm0 mtime0]] eqn:Hpar;
    [done..|].
  destruct (nodes s !! (x :: k')) as [n|] eqn:Hat; simplify_eq.
  rewrite locate_with_nodes, Hk. cbn [nodes with_nodes].
  eexists _, _. by eapply walk_insert_at.
Qed.

Lemma stat_dir s q perm mtime :
  q <> "" -> walk (nodes s) [] (locate s q) = inr (NDir perm mtime) ->
  exists info, stat s q = Ok info /\ IsDir info = true.
Proof.
  intros Hq Hw. unfold stat. rewrite bool_decide_eq_false_2 by done.
  rewrite Hw. eexists. split; [done|]. apply IsDir_dir.
Qed.

Lemma mkdir_checked_ok s q perm s' :
  mkdir_checked s q perm = (s', None) ->
  exists info, stat s' q = Ok info /\ IsDir info = true.
Proof.
  unfold mkdir_checked. destruct (mkdir s q perm) as [s1 [err|]] eqn:Hm.
  - destruct (stat s1 q) as [dir|e] eqn:Hs; [|done].
    destruct (IsDir dir) eqn:Hd; [|done]. intros [= <-]. by exists dir.
  - intros [= <-]. destruct (mkdir_ok _ _ _ _ Hm) as (Hq & perm' & mtime & Hw).
    by eapply stat_dir.
Qed.

Lemma mkdirAll_ok s q perm s' :
  mkdirAll s q perm = (s', None) ->
  exists info, stat s' q = Ok info /\ IsDir info = true.
Proof.
  unfold mkdirAll. generalize (String.length q) as fuel.
  intros fuel. revert s q s'.
  induction fuel as [|fuel IH]; intros s q s'; cbn [mkdirAll_from];
    destruct (stat s q) as [dir|e] eqn:Hs.
  - destruct (IsDir dir) eqn:Hd; [|done]. intros [= <-]. by exists dir.
  - apply mkdir_checked_ok.
  - destruct (IsDir dir) eqn:Hd; [|done]. intros [= <-]. by exists dir.
  - destruct (parent_text q) as [parent|]; [|apply mkdir_checked_ok].
    destruct (mkdirAll_from fuel s parent perm) as [s1 [err|]]; [done|].
    apply mkdir_checked_ok.
Qed.

Lemma stat_file s q data perm mtime :
  q <> "" -> walk (nodes s) [] (locate s q) = inr (NFile data perm mtime) ->
  (exists info, stat s q = Ok info /\ IsDir info = false) /\
  readFile s q = Ok data.
Proof.
  intros Hq Hw. unfold stat, readFile. rewrite !bool_decide_eq_false_2 by done.
  rewrite Hw. split; [|done]. eexists. split; [done|]. apply IsDir_file.
Qed.

(** A directory reported by [stat] is a directory node. *)
Lemma stat_is_dir s q info :
  stat s q = Ok info -> IsDir info = true ->
  q <> "" /\
  exists perm mtime, walk (nodes s) [] (locate s q) = inr (NDir perm mtime).
Proof.
  unfold stat. case_bool_decide as Hq; [done|].
  destruct (walk (nodes s) [] (locate s q)) as [e|[data perm mtime|perm mtime]];
    [done| |by eauto].
  intros [= <-] Hd.
  pose proof (IsDir_file (filepath_Base q) data perm mtime) as Hf.
  unfold node_info in Hf. congruence.
Qed.

(** [rmdir] of a directory that has entries. *)
Lemma remove_not_empty s q perm mtime :
  q <> "" -> last_elem q <> "." -> last_elem q <> ".." -> locate s q <> [] ->
  walk (nodes s) [] (locate s q) = inr (NDir perm mtime) ->
  has_entries (nodes s) (locate s q) = true ->
  remove s q = (s, Some (PathError "remove" q ENOTEMPTY)).
Proof.
  intros Hq Hd Hdd Hroot Hw He. unfold remove.
  rewrite !bool_decide_eq_false_2 by done.
  destruct (locate s q) as [|x k']; [done|]. by rewrite Hw, He.
Qed.

(** [RemoveAll] of a directory that is neither the root nor named by [.]
    or [..]: afterwards nothing is found at the path. *)
Lemma removeAll_ok s q n :
  q <> "" -> last_elem q <> "." -> last_elem q <> ".." -> locate s q <> [] ->
  walk (nodes s) [] (locate s q) = inr n ->
  exists s', removeAll s q = (s', None) /\
             walk (nodes s') [] (locate s' q) = inl ENOENT.
Proof.
  intros Hq Hd Hdd Hroot Hw. unfold removeAll.
  rewrite bool_decide_eq_false_2 by done.
  assert (endsWithDot q = false) as ->.
  { unfold endsWithDot. rewrite (bool_decide_eq_false_2 (last_elem q = ".")) by done.
    rewrite andb_false_l, orb_false_r. apply bool_decide_eq_false_2.
    intros ->. by apply Hd. }
  rewrite Hw, bool_decide_eq_false_2 by done.
  destruct (locate s q) as [|x k'] eqn:Hk; [done|].
  eexists. split; [done|]. rewrite locate_with_nodes, Hk.
  cbn [nodes with_nodes]. by eapply (walk_prune _ (x :: k') []).
Qed.

(** The in-memory host has what the round trips ask for. *)
Lemma WriteFile_law_MemFS getenv : WriteFile_law (MemFS.host getenv).
Proof.
  intros s s' q data perm Hw. cbn [os_WriteFile os_Stat os_ReadFile host] in *.
  destruct (writeFile_ok _ _ _ _ _ Hw) as (Hq & perm' & Hwalk).
  by eapply stat_file.
Qed.

Lemma MkdirAll_law_MemFS getenv : MkdirAll_law (MemFS.host getenv).
Proof.
  intros s s' q perm Hm. cbn [os_MkdirAll os_Stat host] in *.
  by eapply mkdirAll_ok.
Qed.

(** A path that ends in an ordinary element is not located at the
    root. *)
Lemma ends_in_name_locate s q : ends_in_name q -> locate s q <> [].
Proof.
  unfold ends_in_name, last_elem, locate. intros (Hne & Hdot & Hdotdot).
  induction (split_sep q) as [|x l _] using rev_ind; [done|].
  rewrite last_snoc in Hne, Hdot, Hdotdot. cbn [default] in *.
  rewrite fold_left_app. cbn [fold_left]. unfold locate_step at 1.
  rewrite !bool_decide_eq_false_2 by done. cbn [orb].
  cbn [rev]. intros Hnil. by apply app_eq_nil in Hnil as [_ ?].
Qed.

(** A directory for which [readDir] gives an entry has entries. *)
Lemma readDir_has_entries s q entries :
  readDir s q = Ok entries -> entries <> [] ->
  has_entries (nodes s) (locate s q) = true.
Proof.
  unfold readDir. case_bool_decide as Hq; [done|].
  destruct (walk (nodes s) [] (locate s q)) as [e|[data perm mtime|perm mtime]];
    [done|done|].
  intros [= <-] Hne.
  destruct (map_to_list
              (filter (fun kn : list string * node =>
                         locate s q `prefix_of` kn.1 /\
                         length kn.1 = S (length (locate s q)))
                      (nodes s))) as [|[k n] l] eqn:Hl.
  { by destruct Hne. }
  assert ((k, n) ∈ map_to_list
            (filter (fun kn : list string * node =>
                       locate s q `prefix_of` kn.1 /\
                       length kn.1 = S (length (locate s q)))
                    (nodes s))) as Hin
    by (rewrite Hl; left).
  apply elem_of_map_to_list, map_lookup_filter_Some in Hin
    as [Hk [Hpre Hlen]]. cbn [fst] in Hpre, Hlen.
  unfold has_entries. apply existsb_exists. exists (k, n). split.
  - by apply list_elem_of_In, elem_of_map_to_list.
  - apply bool_decide_eq_true_2. split; [done|]. cbn [fst].
    intros Heq. rewrite <- Heq in Hlen. lia.
Qed.

(** The in-memory host removes directories as the removal claims ask. *)
Lemma Remove_law_MemFS getenv : Remove_law (MemFS.host getenv).
Proof.
  intros s q info entries Hname Hst Hd Hrd Hne.
  cbn [os_Stat os_Remove os_ReadDir host] in *.
  destruct (stat_is_dir _ _ _ Hst Hd) as (Hq & perm & mtime & Hw).
  destruct Hname as (Hempty & Hdot & Hdotdot).
  exists (PathError "remove" q ENOTEMPTY). split.
  - apply (remove_not_empty s q perm mtime); try done.
    + by apply ends_in_name_locate.
    + by eapply readDir_has_entries.
  - apply ENOTEMPTY_message.
Qed.

Lemma RemoveAll_law_MemFS getenv : RemoveAll_law (MemFS.host getenv).
Proof.
  intros s q info Hname Hst Hd. cbn [os_Stat os_RemoveAll host] in *.
  destruct (stat_is_dir _ _ _ Hst Hd) as (Hq & perm & mtime & Hw).
  pose proof (ends_in_name_locate s q Hname) as Hroot.
  destruct Hname as (Hempty & Hdot & Hdotdot).
  destruct (removeAll_ok s q _ Hq Hdot Hdotdot Hroot Hw) as (s' & Hrm & Hgone).
  exists s', (PathError "stat" q ENOENT). split; [done|]. split; [|done].
  unfold stat. by rewrite bool_decide_eq_false_2, Hgone.
Qed.

End MemFSFacts.

(** ** Claims about every host *)

Section Claims.
Context {H : Host}.

(** C1.  For every operation and every input, the returned result mapping
    has, when [success] is false, exactly the fields [success] and [error]
    (the error being a string), and has no [error] field when [success] is
    true. *)
Theorem result_fields_follow_success (s : fsstate) (c : Call) :
  ((perform s c).2 !! "success" = Some (VBool false) ->
     dom (perform s c).2 = ({[ "success"; "error" ]} : gset string) /\
     exists msg, (perform s c).2 !! "error" = Some (VStr msg)) /\
  ((perform s c).2 !! "success" = Some (VBool true) ->
     (perform s c).2 !! "error" = None).
Proof.
  destruct (perform_well_shaped s c) as [Hf|[Hs He]].
  - destruct (failure_result_fields _ Hf) as (Hsf & Hmsg & Hdom).
    split; [done|]. intros Ht. rewrite Hsf in Ht. discriminate.
  - split; [|done]. intros Hf. rewrite Hs in Hf. discriminate.
Qed.

(** C10.  For every operation and every input, the returned result mapping
    contains the key [success] bound to a boolean. *)
Theorem success_field_always_boolean (s : fsstate) (c : Call) :
  exists b : bool, (perform s c).2 !! "success" = Some (VBool b).
Proof.
  destruct (perform_well_shaped s c) as [Hf|[Hs _]].
  - exists false. by destruct (failure_result_fields _ Hf) as (? & _).
  - by exists true.
Qed.

(** Every operation is reached by a call. *)
Lemma every_operation_has_a_call (op : Operation) :
  exists c, call_operation c = op.
Proof.
  destruct op;
    [ exists (CallRead "") | exists (CallWrite "" "" false)
    | exists (CallList "" false) | exists (CallExists "")
    | exists (CallStat "") | exists (CallMkdir "" false)
    | exists (CallRm "" false) | exists (CallMv "" "")
    | exists (CallCp "" "" false) ]; done.
Qed.

Lemma call_of_flags_operation op fl c :
  call_of_flags op fl = Ok c -> call_operation c = op.
Proof.
  unfold call_of_flags.
  destruct op; intros Hc;
    try (destruct (strconv_ParseBool _) as [b|e]; [|discriminate]);
    by simplify_eq.
Qed.

Lemma getBool_success r :
  well_shaped r ->
  (r !! "success" = Some (VBool true) /\ getBool r "success" = Some true) \/
  (r !! "success" = Some (VBool false) /\ getBool r "success" = Some false).
Proof.
  unfold getBool. intros [Hf|[Hs _]].
  - right. destruct (failure_result_fields _ Hf) as (-> & _). done.
  - left. by rewrite Hs.
Qed.

(** A sub-command whose flags parse makes its call, prints the result and,
    unless it is [exists], exits by [output_and_exit]. *)
Lemma RunE_call op fl s c :
  call_of_flags op fl = Ok c ->
  RunE op fl s =
    match op with
    | OpExists =>
        {| out_state := s; out_printed := [(perform s c).2]; out_exit := 0 |}
    | _ => output_and_exit (perform s c)
    end.
Proof.
  unfold call_of_flags, RunE, newReadCmd, newWriteCmd, newListCmd,
    newExistsCmd, newStatCmd, newMkdirCmd, newRmCmd, newMvCmd, newCpCmd, toBool.
  destruct op; intros Hc;
    try (destruct (strconv_ParseBool _) as [b|e]; [|discriminate]);
    by simplify_eq.
Qed.

Lemma output_and_exit_spec r :
  well_shaped r.2 ->
  out_state (output_and_exit r) = r.1 /\
  out_printed (output_and_exit r) = [r.2] /\
  (r.2 !! "success" = Some (VBool true) -> out_exit (output_and_exit r) = 0%Z) /\
  (r.2 !! "success" = Some (VBool false) -> out_exit (output_and_exit r) = 1%Z).
Proof.
  destruct r as [s r]. cbn [fst snd]. intros Hw. unfold output_and_exit.
  destruct (getBool_success r Hw) as [[Hs ->]|[Hs ->]]; cbn;
    repeat split; try done; intros Hs'; rewrite Hs in Hs'; discriminate.
Qed.

(** The exit status of the sub-commands.  Whenever a sub-command makes its
    call, it prints the result of the operation; for every operation but
    [exists] the exit status is 0 when the result has [success] true and
    non-zero when it has [success] false; [exists] exits with 0 whenever
    the check did not fail, whatever the value of [exists]. *)
Theorem exit_status_follows_success (op : Operation) (fl : Flags)
    (s : fsstate) (c : Call) :
  call_of_flags op fl = Ok c ->
  out_printed (RunE op fl s) = [(perform s c).2] /\
  (op <> OpExists ->
     ((perform s c).2 !! "success" = Some (VBool true) ->
        out_exit (RunE op fl s) = 0%Z) /\
     ((perform s c).2 !! "success" = Some (VBool false) ->
        out_exit (RunE op fl s) <> 0%Z)) /\
  (op = OpExists ->
     (perform s c).2 !! "success" = Some (VBool true) ->
     out_exit (RunE op fl s) = 0%Z).
Proof.
  intros Hc. rewrite (RunE_call op fl s c Hc).
  destruct (output_and_exit_spec (perform s c) (perform_well_shaped s c))
    as (_ & Hp & H0 & H1).
  assert (forall z : Z, z = 1%Z -> z <> 0%Z) as Hnz by (intros z ->; done).
  destruct op; repeat split; try done; auto.
Qed.

(** [exists] exits with 0 also when its result is a failure. *)
Lemma exists_always_exits_zero (fl : Flags) (s : fsstate) :
  out_exit (RunE OpExists fl s) = 0%Z.
Proof. done. Qed.


Lemma Exists_missing (s : fsstate) (path p : string) (e : error) :
  path <> "" -> ExpandPath path = Ok p -> os_Stat s p = Err e ->
  IsNotExist e = true ->
  Exists s path =
    <["path" := VStr p]>
      (<["exists" := VBool false]> {[ "success" := VBool true ]}).
Proof.
  intros Hne Hp Hs He. unfold Exists. rewrite bool_decide_eq_false_2 by done.
  rewrite Hp, Hs, He. cbn [negb]. by open_success.
Qed.

(** [Mkdir] on a path that exists: a directory is reported as already
    there, anything else is refused; the file system is not touched. *)
Lemma Mkdir_existing (s : fsstate) (path p : string) (parents : bool)
    (info : FileInfo) :
  path <> "" -> ExpandPath path = Ok p -> os_Stat s p = Ok info ->
  Mkdir s path parents =
    (s, if IsDir info then
          <["message" := VStr "directory already exists"]>
            (<["path" := VStr p]> {[ "success" := VBool true ]})
        else
          mcpError (errors_New
                      ("path exists but is not a directory: " ++ path))).
Proof.
  intros Hne Hp Hs. unfold Mkdir. rewrite bool_decide_eq_false_2 by done.
  rewrite Hp, Hs. destruct (IsDir info); [|done]. by open_success.
Qed.

(** C5 (amended).  For every non-empty path whose resolved form the host
    reports as not existing, [Exists] returns [success] true, [exists] false
    and the resolved path; and [Exists] fails exactly when the path is
    empty, the path cannot be resolved, or the existence check raises an
    error other than not-found. *)
Theorem exists_missing_path_and_failures (s : fsstate) (path : string) :
  (forall p e,
     path <> "" -> ExpandPath path = Ok p -> os_Stat s p = Err e ->
     IsNotExist e = true ->
     Exists s path =
       <["path" := VStr p]>
         (<["exists" := VBool false]> {[ "success" := VBool true ]})) /\
  (Exists s path !! "success" = Some (VBool false) <->
   Exists_failure_cause s path).
Proof.
  split; [intros p e; apply Exists_missing|].
  unfold Exists, Exists_failure_cause.
  case_bool_decide as Hpath; [by split; [left|]|].
  destruct (ExpandPath path) as [p|e]; [|by split; [right; left; eauto|]].
  destruct (os_Stat s p) as [info|e] eqn:Hs.
  - open_success. split; [intros Hx; by simplify_map_eq|].
    intros [?|[[e' ?]|(p' & e' & ? & ? & ?)]]; simplify_eq; congruence.
  - destruct (IsNotExist e) eqn:He; cbn [negb].
    + open_success. split; [intros Hx; by simplify_map_eq|].
      intros [?|[[e' ?]|(p' & e' & ? & ? & ?)]]; simplify_eq; congruence.
    + split; [|done]. intros _. right; right. by exists p, e.
Qed.

(** C7 (amended).  [Read] fails exactly when the path is empty, the path
    cannot be resolved, the host reports an error when the target is
    examined or read (not found, access denied, or any other), the target
    is a directory, or the content is not valid UTF-8; otherwise it returns
    the whole content of the file in the field [content]; and for the empty
    path the result is exactly [success] false with the error
    [path is required]. *)
Theorem read_failures_and_content (s : fsstate) (path : string) :
  (Read s path !! "success" = Some (VBool false) <->
   Read_failure_cause s path) /\
  (forall p info data,
     path <> "" -> ExpandPath path = Ok p -> os_Stat s p = Ok info ->
     IsDir info = false -> os_ReadFile s p = Ok data ->
     utf8_Valid data = true ->
     Read s path = <["content" := VStr data]> {[ "success" := VBool true ]}) /\
  Read s "" =
    <["success" := VBool false]> (<["error" := VStr "path is required"]> ∅).
Proof.
  unfold Read, Read_failure_cause. split; [|split; [|done]].
  - case_bool_decide as Hpath; [by split; [left|]|].
    destruct (ExpandPath path) as [p|e]; [|by split; [right; left; eauto|]].
    destruct (os_Stat s p) as [info|e] eqn:Hs.
    2:{ split; [|by destruct (IsNotExist e)]. intros _.
        right; right. exists p. split; [done|]. left. by exists e. }
    destruct (IsDir info) eqn:Hdir.
    { split; [|done]. intros _. right; right. exists p. split; [done|].
      right. exists info. split; [done|]. by left. }
    destruct (os_ReadFile s p) as [data|e] eqn:Hr.
    2:{ split; [|by destruct (IsPermission e)]. intros _.
        right; right. exists p. split; [done|]. right. exists info.
        split; [done|]. right; left. by exists e. }
    destruct (utf8_Valid data) eqn:Hv; cbn [negb].
    + open_success. split; [intros Hx; by simplify_map_eq|].
      intros [?|[[e ?]|(p' & ? & [[e ?]|(info' & ? & [?|[[e ?]|(d & ? & ?)]])])]];
        simplify_eq; congruence.
    + split; [|done]. intros _. right; right. exists p. split; [done|].
      right. exists info. split; [done|]. right; right. by exists data.
  - intros p info data Hne Hp Hs Hd Hr Hv.
    rewrite bool_decide_eq_false_2 by done.
    rewrite Hp, Hs, Hd, Hr, Hv. cbn [negb]. by open_success.
Qed.

Lemma octal_digit_val d :
  (0 <= d < 8)%Z -> byte_val (octal_digit d) = (48 + d)%Z.
Proof.
  intros Hd.
  assert (d = 0 \/ d = 1 \/ d = 2 \/ d = 3 \/ d = 4 \/ d = 5 \/ d = 6 \/ d = 7)%Z
    as Hc by lia.
  by repeat destruct Hc as [->|Hc]; try subst d.
Qed.

Lemma octal_value_digit d acc a :
  (0 <= d < 8)%Z ->
  octal_value_from a (String (octal_digit d) acc) =
  octal_value_from (8 * a + d) acc.
Proof.
  intros Hd. cbn [octal_value_from]. rewrite octal_digit_val by done.
  unfold in_range.
  replace (48 <=? 48 + d)%Z with true by (symmetry; apply Z.leb_le; lia).
  replace (48 + d <=? 55)%Z with true by (symmetry; apply Z.leb_le; lia).
  cbn [andb]. f_equal. lia.
Qed.

(** Reading the digits [octal_from] writes for [n] gives [n] back. *)
Lemma octal_from_value fuel : forall n acc,
  (0 <= n)%Z -> Z.to_nat n <= fuel ->
  exists k, forall a,
    octal_value_from a (octal_from fuel n acc) =
    octal_value_from (a * 8 ^ Z.of_nat (S k) + n) acc.
Proof.
  induction fuel as [|fuel IH]; intros n acc Hn Hfuel.
  - assert (n = 0%Z) as -> by lia. exists 0. intros a. cbn [octal_from].
    change (0 mod 8)%Z with 0%Z. rewrite octal_value_digit by done.
    change (8 ^ Z.of_nat 1)%Z with 8%Z. f_equal. lia.
  - cbn [octal_from]. destruct (n <? 8)%Z eqn:Hlt.
    + apply Z.ltb_lt in Hlt. exists 0. intros a.
      rewrite octal_value_digit by lia.
      change (8 ^ Z.of_nat 1)%Z with 8%Z. f_equal. lia.
    + apply Z.ltb_ge in Hlt.
      destruct (IH (n / 8)%Z (String (octal_digit (n mod 8)) acc)) as [k Hk].
      * apply Z.div_pos; lia.
      * assert (n / 8 < n)%Z by (apply Z.div_lt; lia). lia.
      * exists (S k). intros a. rewrite Hk.
        rewrite octal_value_digit by (apply Z.mod_pos_bound; lia).
        f_equal. rewrite (Z.div_mod n 8) at 3 by lia.
        replace (Z.of_nat (S (S k))) with (Z.of_nat (S k) + 1)%Z by lia.
        rewrite Z.pow_add_r, Z.pow_1_r by lia. lia.
Qed.

Lemma octal_from_nonempty fuel : forall n acc, octal_from fuel n acc <> "".
Proof.
  induction fuel as [|fuel IH]; intros n acc; cbn [octal_from]; [done|].
  by destruct (n <? 8)%Z.
Qed.

Lemma fmt_octal_value n : (0 <= n)%Z -> octal_value (fmt_octal n) = Some n.
Proof.
  intros Hn. unfold fmt_octal, octal_value.
  destruct (octal_from_value (Z.to_nat n) n "" Hn (le_n _)) as [k Hk].
  specialize (Hk 0%Z). rewrite Z.mul_0_l, Z.add_0_l in Hk.
  destruct (octal_from (Z.to_nat n) n "") eqn:Ho; [|exact Hk].
  by apply octal_from_nonempty in Ho.
Qed.

Lemma Perm_nonneg mode : (0 <= Perm mode)%Z.
Proof. unfold Perm. apply Z.land_nonneg. right. done. Qed.

(** C9.  For every existing path, [Stat] succeeds; the fields [modified],
    [accessed] and [created] of its result are all the one modification
    time the host reports, and [mode] is the octal numeral of the
    permission bits. *)
Theorem stat_times_and_mode (s : fsstate) (path p : string) (info : FileInfo) :
  path <> "" -> ExpandPath path = Ok p -> os_Stat s p = Ok info ->
  Stat s path !! "success" = Some (VBool true) /\
  Stat s path !! "modified" = Some (VInt64 (ModTime_Unix info)) /\
  Stat s path !! "accessed" = Some (VInt64 (ModTime_Unix info)) /\
  Stat s path !! "created" = Some (VInt64 (ModTime_Unix info)) /\
  (exists numeral,
     Stat s path !! "mode" = Some (VStr numeral) /\
     octal_value numeral = Some (Z.land (Mode info) 511)).
Proof.
  intros Hne Hp Hs. unfold Stat. rewrite bool_decide_eq_false_2 by done.
  rewrite Hp, Hs. open_success.
  repeat split; try (by simplify_map_eq).
  exists (fmt_octal (Perm (Mode info))). split; [by simplify_map_eq|].
  apply fmt_octal_value, Perm_nonneg.
Qed.

(** A success result of [Stat] always comes from a path the host knows. *)
Lemma stat_success_existing (s : fsstate) (path : string) :
  Stat s path !! "success" = Some (VBool true) ->
  path <> "" /\ exists p info, ExpandPath path = Ok p /\ os_Stat s p = Ok info.
Proof.
  unfold Stat. case_bool_decide; [done|].
  destruct (ExpandPath path) as [p|e]; [|done].
  destruct (os_Stat s p) as [info|e] eqn:Hs.
  - intros _. split; [done|]. by exists p, info.
  - by destruct (IsNotExist e).
Qed.

(** C2 (amended).  On a host where a file written without error is then
    found as a file and read back with the bytes written: whenever [Write]
    with [createDirs] succeeds for a path and a content that is valid
    UTF-8, a following [Read] of the same path succeeds and its [content]
    is the content written. *)
Theorem write_then_read_round_trip (s s1 : fsstate) (p c : string)
    (r : gmap string value) :
  WriteFile_law H ->
  Write s p c true = (s1, r) ->
  r !! "success" = Some (VBool true) ->
  utf8_Valid c = true ->
  Read s1 p = <["content" := VStr c]> {[ "success" := VBool true ]}.
Proof.
  unfold Write, Read. intros Hlaw Hw Hs Hv.
  case_bool_decide as Hp; [by simplify_eq|].
  case_bool_decide as Hc; [by simplify_eq|].
  destruct (ExpandPath p) as [q|e]; [|by simplify_eq].
  destruct (os_MkdirAll s (filepath_Dir q) 493) as [s0 [e|]];
    [by simplify_eq|].
  destruct (os_WriteFile s0 q c 420) as [s2 [e|]] eqn:Hwf.
  { destruct (IsPermission e); by simplify_eq. }
  simplify_eq. destruct (Hlaw _ _ _ _ _ Hwf) as [(info & -> & ->) ->].
  rewrite Hv. cbn [negb]. by open_success.
Qed.

(** C8 (amended).  On a host whose [Remove] refuses a directory that has
    entries with an error that says [not empty], changing nothing, and
    whose [RemoveAll] removes a directory so that it is not found
    afterwards (both for paths that end in an ordinary element): for every
    existing directory that has entries and whose resolved path ends in an
    ordinary element, [Rm] without [recursive] fails with an error that
    contains [not empty] and leaves the file system as it was; [Rm] with
    [recursive] succeeds, and afterwards the directory no longer exists. *)
Theorem rm_directory_with_entries (s : fsstate) (d p : string)
    (info : FileInfo) (entries : list DirEntry) :
  Remove_law H -> RemoveAll_law H ->
  d <> "" -> ExpandPath d = Ok p -> ends_in_name p ->
  os_Stat s p = Ok info -> IsDir info = true ->
  os_ReadDir s p = Ok entries -> entries <> [] ->
  (exists msg,
     Rm s d false =
       (s, <["success" := VBool false]> (<["error" := VStr msg]> ∅)) /\
     strings_Contains msg "not empty" = true) /\
  (exists s1,
     Rm s d true =
       (s1, <["path" := VStr p]> {[ "success" := VBool true ]}) /\
     Exists s1 d =
       <["path" := VStr p]>
         (<["exists" := VBool false]> {[ "success" := VBool true ]})).
Proof.
  intros Hremove Hremoveall Hne Hp Hname Hst Hd Hrd Hent. split.
  - destruct (Hremove s p info entries) as (err & Hrm & Hmsg); try done.
    exists ("directory not empty: " ++ d ++ ". use recursive=true").
    split; [|done].
    unfold Rm. rewrite bool_decide_eq_false_2 by done.
    by rewrite Hp, Hst, Hd, Hrm, Hmsg.
  - destruct (Hremoveall s p info) as (s1 & e & Hrm & Hgone & He); try done.
    exists s1. split.
    + unfold Rm. rewrite bool_decide_eq_false_2 by done.
      rewrite Hp, Hst, Hd, Hrm. by open_success.
    + by apply (Exists_missing s1 d p e).
Qed.

(** On a host where made directories are found, a successful [Mkdir] with
    [parents] is followed by one that reports the directory as already
    there. *)
Lemma Mkdir_twice (s s1 : fsstate) (path : string) (r1 : gmap string value) :
  MkdirAll_law H ->
  Mkdir s path true = (s1, r1) ->
  r1 !! "success" = Some (VBool true) ->
  exists p,
    ExpandPath path = Ok p /\
    Mkdir s1 path true =
      (s1, <["message" := VStr "directory already exists"]>
             (<["path" := VStr p]> {[ "success" := VBool true ]})).
Proof.
  intros Hlaw Hm Hs.
  assert (path <> "") as Hne.
  { intros ->. unfold Mkdir in Hm.
    rewrite bool_decide_eq_true_2 in Hm by done. by simplify_eq. }
  destruct (ExpandPath path) as [p|e] eqn:Hp.
  2:{ unfold Mkdir in Hm. rewrite bool_decide_eq_false_2, Hp in Hm by done.
      by simplify_eq. }
  exists p. split; [done|].
  destruct (os_Stat s p) as [info|e] eqn:Hst.
  - rewrite (Mkdir_existing s path p true info) in Hm by done.
    destruct (IsDir info) eqn:Hd; [|by simplify_eq]. simplify_eq.
    rewrite (Mkdir_existing s1 path p true info) by done.
    by rewrite Hd.
  - unfold Mkdir in Hm. rewrite bool_decide_eq_false_2, Hp, Hst in Hm by done.
    destruct (os_MkdirAll s p 493) as [s' [e'|]] eqn:Hall.
    { destruct (IsPermission e'); by simplify_eq. }
    simplify_eq. destruct (Hlaw _ _ _ _ Hall) as (info & Hst1 & Hd).
    rewrite (Mkdir_existing s1 path p true info) by done.
    by rewrite Hd.
Qed.

End Claims.

(** ** Claims about the path resolver *)

(** C3 (amended).  Every successfully resolved path is lexically cleaned:
    cleaning it again changes nothing, it has no doubled separator, [.] is
    one of its elements only when it is [.] itself, and [..] elements stand
    only at the beginning of a relative path; and a resolved path that is
    not [~], does not begin with [~/] and is left as it is by the expansion
    of the environment variables resolves to itself. *)
Theorem resolved_paths_are_clean {H : Host} (p r : string) :
  ExpandPath p = Ok r ->
  filepath_Clean r = r /\
  strings_Contains r "//" = false /\
  ("." ∈ split_sep r -> r = ".") /\
  (forall i j : nat,
     split_sep r !! i = Some ".." -> j < i -> split_sep r !! j = Some "..") /\
  (r <> "~" -> strings_HasPrefix r "~/" = false ->
   os_ExpandEnv os_Getenv r = r -> ExpandPath r = Ok r).
Proof.
  intros Hr. pose proof (ExpandPath_clean p r Hr) as Hc.
  split; [by apply lexically_clean_fixed|].
  split; [by apply lexically_clean_no_double_sep|].
  split; [by apply lexically_clean_dot|].
  split; [intros i j; by apply lexically_clean_dotdot|].
  by apply ExpandPath_fixed_point.
Qed.

(** ** Claims about the operations on the in-memory host *)

Section OnMemFS.
Import MemFS MemFSFacts.
Variable getenv : string -> string.

(** C6 (amended).  If the resolved path exists and is a directory, [Mkdir]
    succeeds with the message [directory already exists] and changes
    nothing; if it exists and is not a directory, [Mkdir] fails; and
    whenever [Mkdir] with [parents] succeeds, calling it again on the same
    path succeeds too, returning that message. *)
Theorem mkdir_idempotent_on_directories (s : state) (path : string) :
  (forall parents p info,
     path <> "" -> ExpandPath (H := MemFS.host getenv) path = Ok p ->
     stat s p = Ok info -> IsDir info = true ->
     Mkdir (H := MemFS.host getenv) s path parents =
       (s, <["message" := VStr "directory already exists"]>
             (<["path" := VStr p]> {[ "success" := VBool true ]}))) /\
  (forall parents p info,
     path <> "" -> ExpandPath (H := MemFS.host getenv) path = Ok p ->
     stat s p = Ok info -> IsDir info = false ->
     (Mkdir (H := MemFS.host getenv) s path parents).2 !! "success" =
       Some (VBool false)) /\
  (forall s1 r1,
     Mkdir (H := MemFS.host getenv) s path true = (s1, r1) ->
     r1 !! "success" = Some (VBool true) ->
     exists p,
       ExpandPath (H := MemFS.host getenv) path = Ok p /\
       Mkdir (H := MemFS.host getenv) s1 path true =
         (s1, <["message" := VStr "directory already exists"]>
                (<["path" := VStr p]> {[ "success" := VBool true ]}))).
Proof.
  split; [|split].
  - intros parents p info Hne Hp Hs Hd.
    rewrite (Mkdir_existing (H := MemFS.host getenv) s path p parents info)
      by done.
    by rewrite Hd.
  - intros parents p info Hne Hp Hs Hd.
    rewrite (Mkdir_existing (H := MemFS.host getenv) s path p parents info)
      by done.
    by rewrite Hd.
  - intros s1 r1.
    apply (Mkdir_twice (H := MemFS.host getenv)), MkdirAll_law_MemFS.
Qed.

End OnMemFS.

(** ** The claims at concrete inputs *)

(** Settles a closed statement by evaluating both sides. *)
Ltac by_evaluation :=
  cbv zeta; repeat split;
  first [ vm_compute; reflexivity | vm_compute; discriminate ].

Section Concrete.
Import MemFS.

(** The scenarios of the specification on the sample file system. *)

Example scenario_read_empty_path :
  Read (H := host_home) fs_sample "" =
    <["success" := VBool false]> (<["error" := VStr "path is required"]> ∅).
Proof. reflexivity. Qed.

Example scenario_write_creates_directories :
  let w := Write (H := host_home) fs_sample "/tmp/x/y.txt" "hi" true in
  w.2 = <["path" := VStr "/tmp/x/y.txt"]> {[ "success" := VBool true ]} /\
  nodes w.1 !! ["tmp"; "x"] = Some (NDir 493 100) /\
  nodes w.1 !! ["tmp"; "x"; "y.txt"] = Some (NFile "hi" 420 100).
Proof. by_evaluation. Qed.

Example scenario_list_counts_entries :
  List (H := host_home) fs_sample "/" false !! "count" = Some (VInt 2) /\
  List (H := host_home) fs_sample "/" true !! "count" = Some (VInt 5).
Proof. by_evaluation. Qed.

Example scenario_stat_file_of_size_5 :
  Stat (H := host_home) fs_sample "/tmp/f" !! "size" = Some (VInt64 5) /\
  Stat (H := host_home) fs_sample "/tmp/f" !! "is_file" = Some (VBool true) /\
  Stat (H := host_home) fs_sample "/tmp/f" !! "is_dir" = Some (VBool false) /\
  Stat (H := host_home) fs_sample "/tmp/f" !! "mode" = Some (VStr "644").
Proof. by_evaluation. Qed.

Example scenario_cp_directory_without_recursive :
  (Cp (H := host_home) fs_sample "/tmp" "/t2" false).2 =
    <["success" := VBool false]>
      (<["error" := VStr "source is a directory. use recursive=true"]> ∅).
Proof. by_evaluation. Qed.

Example scenario_cp_then_mv :
  let c := Cp (H := host_home) fs_sample "/tmp/f" "/tmp/g" false in
  let m := Mv (H := host_home) c.1 "/tmp/g" "/home/h" in
  Read (H := host_home) m.1 "/home/h" = Read (H := host_home) m.1 "/tmp/f" /\
  Exists (H := host_home) m.1 "/tmp/g" !! "exists" = Some (VBool false).
Proof. by_evaluation. Qed.

(** C1 at the empty path: the failure result of [Read] has exactly the two
    fields. *)
Lemma result_fields_follow_success_witness :
  dom (Read (H := host_home) fs_sample "") =
    ({[ "success"; "error" ]} : gset string).
Proof.
  destruct (result_fields_follow_success (H := host_home) fs_sample
              (CallRead "")) as [Hf _].
  apply Hf. reflexivity.
Defined.

(** The exit status at [read] with an empty path: it is not 0. *)
Lemma exit_status_follows_success_witness :
  out_exit (RunE (H := host_home) OpRead (flags_path "") fs_sample) <> 0%Z.
Proof.
  destruct (exit_status_follows_success (H := host_home) OpRead
              (flags_path "") fs_sample (CallRead "")) as (_ & Hop & _).
  - reflexivity.
  - destruct Hop as [_ Hfail]; [discriminate|]. apply Hfail. reflexivity.
Defined.

(** C4.  The claim fails on the code where the check of [exists] itself
    fails.  With an empty path, and with the path [~] when no home
    directory is known, [exists] prints a failure result and ends with
    status 0, where the claim asks for a status other than 0; [read], with
    the same flags, prints the same failure and ends with status 1. *)
Theorem exists_exits_zero_on_failed_check :
  out_printed (RunE (H := host_home) OpExists (flags_path "") fs_sample) =
    [mcpError (errors_New "path is required")] /\
  out_exit (RunE (H := host_home) OpExists (flags_path "") fs_sample) = 0%Z /\
  out_printed (RunE (H := host_no_home) OpExists (flags_path "~") fs_sample) =
    [mcpError (errors_New
       "failed to get home directory: $HOME is not defined")] /\
  out_exit (RunE (H := host_no_home) OpExists (flags_path "~") fs_sample) =
    0%Z /\
  out_printed (RunE (H := host_home) OpRead (flags_path "") fs_sample) =
    [mcpError (errors_New "path is required")] /\
  out_exit (RunE (H := host_home) OpRead (flags_path "") fs_sample) = 1%Z.
Proof. by_evaluation. Qed.

(** C5 at a missing path of the sample file system. *)
Lemma exists_missing_path_and_failures_witness :
  Exists (H := host_home) fs_sample "/nope" =
    <["path" := VStr "/nope"]>
      (<["exists" := VBool false]> {[ "success" := VBool true ]}).
Proof.
  destruct (exists_missing_path_and_failures (H := host_home) fs_sample "/nope")
    as [Hmiss _].
  apply (Hmiss "/nope" (PathError "stat" "/nope" ENOENT));
    [discriminate | reflexivity | reflexivity | reflexivity].
Defined.

(** C5 as stated fails: without a home directory [Exists] fails for the
    non-empty path [~], although no existence check raised an error (none
    was made). *)
Lemma exists_fails_when_home_is_unknown :
  ExpandPath (H := host_no_home) "~" =
    Err (errors_New "failed to get home directory: $HOME is not defined") /\
  Exists (H := host_no_home) fs_sample "~" =
    <["success" := VBool false]>
      (<["error" :=
           VStr "failed to get home directory: $HOME is not defined"]> ∅).
Proof. split; reflexivity. Qed.

(** C7 at the file [/tmp/f] of the sample file system. *)
Lemma read_failures_and_content_witness :
  Read (H := host_home) fs_sample "/tmp/f" =
    <["content" := VStr "hello"]> {[ "success" := VBool true ]}.
Proof.
  destruct (read_failures_and_content (H := host_home) fs_sample "/tmp/f")
    as (_ & Hok & _).
  apply (Hok "/tmp/f" (node_info "f" (NFile "hello" 420 7)));
    [discriminate | reflexivity..].
Defined.

(** C7 as stated fails: without a home directory [Read] fails for the
    non-empty path [~]; no target was examined, so it is neither missing,
    nor a directory, nor badly encoded, nor denied. *)
Lemma read_fails_when_home_is_unknown :
  ExpandPath (H := host_no_home) "~" =
    Err (errors_New "failed to get home directory: $HOME is not defined") /\
  Read (H := host_no_home) fs_sample "~" =
    <["success" := VBool false]>
      (<["error" :=
           VStr "failed to get home directory: $HOME is not defined"]> ∅).
Proof. split; reflexivity. Qed.

(** C9 at the file [/tmp/f]: the three times are its modification time 7
    and the mode is [644]. *)
Lemma stat_times_and_mode_witness :
  Stat (H := host_home) fs_sample "/tmp/f" !! "modified" = Some (VInt64 7) /\
  Stat (H := host_home) fs_sample "/tmp/f" !! "accessed" = Some (VInt64 7) /\
  Stat (H := host_home) fs_sample "/tmp/f" !! "created" = Some (VInt64 7).
Proof.
  destruct (stat_times_and_mode (H := host_home) fs_sample "/tmp/f" "/tmp/f"
              (node_info "f" (NFile "hello" 420 7)))
    as (_ & Hm & Ha & Hc & _); [discriminate | reflexivity | reflexivity |].
  done.
Defined.

(** C3 at [./~user//a$]: the result [~user/a$] begins with [~] and ends
    in [$], and it resolves to itself. *)
Lemma resolved_paths_are_clean_witness :
  ExpandPath (H := host_home) "~user/a$" = Ok "~user/a$".
Proof.
  destruct (resolved_paths_are_clean (H := host_home) "./~user//a$"
              "~user/a$") as (_ & _ & _ & _ & Hfix); [reflexivity|].
  apply Hfix; [discriminate|reflexivity|reflexivity].
Defined.

(** C3 as stated fails.  [./~] resolves to [~], which resolves to the home
    directory, and [./~/x] resolves to [~/x], which resolves below the home
    directory; where the variable [LINK] holds the text [$HOME], [$LINK]
    resolves to [$HOME], which resolves to the home directory; and the
    resolved path [../x] keeps its [..] element. *)
Lemma resolution_is_not_idempotent :
  ExpandPath (H := host_home) "./~" = Ok "~" /\
  ExpandPath (H := host_home) "~" = Ok "/home/u" /\
  ExpandPath (H := host_home) "~" <> Ok "~" /\
  ExpandPath (H := host_home) "./~/x" = Ok "~/x" /\
  ExpandPath (H := host_home) "~/x" = Ok "/home/u/x" /\
  ExpandPath (H := host_nested) "$LINK" = Ok "$HOME" /\
  ExpandPath (H := host_nested) "$HOME" = Ok "/home/u" /\
  ExpandPath (H := host_home) "../x" = Ok "../x" /\
  split_sep "../x" = [".."; "x"].
Proof. by_evaluation. Qed.

(** C2 at [/tmp/x/y.txt] and the content [hi], on the in-memory host. *)
Lemma write_then_read_round_trip_witness :
  Read (H := host_home)
       (Write (H := host_home) fs_sample "/tmp/x/y.txt" "hi" true).1
       "/tmp/x/y.txt" =
    <["content" := VStr "hi"]> {[ "success" := VBool true ]}.
Proof.
  apply (write_then_read_round_trip (H := host_home) fs_sample _
           "/tmp/x/y.txt" "hi"
           (Write (H := host_home) fs_sample "/tmp/x/y.txt" "hi" true).2).
  - apply MemFSFacts.WriteFile_law_MemFS.
  - apply surjective_pairing.
  - vm_compute. reflexivity.
  - reflexivity.
Defined.

(** C2 as stated fails: the one byte [0xFF] is a non-empty content that
    [Write] stores and [Read] then refuses; and for the path [/], a
    directory, [Write] itself fails and so does [Read]. *)
Lemma write_read_refuses_invalid_utf8 :
  let c := String "255"%char "" in
  let w := Write (H := host_home) fs_bare "/f" c true in
  let w' := Write (H := host_home) fs_bare "/" "hi" true in
  c <> "" /\
  w.2 = <["path" := VStr "/f"]> {[ "success" := VBool true ]} /\
  Read (H := host_home) w.1 "/f" =
    <["success" := VBool false]>
      (<["error" := VStr "file is not valid UTF-8: /f"]> ∅) /\
  w'.2 =
    <["success" := VBool false]>
      (<["error" := VStr "open /: is a directory"]> ∅) /\
  Read (H := host_home) w'.1 "/" =
    <["success" := VBool false]>
      (<["error" := VStr "path is not a file: /"]> ∅).
Proof. by_evaluation. Qed.

(** C6 at [/a/b] on the bare file system. *)
Lemma mkdir_idempotent_on_directories_witness :
  exists p,
    ExpandPath (H := host_home) "/a/b" = Ok p /\
    Mkdir (H := host_home)
          (Mkdir (H := host_home) fs_bare "/a/b" true).1 "/a/b" true =
      ((Mkdir (H := host_home) fs_bare "/a/b" true).1,
       <["message" := VStr "directory already exists"]>
         (<["path" := VStr p]> {[ "success" := VBool true ]})).
Proof.
  destruct (mkdir_idempotent_on_directories (env_home "/home/u") fs_bare "/a/b")
    as (_ & _ & Htwice).
  apply (Htwice _ (Mkdir (H := host_home) fs_bare "/a/b" true).2).
  - apply surjective_pairing.
  - vm_compute. reflexivity.
Defined.

(** C6 as stated fails: [/tmp/f/x] does not exist, and [Mkdir] with
    [parents] fails on it, because [/tmp/f] is a file. *)
Lemma mkdir_parents_fails_below_a_file :
  nodes fs_sample !! ["tmp"; "f"; "x"] = None /\
  (Mkdir (H := host_home) fs_sample "/tmp/f/x" true).2 =
    <["success" := VBool false]>
      (<["error" := VStr "mkdir /tmp/f: not a directory"]> ∅).
Proof. by_evaluation. Qed.

(** C8 at the directory [/tmp] of the sample file system, on the in-memory
    host. *)
Lemma rm_directory_with_entries_witness :
  (exists msg,
     Rm (H := host_home) fs_sample "/tmp" false =
       (fs_sample,
        <["success" := VBool false]> (<["error" := VStr msg]> ∅)) /\
     strings_Contains msg "not empty" = true) /\
  (exists s1,
     Rm (H := host_home) fs_sample "/tmp" true =
       (s1, <["path" := VStr "/tmp"]> {[ "success" := VBool true ]}) /\
     Exists (H := host_home) s1 "/tmp" =
       <["path" := VStr "/tmp"]>
         (<["exists" := VBool false]> {[ "success" := VBool true ]})).
Proof.
  eapply (rm_directory_with_entries (H := host_home) fs_sample "/tmp" "/tmp"
            (node_info "tmp" (NDir 493 0))).
  - apply MemFSFacts.Remove_law_MemFS.
  - apply MemFSFacts.RemoveAll_law_MemFS.
  - discriminate.
  - reflexivity.
  - repeat split; vm_compute; discriminate.
  - reflexivity.
  - reflexivity.
  - vm_compute. reflexivity.
  - discriminate.
Defined.

(** C8 as stated fails.  The root is an existing directory with entries;
    [Rm] without [recursive] fails on it with an error that does not
    contain [not empty], [Rm] with [recursive] fails too, and the root
    still exists afterwards.  The same holds for the working directory
    named as [.]. *)
Lemma rm_cannot_remove_the_root :
  Stat (H := host_home) fs_sample "/" !! "is_dir" = Some (VBool true) /\
  has_entries (nodes fs_sample) (locate fs_sample "/") = true /\
  (Rm (H := host_home) fs_sample "/" false).2 =
    <["success" := VBool false]>
      (<["error" := VStr "remove /: device or resource busy"]> ∅) /\
  strings_Contains "remove /: device or resource busy" "not empty" = false /\
  (Rm (H := host_home) fs_sample "/" true).2 !! "success" =
    Some (VBool false) /\
  Exists (H := host_home) (Rm (H := host_home) fs_sample "/" true).1 "/"
    !! "exists" = Some (VBool true) /\
  Stat (H := host_home) fs_sample "." !! "is_dir" = Some (VBool true) /\
  has_entries (nodes fs_sample) (locate fs_sample ".") = true /\
  Rm (H := host_home) fs_sample "." false =
    (fs_sample,
     <["success" := VBool false]>
       (<["error" := VStr "remove .: invalid argument"]> ∅)) /\
  Rm (H := host_home) fs_sample "." true =
    (fs_sample,
     <["success" := VBool false]>
       (<["error" := VStr "RemoveAll .: invalid argument"]> ∅)).
Proof. by_evaluation. Qed.

End Concrete.

(** * Further properties of the code *)

(** ** [mcpSuccess] *)

Lemma string_names_even nvs :
  string_names nvs = true -> exists k, length nvs = k * 2.
Proof.
  induction nvs as [nvs IH] using (induction_ltof1 _ (@length _)).
  destruct nvs as [|[| name | | |] [|v rest]]; try done.
  - by exists 0.
  - cbn [string_names]. intros Hp.
    destruct (IH rest) as [k Hk]; [unfold ltof; cbn; lia|done|].
    exists (S k). cbn. lia.
Qed.

Lemma mcpSuccess_pairs_lookup name nvs : forall i r,
  string_names nvs = true ->
  mcpSuccess_pairs i nvs r !! name =
    match last_binding name nvs with
    | Some v => Some v
    | None => r !! name
    end.
Proof.
  induction nvs as [nvs IH] using (induction_ltof1 _ (@length _)).
  intros i r Hn. destruct nvs as [|[| n | | |] [|v rest]]; try done.
  cbn [string_names] in Hn. cbn [mcpSuccess_pairs last_binding].
  rewrite IH by (done || (unfold ltof; cbn; lia)).
  destruct (last_binding name rest) as [w|]; [done|].
  case_bool_decide as Hname.
  - subst n. by rewrite lookup_insert_eq.
  - by rewrite lookup_insert_ne.
Qed.

(** X1.  When every name is a string, the field [name] of the result of
    [mcpSuccess] is the value of the last pair with that name; without such
    a pair only [success] is present, and it is true.  So a later pair
    overrides an earlier one, and a pair named [success] overrides the
    flag. *)
Theorem mcpSuccess_last_pair_wins (nameValuePairs : list value) (name : string) :
  string_names nameValuePairs = true ->
  mcpSuccess nameValuePairs !! name =
    match last_binding name nameValuePairs with
    | Some v => Some v
    | None => if bool_decide (name = "success") then Some (VBool true) else None
    end.
Proof.
  intros Hn. unfold mcpSuccess.
  destruct (string_names_even _ Hn) as [k ->].
  rewrite Nat.Div0.mod_mul. cbn [Nat.eqb negb].
  rewrite mcpSuccess_pairs_lookup by done.
  destruct (last_binding name nameValuePairs); [done|].
  case_bool_decide as Hs.
  - subst name. by rewrite lookup_singleton_eq.
  - by rewrite lookup_singleton_ne.
Qed.

Lemma mcpSuccess_pairs_bad_name pre : forall i r other v rest,
  string_names pre = true -> is_VStr other = false ->
  mcpSuccess_pairs i (pre ++ other :: v :: rest) r =
    mcpError (errors_New ("name at index " ++ pretty (i + length pre) ++
                          " must be a string, got " ++ go_type_name other)).
Proof.
  induction pre as [pre IH] using (induction_ltof1 _ (@length _)).
  intros i r other v rest Hn Ho.
  destruct pre as [|[| n | | |] [|w pre']]; try done.
  - cbn [app length]. rewrite Nat.add_0_r. by destruct other.
  - cbn [string_names] in Hn. cbn [app mcpSuccess_pairs].
    rewrite IH by (done || (unfold ltof; cbn; lia)).
    cbn [length]. by replace (i + 2 + length pre') with (i + S (S (length pre')))
      by lia.
Qed.

(** X2.  [mcpSuccess] turns a malformed list into a failure result: an odd
    number of elements is reported as such, whatever the elements are; in a
    list of even length, the first name that is not a string is reported
    with its index and its type, and the pairs before it are dropped. *)
Theorem mcpSuccess_rejects_malformed (nameValuePairs : list value) :
  (length nameValuePairs mod 2 = 1 ->
   mcpSuccess nameValuePairs =
     mcpError (errors_New "odd number of name-value pairs")) /\
  (forall pre other v rest,
     nameValuePairs = (pre ++ other :: v :: rest)%list ->
     length nameValuePairs mod 2 = 0 ->
     string_names pre = true -> is_VStr other = false ->
     mcpSuccess nameValuePairs =
       mcpError (errors_New ("name at index " ++ pretty (length pre) ++
                             " must be a string, got " ++
                             go_type_name other))).
Proof.
  unfold mcpSuccess. split.
  - by intros ->.
  - intros pre other v rest -> -> Hn Ho. cbn [Nat.eqb negb].
    by rewrite mcpSuccess_pairs_bad_name.
Qed.

(** ** [ExpandPath] *)

Lemma lexically_clean_nonempty r : lexically_clean r -> r <> "".
Proof.
  intros [|ns Hns|ds ns Hds Hns Hne]; [done|done|].
  pose proof (clean_elems_nonempty ds ns Hds Hns) as Hall.
  destruct (ds ++ ns)%list as [|x l]; [done|].
  inversion Hall as [|? ? [Hx Hs]]; subst.
  by destruct (join_sep_not_rooted x l Hx Hs).
Qed.

Lemma strings_Replace1_head (c : ascii) (s new : string) :
  strings_Replace1 (String c s) (String c "") new = new ++ s.
Proof.
  cbn [strings_Replace1 strings_HasPrefix]. by rewrite bool_decide_eq_true_2.
Qed.

Section ResolverFacts.
Context {H : Host}.

(** [ExpandPath] by cases. *)
Lemma ExpandPath_cases (p : string) :
  ExpandPath p =
    let q := os_ExpandEnv os_Getenv p in
    if strings_HasPrefix q "~/" || bool_decide (q = "~") then
      if bool_decide (os_Getenv "HOME" = "") then
        Err (errors_New
               "failed to get home directory: $HOME is not defined")
      else
        Ok (filepath_Clean
              (if bool_decide (q = "~") then os_Getenv "HOME"
               else strings_Replace1 q "~" (os_Getenv "HOME")))
    else Ok (filepath_Clean q).
Proof.
  unfold ExpandPath, os_UserHomeDir. cbv zeta.
  destruct (strings_HasPrefix (os_ExpandEnv os_Getenv p) "~/"
            || bool_decide (os_ExpandEnv os_Getenv p = "~")); [|done].
  case_bool_decide; [done|]. by case_bool_decide.
Qed.

(** X3.  [ExpandPath] fails exactly when, after the expansion of the
    variables, the path is [~] or begins with [~/] while [$HOME] is empty
    or unset; the error then says that the home directory is not
    defined. *)
Theorem ExpandPath_fails_exactly_without_home (p : string) :
  ((exists err, ExpandPath p = Err err) <->
   os_Getenv "HOME" = "" /\
   (os_ExpandEnv os_Getenv p = "~" \/
    strings_HasPrefix (os_ExpandEnv os_Getenv p) "~/" = true)) /\
  (forall err,
     ExpandPath p = Err err ->
     Error err = "failed to get home directory: $HOME is not defined").
Proof.
  rewrite ExpandPath_cases. cbv zeta.
  destruct (strings_HasPrefix (os_ExpandEnv os_Getenv p) "~/") eqn:Hpre;
    cbn [orb].
  - case_bool_decide as Hhome.
    + split; [|intros err ?; simplify_eq; reflexivity].
      split; [by auto|by eauto].
    + split; [|done]. split; [by intros [err ?]|by intros [? _]].
  - case_bool_decide as Htilde.
    + case_bool_decide as Hhome.
      * split; [|intros err ?; simplify_eq; reflexivity].
        split; [by auto|by eauto].
      * split; [|done]. split; [by intros [err ?]|by intros [? _]].
    + split; [|done]. split; [by intros [err ?]|].
      by intros [_ [?|?]].
Qed.

(** X4.  A resolved path is never empty: when the expansion of the
    variables leaves nothing, as for a path that is one unset variable, the
    path resolves to the working directory [.]. *)
Theorem ExpandPath_never_empty (p r : string) :
  ExpandPath p = Ok r ->
  r <> "" /\ (os_ExpandEnv os_Getenv p = "" -> r = ".").
Proof.
  intros Hr. split.
  - by eapply lexically_clean_nonempty, ExpandPath_clean.
  - intros He. rewrite ExpandPath_cases in Hr. cbv zeta in Hr.
    rewrite He in Hr. cbn [strings_HasPrefix orb] in Hr.
    rewrite bool_decide_eq_false_2 in Hr by done.
    unfold filepath_Clean in Hr. rewrite bool_decide_eq_true_2 in Hr by done.
    by simplify_eq.
Qed.

(** X5.  For a path without [$]: [~/rest] resolves to the cleaned
    [home/rest], in which only the leading [~] is replaced; a path that
    does not begin with [~/] and is not [~], such as [~user/x], is only
    cleaned, whatever the home directory is. *)
Theorem ExpandPath_tilde_only_in_front (p : string) :
  dollar_free p = true ->
  (forall rest home,
     p = "~/" ++ rest -> os_Getenv "HOME" = home -> home <> "" ->
     ExpandPath p = Ok (filepath_Clean (home ++ "/" ++ rest))) /\
  (p <> "~" -> strings_HasPrefix p "~/" = false ->
   ExpandPath p = Ok (filepath_Clean p)).
Proof.
  intros Hd. unfold ExpandPath. rewrite os_ExpandEnv_dollar_free by done.
  split.
  - intros rest home -> Hh Hne. unfold os_UserHomeDir. rewrite Hh.
    rewrite bool_decide_eq_false_2 by done.
    change (strings_HasPrefix ("~/" ++ rest) "~/") with true.
    cbn [orb]. rewrite bool_decide_eq_false_2 by done.
    change ("~/" ++ rest) with (String "~" ("/" ++ rest)).
    by rewrite strings_Replace1_head.
  - intros Hne Hpre. rewrite Hpre, bool_decide_eq_false_2 by done. done.
Qed.

(** ** Required arguments *)

(** X6.  Every operation looks at its required arguments first, in a fixed
    order ([path] before [content], [source] before [dest]): when one is
    empty the result is the failure [<name> is required] for the first
    empty one, and the file system is not touched. *)
Theorem missing_argument_is_reported (s : fsstate) (c : Call) (name : string) :
  missing_argument c = Some name ->
  perform s c = (s, mcpError (errors_New (name ++ " is required"))).
Proof.
  destruct c; cbn [missing_argument perform]; unfold Read, Write, List,
    Exists, Stat, Mkdir, Rm, Mv, Cp; cbn [filter list_filter];
    repeat case_decide; cbn [head fmap option_fmap option_map fst];
    intros Hm; simplify_eq;
    rewrite ?bool_decide_eq_true_2 by done;
    rewrite ?bool_decide_eq_false_2 by done;
    rewrite ?bool_decide_eq_true_2 by done; done.
Qed.

End ResolverFacts.

(** ** [List] *)

Lemma item_fields_entry (a b c : value) :
  dom (<["type" := a]> (<["name" := b]> (<["path" := c]>
         (∅ : gmap string value)))) = item_fields false.
Proof. rewrite !dom_insert_L, dom_empty_L. unfold item_fields. set_solver. Qed.

Lemma item_fields_visit (a b c d : value) :
  dom (<["relative" := a]> (<["type" := b]> (<["name" := c]>
         (<["path" := d]> (∅ : gmap string value))))) = item_fields true.
Proof. rewrite !dom_insert_L, dom_empty_L. unfold item_fields. set_solver. Qed.

Section Listing.
Context {H : Host}.

(** What the loop over the directory entries appends. *)
Lemma List_entries_appends p entries : forall acc items,
  List_entries p entries acc = Ok items ->
  exists new,
    items = (acc ++ new)%list /\
    Forall (fun it => dom it = item_fields false) new /\
    map (fun it : gmap string value => it !! "name") new =
      map (fun e => Some (VStr (de_Name e))) entries /\
    map (fun it : gmap string value => it !! "path") new =
      map (fun e => Some (VStr (filepath_Join [p; de_Name e]))) entries.
Proof.
  induction entries as [|e entries IH]; intros acc items Hl; cbn in Hl.
  - exists []. simplify_eq. by rewrite app_nil_r.
  - destruct (de_Info e) as [info|err]; [|done].
    destruct (IH _ _ Hl) as (new & -> & Hdom & Hname & Hpath).
    eexists (_ :: new). rewrite <- app_assoc. split; [done|].
    split; [constructor; [apply item_fields_entry|done]|].
    cbn [map]. rewrite Hname, Hpath. split; f_equal.
Qed.

(** What the function given to the walk appends. *)
Lemma List_walk_appends p visits : forall acc items,
  List_walk p visits acc = Ok items ->
  Forall (fun v => walkErr v = None) visits /\
  exists new,
    items = (acc ++ new)%list /\
    Forall (fun it => dom it = item_fields true) new /\
    map (fun it : gmap string value => it !! "path") new =
      map (fun v => Some (VStr (walkPath v)))
          (filter (fun v => walkPath v <> p) visits).
Proof.
  induction visits as [|v visits IH]; intros acc items Hl; cbn in Hl.
  - split; [done|]. exists []. simplify_eq. by rewrite app_nil_r.
  - destruct (walkErr v) eqn:Herr; [done|].
    rewrite filter_cons. case_bool_decide as Hroot.
    + destruct (IH _ _ Hl) as (Hall & new & -> & Hdom & Hpath).
      split; [by constructor|]. exists new.
      by rewrite decide_False by (by intros ?).
    + destruct (de_Info (walkEntry v)) as [info|err]; [|done].
      destruct (IH _ _ Hl) as (Hall & new & -> & Hdom & Hpath).
      split; [by constructor|]. eexists (_ :: new).
      rewrite <- app_assoc. split; [done|].
      split; [constructor; [apply item_fields_visit|done]|].
      rewrite decide_True by done. cbn [map]. rewrite Hpath. f_equal.
Qed.

(** [List] by cases of its success. *)
Lemma List_success s path recursive :
  List s path recursive !! "success" = Some (VBool true) ->
  exists p items,
    path <> "" /\ ExpandPath path = Ok p /\
    (if recursive then List_walk p (walk_visits s p) [] = Ok items
     else exists entries,
            os_ReadDir s p = Ok entries /\
            List_entries p entries [] = Ok items) /\
    List s path recursive =
      <["count" := VInt (Z.of_nat (length items))]>
        (<["items" := VItems items]> {[ "success" := VBool true ]}).
Proof.
  unfold List. case_bool_decide as Hpath; [done|].
  destruct (ExpandPath path) as [p|e]; [|done].
  destruct (os_Stat s p) as [info|e]; [|by destruct (IsNotExist e)].
  destruct (IsDir info); cbn [negb]; [|done].
  destruct recursive.
  - destruct (List_walk p (walk_visits s p) []) as [items|e] eqn:Hw;
      [|by destruct (IsPermission e)].
    intros _. exists p, items. repeat split; try done.
  - destruct (os_ReadDir s p) as [entries|e] eqn:Hd;
      [|by destruct (IsPermission e)].
    destruct (List_entries p entries []) as [items|e] eqn:Hl; [|done].
    intros _. exists p, items. repeat split; try done. by eauto.
Qed.

(** X7.  In a success result of [List], [count] is the length of [items],
    and every item has exactly the fields [path], [name] and [type], and
    [relative] besides in recursive mode only. *)
Theorem List_count_and_item_fields (s : fsstate) (path : string)
    (recursive : bool) :
  List s path recursive !! "success" = Some (VBool true) ->
  exists items,
    List s path recursive !! "items" = Some (VItems items) /\
    List s path recursive !! "count" = Some (VInt (Z.of_nat (length items))) /\
    Forall (fun it => dom it = item_fields recursive) items.
Proof.
  intros Hs. destruct (List_success s path recursive Hs)
    as (p & items & _ & _ & Hitems & ->).
  exists items. split; [by simplify_map_eq|]. split; [by simplify_map_eq|].
  destruct recursive.
  - by destruct (List_walk_appends _ _ _ _ Hitems) as (_ & new & -> & ? & _).
  - destruct Hitems as (entries & _ & Hl).
    by destruct (List_entries_appends _ _ _ _ Hl) as (new & -> & ? & _).
Qed.

(** X8.  A non-recursive [List] that succeeds returns one item for each
    entry the host's [ReadDir] gives, in the same order; the item has the
    entry's name, and its path is the listed directory joined with that
    name. *)
Theorem List_follows_directory_order (s : fsstate) (path : string) :
  List s path false !! "success" = Some (VBool true) ->
  exists p entries items,
    ExpandPath path = Ok p /\ os_ReadDir s p = Ok entries /\
    List s path false !! "items" = Some (VItems items) /\
    map (fun it : gmap string value => it !! "name") items =
      map (fun e => Some (VStr (de_Name e))) entries /\
    map (fun it : gmap string value => it !! "path") items =
      map (fun e => Some (VStr (filepath_Join [p; de_Name e]))) entries.
Proof.
  intros Hs. destruct (List_success s path false Hs)
    as (p & items & _ & Hp & (entries & Hd & Hl) & ->).
  exists p, entries, items. split; [done|]. split; [done|].
  split; [by simplify_map_eq|].
  by destruct (List_entries_appends _ _ _ _ Hl) as (new & -> & _ & ? & ?).
Qed.

(** X9.  A recursive [List] that succeeds returns, in the order of the
    walk, one item for each visited path other than the listed directory
    itself; and it succeeds only when no visit of the walk reported an
    error, so it never returns a partial listing. *)
Theorem List_recursive_excludes_root (s : fsstate) (path : string) :
  List s path true !! "success" = Some (VBool true) ->
  exists p items,
    ExpandPath path = Ok p /\
    List s path true !! "items" = Some (VItems items) /\
    Forall (fun v => walkErr v = None) (walk_visits s p) /\
    map (fun it : gmap string value => it !! "path") items =
      map (fun v => Some (VStr (walkPath v)))
          (filter (fun v => walkPath v <> p) (walk_visits s p)).
Proof.
  intros Hs. destruct (List_success s path true Hs)
    as (p & items & _ & Hp & Hw & ->).
  exists p, items. split; [done|]. split; [by simplify_map_eq|].
  by destruct (List_walk_appends _ _ _ _ Hw) as (? & new & -> & _ & ?).
Qed.

End Listing.

(** ** [Exists], [Stat] and [itemType] *)

Section Examination.
Context {H : Host}.

(** [Exists] when the host knows the path. *)
Lemma Exists_found (s : fsstate) (path p : string) (info : FileInfo) :
  path <> "" -> ExpandPath path = Ok p -> os_Stat s p = Ok info ->
  Exists s path =
    <["is_dir" := VBool (IsDir info)]>
      (<["is_file" := VBool (negb (IsDir info))]>
      (<["type" := VStr (itemType info)]>
      (<["path" := VStr p]>
      (<["exists" := VBool true]> {[ "success" := VBool true ]})))).
Proof.
  intros Hne Hp Hs. unfold Exists.
  rewrite bool_decide_eq_false_2 by done. rewrite Hp, Hs. by open_success.
Qed.

(** The three ways in which [Exists] ends once the path is resolved. *)
Lemma Exists_resolved (s : fsstate) (path : string) :
  Exists s path !! "success" = Some (VBool true) ->
  path <> "" /\
  exists p, ExpandPath path = Ok p /\
    ((exists info, os_Stat s p = Ok info) \/
     (exists e, os_Stat s p = Err e /\ IsNotExist e = true)).
Proof.
  unfold Exists. case_bool_decide as Hne; [done|].
  destruct (ExpandPath path) as [p|e]; [|done].
  destruct (os_Stat s p) as [info|e] eqn:Hs.
  - intros _. split; [done|]. exists p. split; [done|]. left. by exists info.
  - destruct (IsNotExist e) eqn:He; cbn [negb]; [|done].
    intros _. split; [done|]. exists p. split; [done|]. right. by exists e.
Qed.

Lemma exists_fields_found (a b c d e f : value) :
  dom (<["is_dir" := a]> (<["is_file" := b]> (<["type" := c]>
       (<["path" := d]> (<["exists" := e]>
          ({[ "success" := f ]} : gmap string value))))))
  = exists_fields true.
Proof.
  rewrite !dom_insert_L, dom_singleton_L. unfold exists_fields. set_solver.
Qed.

Lemma exists_fields_missing (a b c : value) :
  dom (<["path" := a]> (<["exists" := b]>
          ({[ "success" := c ]} : gmap string value)))
  = exists_fields false.
Proof.
  rewrite !dom_insert_L, dom_singleton_L. unfold exists_fields. set_solver.
Qed.

Lemma itemType_kind (info : FileInfo) :
  itemType info = if IsDir info then "directory" else "file".
Proof. unfold itemType. by destruct (IsDir info). Qed.

(** X10.  A success result of [Exists] has exactly the fields [success],
    [exists] and [path] when the path is missing, and [type], [is_file]
    and [is_dir] besides when it is found; then [is_file] is the negation
    of [is_dir], and [type] is [directory] or [file] accordingly. *)
Theorem Exists_fields_by_outcome (s : fsstate) (path : string) :
  Exists s path !! "success" = Some (VBool true) ->
  exists found : bool,
    Exists s path !! "exists" = Some (VBool found) /\
    dom (Exists s path) = exists_fields found /\
    (found = true ->
     exists d : bool,
       Exists s path !! "is_dir" = Some (VBool d) /\
       Exists s path !! "is_file" = Some (VBool (negb d)) /\
       Exists s path !! "type" =
         Some (VStr (if d then "directory" else "file"))).
Proof.
  intros Hs.
  destruct (Exists_resolved s path Hs) as (Hne & p & Hp & [[info Hi]|(e & He & Hn)]).
  - exists true. rewrite (Exists_found s path p info) by done.
    split; [by simplify_map_eq|]. split; [apply exists_fields_found|].
    intros _. exists (IsDir info). rewrite itemType_kind.
    repeat split; by simplify_map_eq.
  - exists false. rewrite (Exists_missing s path p e) by done.
    split; [by simplify_map_eq|]. split; [apply exists_fields_missing|done].
Qed.

(** [Stat] when the host knows the path. *)
Lemma Stat_found (s : fsstate) (path p : string) (info : FileInfo) :
  path <> "" -> ExpandPath path = Ok p -> os_Stat s p = Ok info ->
  Stat s path =
    <["is_symlink" := VBool (negb (Z.land (Mode info) ModeSymlink =? 0)%Z)]>
    (<["is_dir" := VBool (IsDir info)]>
    (<["is_file" := VBool (negb (IsDir info))]>
    (<["created" := VInt64 (ModTime_Unix info)]>
    (<["accessed" := VInt64 (ModTime_Unix info)]>
    (<["modified" := VInt64 (ModTime_Unix info)]>
    (<["mode" := VStr (fmt_octal (Perm (Mode info)))]>
    (<["size" := VInt64 (Size info)]>
    (<["type" := VStr (itemType info)]>
    (<["name" := VStr (filepath_Base p)]>
    (<["path" := VStr p]> {[ "success" := VBool true ]})))))))))).
Proof.
  intros Hne Hp Hs. unfold Stat.
  rewrite bool_decide_eq_false_2 by done. rewrite Hp, Hs. by open_success.
Qed.

(** X11.  A success result of [Stat] has exactly the twelve fields
    [success], [path], [name], [type], [size], [mode], [modified],
    [accessed], [created], [is_file], [is_dir] and [is_symlink]; [path] is
    the resolved path and [name] its last element; [is_file] is the
    negation of [is_dir], and [type] is [directory] or [file]
    accordingly. *)
Theorem Stat_fields_and_kind (s : fsstate) (path : string) :
  Stat s path !! "success" = Some (VBool true) ->
  dom (Stat s path) = stat_fields /\
  exists (p : string) (d : bool),
    ExpandPath path = Ok p /\
    Stat s path !! "path" = Some (VStr p) /\
    Stat s path !! "name" = Some (VStr (filepath_Base p)) /\
    Stat s path !! "is_dir" = Some (VBool d) /\
    Stat s path !! "is_file" = Some (VBool (negb d)) /\
    Stat s path !! "type" = Some (VStr (if d then "directory" else "file")).
Proof.
  intros Hs. destruct (stat_success_existing s path Hs)
    as (Hne & p & info & Hp & Hi).
  rewrite (Stat_found s path p info) by done. split.
  - rewrite !dom_insert_L, dom_singleton_L. unfold stat_fields. set_solver.
  - exists p, (IsDir info). rewrite itemType_kind.
    repeat split; by simplify_map_eq.
Qed.

(** X12.  [Stat] succeeds exactly for the paths that [Exists] reports as
    existing, and the two then agree on [path], [type], [is_file] and
    [is_dir]. *)
Theorem Stat_agrees_with_Exists (s : fsstate) (path : string) :
  (Stat s path !! "success" = Some (VBool true) <->
   Exists s path !! "exists" = Some (VBool true)) /\
  (Stat s path !! "success" = Some (VBool true) ->
   forall field,
     field ∈ ["path"; "type"; "is_file"; "is_dir"] ->
     Stat s path !! field = Exists s path !! field).
Proof.
  split; [split|].
  - intros Hs. destruct (stat_success_existing s path Hs)
      as (Hne & p & info & Hp & Hi).
    rewrite (Exists_found s path p info) by done. by simplify_map_eq.
  - intros Hx. unfold Exists in Hx. case_bool_decide as Hne.
    { unfold mcpError in Hx. by simplify_map_eq. }
    destruct (ExpandPath path) as [p|e] eqn:Hp.
    2:{ unfold mcpError in Hx. by simplify_map_eq. }
    destruct (os_Stat s p) as [info|e] eqn:Hi.
    + rewrite (Stat_found s path p info) by done. by simplify_map_eq.
    + destruct (IsNotExist e); cbn [negb] in Hx.
      * revert Hx. open_success. intros Hx. by simplify_map_eq.
      * unfold mcpError in Hx. by simplify_map_eq.
  - intros Hs field Hf. destruct (stat_success_existing s path Hs)
      as (Hne & p & info & Hp & Hi).
    rewrite (Stat_found s path p info), (Exists_found s path p info) by done.
    repeat (apply elem_of_cons in Hf as [->|Hf]; [by simplify_map_eq|]).
    by apply elem_of_nil in Hf.
Qed.

End Examination.

(** ** One target seen by several operations *)

Section Targets.
Context {H : Host}.

Lemma mcpError_not_success (err : error) (name : string) (v : value) :
  name <> "success" -> name <> "error" -> mcpError err !! name <> Some v.
Proof. intros ? ?. unfold mcpError. by simplify_map_eq. Qed.

Lemma mcpError_success_false (err : error) :
  mcpError err !! "success" = Some (VBool false).
Proof. unfold mcpError. by simplify_map_eq. Qed.

(** What [Exists] has seen when it reports a path as missing. *)
Lemma Exists_reports_missing (s : fsstate) (path : string) :
  Exists s path !! "exists" = Some (VBool false) ->
  path <> "" /\
  exists p e, ExpandPath path = Ok p /\ os_Stat s p = Err e /\
              IsNotExist e = true.
Proof.
  unfold Exists. case_bool_decide as Hne.
  { intros Hx. by apply mcpError_not_success in Hx. }
  destruct (ExpandPath path) as [p|e].
  2:{ intros Hx. by apply mcpError_not_success in Hx. }
  destruct (os_Stat s p) as [info|e] eqn:Hs.
  - open_success. intros Hx. by simplify_map_eq.
  - destruct (IsNotExist e) eqn:He; cbn [negb].
    + intros _. split; [done|]. by exists p, e.
    + intros Hx. by apply mcpError_not_success in Hx.
Qed.

(** What [Exists] has seen when it reports the kind of a path. *)
Lemma Exists_reports_kind (s : fsstate) (path : string) (d : bool) :
  Exists s path !! "is_dir" = Some (VBool d) ->
  path <> "" /\
  exists p info, ExpandPath path = Ok p /\ os_Stat s p = Ok info /\
                 IsDir info = d.
Proof.
  unfold Exists. case_bool_decide as Hne.
  { intros Hx. by apply mcpError_not_success in Hx. }
  destruct (ExpandPath path) as [p|e].
  2:{ intros Hx. by apply mcpError_not_success in Hx. }
  destruct (os_Stat s p) as [info|e] eqn:Hs.
  - open_success. intros Hx. split; [done|]. exists p, info.
    by simplify_map_eq.
  - destruct (IsNotExist e) eqn:He; cbn [negb].
    + open_success. intros Hx. by simplify_map_eq.
    + intros Hx. by apply mcpError_not_success in Hx.
Qed.

(** X13.  On a path that [Exists] reports as missing, [Read], [List],
    [Stat], [Rm], [Mv] and [Cp] all fail with a not-found message that
    names the path as it was given (not the resolved one), each with its
    own word for the target, and [Rm], [Mv] and [Cp] leave the file system
    as it was. *)
Theorem missing_path_across_operations (s : fsstate) (path : string) :
  Exists s path !! "exists" = Some (VBool false) ->
  Read s path = mcpError (errors_New ("file not found: " ++ path)) /\
  (forall recursive,
     List s path recursive =
       mcpError (errors_New ("directory not found: " ++ path))) /\
  Stat s path = mcpError (errors_New ("path not found: " ++ path)) /\
  (forall recursive,
     Rm s path recursive =
       (s, mcpError (errors_New ("path not found: " ++ path)))) /\
  (forall dest dst,
     dest <> "" -> ExpandPath dest = Ok dst ->
     Mv s path dest =
       (s, mcpError (errors_New ("source not found: " ++ path))) /\
     forall recursive,
       Cp s path dest recursive =
         (s, mcpError (errors_New ("source not found: " ++ path)))).
Proof.
  intros Hx.
  destruct (Exists_reports_missing s path Hx) as (Hne & p & e & Hp & Hs & He).
  unfold Read, List, Stat, Rm, Mv, Cp.
  rewrite !(bool_decide_eq_false_2 (path = "")) by done.
  rewrite Hp, Hs, He. do 4 (split; [done|]).
  intros dest dst Hdne Hdst. rewrite !bool_decide_eq_false_2 by done.
  by rewrite Hdst.
Qed.

(** X14.  On a path that [Exists] reports as a directory, [Read] fails
    because the path is not a file, [Mkdir] succeeds with the message that
    the directory already exists, and [Cp] without [recursive] refuses the
    source; [Mkdir] and [Cp] then leave the file system as it was. *)
Theorem directory_across_operations (s : fsstate) (path : string) :
  Exists s path !! "is_dir" = Some (VBool true) ->
  Read s path = mcpError (errors_New ("path is not a file: " ++ path)) /\
  (exists p,
     ExpandPath path = Ok p /\
     forall parents,
       Mkdir s path parents =
         (s, <["message" := VStr "directory already exists"]>
               (<["path" := VStr p]> {[ "success" := VBool true ]}))) /\
  (forall dest dst,
     dest <> "" -> ExpandPath dest = Ok dst ->
     Cp s path dest false =
       (s, mcpError (errors_New "source is a directory. use recursive=true"))).
Proof.
  intros Hx.
  destruct (Exists_reports_kind s path true Hx)
    as (Hne & p & info & Hp & Hs & Hd).
  split; [|split].
  - unfold Read. rewrite bool_decide_eq_false_2 by done.
    by rewrite Hp, Hs, Hd.
  - exists p. split; [done|]. intros parents.
    rewrite (Mkdir_existing s path p parents info) by done. by rewrite Hd.
  - intros dest dst Hdne Hdst. unfold Cp.
    rewrite !bool_decide_eq_false_2 by done. by rewrite Hp, Hdst, Hs, Hd.
Qed.

(** X15.  On a path that [Exists] reports as a file, [List] fails because
    the path is not a directory, [Mkdir] fails because the path exists but
    is not a directory (leaving the file system as it was), and the flag
    [recursive] makes no difference to [Rm] nor to [Cp]. *)
Theorem file_across_operations (s : fsstate) (path : string) :
  Exists s path !! "is_dir" = Some (VBool false) ->
  (forall recursive,
     List s path recursive =
       mcpError (errors_New ("path is not a directory: " ++ path))) /\
  (forall parents,
     Mkdir s path parents =
       (s, mcpError (errors_New
              ("path exists but is not a directory: " ++ path)))) /\
  Rm s path true = Rm s path false /\
  (forall dest, Cp s path dest true = Cp s path dest false).
Proof.
  intros Hx.
  destruct (Exists_reports_kind s path false Hx)
    as (Hne & p & info & Hp & Hs & Hd).
  repeat split.
  - intros recursive. unfold List. rewrite bool_decide_eq_false_2 by done.
    by rewrite Hp, Hs, Hd.
  - intros parents.
    rewrite (Mkdir_existing s path p parents info) by done. by rewrite Hd.
  - unfold Rm. rewrite bool_decide_eq_false_2 by done.
    by rewrite Hp, Hs, Hd.
  - intros dest. unfold Cp. rewrite bool_decide_eq_false_2 by done.
    case_bool_decide; [done|]. rewrite Hp.
    destruct (ExpandPath dest); [|done]. by rewrite Hs, Hd.
Qed.

End Targets.

(** ** When the operations that change the file system succeed *)

Section Changes.
Context {H : Host}.

(** Closes a branch in which the operation has failed. *)
Ltac failed :=
  cbn [fst snd]; rewrite ?mcpError_success_false; discriminate.

Lemma Rm_removed (s s' : fsstate) (path p : string) (info : FileInfo)
    (recursive : bool) :
  path <> "" -> ExpandPath path = Ok p -> os_Stat s p = Ok info ->
  (if IsDir info && recursive then os_RemoveAll s p else os_Remove s p)
    = (s', None) ->
  Rm s path recursive =
    (s', <["path" := VStr p]> {[ "success" := VBool true ]}).
Proof.
  intros Hne Hp Hs Hr. unfold Rm. rewrite bool_decide_eq_false_2 by done.
  rewrite Hp, Hs. destruct (IsDir info), recursive; cbn [andb] in Hr;
    rewrite Hr; by open_success.
Qed.

(** X16.  [Rm] succeeds exactly when the path is given, resolves and is
    known to the host, and the removal reports no error, the removal being
    [RemoveAll] for a directory with [recursive] and [Remove] otherwise;
    the result then carries the resolved path, and the file system is the
    one the removal left. *)
Theorem Rm_succeeds_exactly_when_removal_does (s : fsstate) (path : string)
    (recursive : bool) :
  ((Rm s path recursive).2 !! "success" = Some (VBool true) <->
   path <> "" /\
   exists p info s',
     ExpandPath path = Ok p /\ os_Stat s p = Ok info /\
     (if IsDir info && recursive then os_RemoveAll s p else os_Remove s p)
       = (s', None)) /\
  (forall p info s',
     path <> "" -> ExpandPath path = Ok p -> os_Stat s p = Ok info ->
     (if IsDir info && recursive then os_RemoveAll s p else os_Remove s p)
       = (s', None) ->
     Rm s path recursive =
       (s', <["path" := VStr p]> {[ "success" := VBool true ]})).
Proof.
  split; [split|intros p info s'; apply Rm_removed].
  2:{ intros (Hne & p & info & s' & Hp & Hs & Hr).
      by rewrite (Rm_removed s s' path p info recursive). }
  unfold Rm. case_bool_decide as Hne; [failed|].
  destruct (ExpandPath path) as [p|e]; [|failed].
  destruct (os_Stat s p) as [info|e] eqn:Hs;
    [|destruct (IsNotExist e); failed].
  intros Hx. split; [done|]. exists p, info.
  destruct (IsDir info), recursive; cbn [andb].
  - destruct (os_RemoveAll s p) as [s' [e|]];
      [destruct (IsPermission e); revert Hx; failed|by eauto].
  - destruct (os_Remove s p) as [s' [e|]]; [|by eauto].
    revert Hx. destruct (strings_Contains (Error e) "not empty"); [failed|].
    destruct (IsPermission e); failed.
  - destruct (os_Remove s p) as [s' [e|]];
      [destruct (IsPermission e); revert Hx; failed|by eauto].
  - destruct (os_Remove s p) as [s' [e|]];
      [destruct (IsPermission e); revert Hx; failed|by eauto].
Qed.

Lemma Mv_renamed (s s' : fsstate) (source dest src dst : string)
    (info : FileInfo) :
  source <> "" -> dest <> "" ->
  ExpandPath source = Ok src -> ExpandPath dest = Ok dst ->
  os_Stat s src = Ok info -> os_Rename s src dst = (s', None) ->
  Mv s source dest =
    (s', <["dest" := VStr dst]>
           (<["source" := VStr src]> {[ "success" := VBool true ]})).
Proof.
  intros Hs Hd Hsrc Hdst Hi Hr. unfold Mv.
  rewrite !bool_decide_eq_false_2 by done.
  rewrite Hsrc, Hdst, Hi, Hr. by open_success.
Qed.

(** X17.  [Mv] succeeds exactly when both paths are given and resolve, the
    source is known to the host, and the rename reports no error; the
    result then carries the two resolved paths.  The destination is not
    examined: whether it exists is left to the rename. *)
Theorem Mv_succeeds_exactly_when_rename_does (s : fsstate)
    (source dest : string) :
  ((Mv s source dest).2 !! "success" = Some (VBool true) <->
   source <> "" /\ dest <> "" /\
   exists src dst info s',
     ExpandPath source = Ok src /\ ExpandPath dest = Ok dst /\
     os_Stat s src = Ok info /\ os_Rename s src dst = (s', None)) /\
  (forall src dst info s',
     source <> "" -> dest <> "" ->
     ExpandPath source = Ok src -> ExpandPath dest = Ok dst ->
     os_Stat s src = Ok info -> os_Rename s src dst = (s', None) ->
     Mv s source dest =
       (s', <["dest" := VStr dst]>
              (<["source" := VStr src]> {[ "success" := VBool true ]}))).
Proof.
  split; [split|intros src dst info s'; apply Mv_renamed].
  2:{ intros (Hs & Hd & src & dst & info & s' & Hsrc & Hdst & Hi & Hr).
      by rewrite (Mv_renamed s s' source dest src dst info). }
  unfold Mv. case_bool_decide as Hs; [failed|].
  case_bool_decide as Hd; [failed|].
  destruct (ExpandPath source) as [src|e]; [|failed].
  destruct (ExpandPath dest) as [dst|e]; [|failed].
  destruct (os_Stat s src) as [info|e] eqn:Hi;
    [|destruct (IsNotExist e); failed].
  destruct (os_Rename s src dst) as [s' [e|]] eqn:Hr;
    [destruct (IsPermission e); failed|].
  intros _. do 2 (split; [done|]). by exists src, dst, info, s'.
Qed.

Lemma Cp_copied (s s' : fsstate) (source dest src dst : string)
    (info : FileInfo) (recursive : bool) :
  source <> "" -> dest <> "" ->
  ExpandPath source = Ok src -> ExpandPath dest = Ok dst ->
  os_Stat s src = Ok info -> (IsDir info = true -> recursive = true) ->
  copyutil_Copy s src dst = (s', None) ->
  Cp s source dest recursive =
    (s', <["dest" := VStr dst]>
           (<["source" := VStr src]> {[ "success" := VBool true ]})).
Proof.
  intros Hs Hd Hsrc Hdst Hi Hrec Hc. unfold Cp.
  rewrite !bool_decide_eq_false_2 by done.
  rewrite Hsrc, Hdst, Hi, Hc.
  destruct (IsDir info), recursive; cbn [andb negb];
    [by open_success| |by open_success|by open_success].
  by specialize (Hrec eq_refl).
Qed.

(** X18.  [Cp] succeeds exactly when both paths are given and resolve, the
    source is known to the host and is not a directory unless [recursive]
    is set, and the copy reports no error; a directory without
    [recursive] is refused before anything is copied. *)
Theorem Cp_succeeds_exactly_when_copy_does (s : fsstate)
    (source dest : string) (recursive : bool) :
  ((Cp s source dest recursive).2 !! "success" = Some (VBool true) <->
   source <> "" /\ dest <> "" /\
   exists src dst info s',
     ExpandPath source = Ok src /\ ExpandPath dest = Ok dst /\
     os_Stat s src = Ok info /\ (IsDir info = true -> recursive = true) /\
     copyutil_Copy s src dst = (s', None)) /\
  (forall src dst info,
     ExpandPath source = Ok src -> ExpandPath dest = Ok dst ->
     os_Stat s src = Ok info -> IsDir info = true -> recursive = false ->
     (Cp s source dest recursive).1 = s).
Proof.
  split; [split|].
  2:{ intros (Hs & Hd & src & dst & info & s' & Hsrc & Hdst & Hi & Hrec & Hc).
      by rewrite (Cp_copied s s' source dest src dst info recursive). }
  - unfold Cp. case_bool_decide as Hs; [failed|].
    case_bool_decide as Hd; [failed|].
    destruct (ExpandPath source) as [src|e]; [|failed].
    destruct (ExpandPath dest) as [dst|e]; [|failed].
    destruct (os_Stat s src) as [info|e] eqn:Hi;
      [|destruct (IsNotExist e); failed].
    destruct (IsDir info && negb recursive) eqn:Hdir; [failed|].
    destruct (copyutil_Copy s src dst) as [s' [e|]] eqn:Hc;
      [destruct (IsPermission e); failed|].
    intros _. do 2 (split; [done|]). exists src, dst, info, s'.
    repeat split; try done. intros Hd'. rewrite Hd' in Hdir.
    by destruct recursive.
  - intros src dst info Hsrc Hdst Hi Hd ->. unfold Cp.
    case_bool_decide; [done|]. case_bool_decide; [done|].
    by rewrite Hsrc, Hdst, Hi, Hd.
Qed.

Lemma Write_written (s s0 s' : fsstate) (path content p : string)
    (createDirs : bool) :
  path <> "" -> content <> "" -> ExpandPath path = Ok p ->
  (if createDirs then os_MkdirAll s (filepath_Dir p) 493 else (s, None))
    = (s0, None) ->
  os_WriteFile s0 p content 420 = (s', None) ->
  Write s path content createDirs =
    (s', <["path" := VStr p]> {[ "success" := VBool true ]}).
Proof.
  intros Hp Hc Hr Hm Hw. unfold Write.
  rewrite !bool_decide_eq_false_2 by done.
  rewrite Hr. cbv zeta. rewrite Hm, Hw. by open_success.
Qed.

(** X19.  [Write] succeeds exactly when path and content are given, the
    path resolves, the parent directories are made without error when
    [createDirs] is set (mode 0755, for the directory part of the resolved
    path), and the file is then written without error (mode 0644); without
    [createDirs] no directory is made, and when making them fails the file
    is not written. *)
Theorem Write_succeeds_exactly_when_written (s : fsstate)
    (path content : string) (createDirs : bool) :
  ((Write s path content createDirs).2 !! "success" = Some (VBool true) <->
   path <> "" /\ content <> "" /\
   exists p s0 s',
     ExpandPath path = Ok p /\
     (if createDirs then os_MkdirAll s (filepath_Dir p) 493 else (s, None))
       = (s0, None) /\
     os_WriteFile s0 p content 420 = (s', None)) /\
  (forall p s0 err,
     path <> "" -> content <> "" -> ExpandPath path = Ok p ->
     os_MkdirAll s (filepath_Dir p) 493 = (s0, Some err) ->
     Write s path content true = (s0, mcpError err)).
Proof.
  split; [split|].
  2:{ intros (Hp & Hc & p & s0 & s' & Hr & Hm & Hw).
      by rewrite (Write_written s s0 s' path content p createDirs). }
  - unfold Write. case_bool_decide as Hp; [failed|].
    case_bool_decide as Hc; [failed|].
    destruct (ExpandPath path) as [p|e]; [|failed]. cbv zeta.
    destruct (if createDirs then os_MkdirAll s (filepath_Dir p) 493
              else (s, None)) as [s0 [e|]] eqn:Hm; [failed|].
    destruct (os_WriteFile s0 p content 420) as [s' [e|]] eqn:Hw;
      [destruct (IsPermission e); failed|].
    intros _. do 2 (split; [done|]). by exists p, s0, s'.
  - intros p s0 err Hp Hc Hr Hm. unfold Write.
    rewrite !bool_decide_eq_false_2 by done.
    rewrite Hr. cbv zeta. by rewrite Hm.
Qed.

(** X20.  [Mkdir] succeeds exactly when the path is given and resolves,
    and either the host already knows it as a directory, or the host does
    not report it (for whatever reason: any error of the examination
    counts) and the creation reports no error, the creation being
    [MkdirAll] with [parents] and [Mkdir] without, both with mode 0755. *)
Theorem Mkdir_succeeds_exactly_when_made (s : fsstate) (path : string)
    (parents : bool) :
  (Mkdir s path parents).2 !! "success" = Some (VBool true) <->
  path <> "" /\
  exists p,
    ExpandPath path = Ok p /\
    ((exists info, os_Stat s p = Ok info /\ IsDir info = true) \/
     (exists e s',
        os_Stat s p = Err e /\
        (if parents then os_MkdirAll s p 493 else os_Mkdir s p 493)
          = (s', None))).
Proof.
  split.
  - unfold Mkdir. case_bool_decide as Hne; [failed|].
    destruct (ExpandPath path) as [p|e]; [|failed].
    destruct (os_Stat s p) as [info|e] eqn:Hs.
    + destruct (IsDir info) eqn:Hd; [|failed].
      intros _. split; [done|]. exists p. split; [done|]. left. by eauto.
    + destruct (if parents then os_MkdirAll s p 493 else os_Mkdir s p 493)
        as [s' [e'|]] eqn:Hm; [destruct (IsPermission e'); failed|].
      intros _. split; [done|]. exists p. split; [done|]. right. by eauto.
  - intros (Hne & p & Hp & [(info & Hs & Hd)|(e & s' & Hs & Hm)]).
    + rewrite (Mkdir_existing s path p parents info) by done.
      rewrite Hd. by simplify_map_eq.
    + unfold Mkdir. rewrite bool_decide_eq_false_2 by done.
      rewrite Hp, Hs, Hm. by open_success; simplify_map_eq.
Qed.

End Changes.

(** ** The dispatcher *)

Section Dispatch.
Context {H : Host}.

(** A sub-command whose boolean flag does not parse stops by
    [mcpFatalError] before it makes its call. *)
Lemma RunE_bad_flag (op : Operation) (fl : Flags) (s : fsstate) (err : error) :
  call_of_flags op fl = Err err ->
  exists str,
    boolean_flags op fl = [str] /\ strconv_ParseBool str = Err err /\
    RunE op fl s =
      mcpFatalError s []
        (errors_New ("failed to parse bool " ++ str ++ ": " ++ Error err)).
Proof.
  unfold call_of_flags, RunE, newReadCmd, newWriteCmd, newListCmd,
    newExistsCmd, newStatCmd, newMkdirCmd, newRmCmd, newMvCmd, newCpCmd, toBool.
  destruct op; cbn [boolean_flags]; try discriminate;
    intros Hc; eexists; (split; [reflexivity|]);
    destruct (strconv_ParseBool _) as [b|e]; by simplify_eq.
Qed.

(** X21.  A sub-command that reads a boolean flag ([create-dirs] for
    [write], [parents] for [mkdir], [recursive] for [list], [rm] and [cp])
    whose text is not one of the spellings [strconv.ParseBool] accepts
    prints one failure result that quotes the text, exits with status 1,
    and does not touch the file system; its operation is not called.  (The
    text is taken to be printable ASCII without quote or backslash, which
    the message shows unchanged.) *)
Theorem bad_boolean_flag_is_fatal (op : Operation) (fl : Flags) (s : fsstate)
    (str : string) :
  boolean_flags op fl = [str] ->
  str ∉ ["1"; "t"; "T"; "TRUE"; "true"; "True";
         "0"; "f"; "F"; "FALSE"; "false"; "False"] ->
  quoted_as_is str = true ->
  RunE op fl s =
    {| out_state := s;
       out_printed :=
         [mcpError (errors_New
            ("failed to parse bool " ++ str ++ ": strconv.ParseBool: parsing "
             ++ double_quote ++ str ++ double_quote ++ ": invalid syntax"))];
       out_exit := 1 |}.
Proof.
  intros Hfl Hstr _.
  assert (strconv_ParseBool str =
            Err (errors_New ("strconv.ParseBool: parsing " ++ double_quote ++
                             str ++ double_quote ++ ": invalid syntax")))
    as Hparse.
  { unfold strconv_ParseBool.
    rewrite !bool_decide_eq_false_2; [done|..]; intros Hin; apply Hstr;
      change (str ∈ (["1"; "t"; "T"; "TRUE"; "true"; "True"] ++
                     ["0"; "f"; "F"; "FALSE"; "false"; "False"])%list);
      apply elem_of_app; auto. }
  unfold RunE, newWriteCmd, newListCmd, newMkdirCmd, newRmCmd, newCpCmd, toBool.
  destruct op; cbn [boolean_flags] in Hfl; try discriminate;
    simplify_eq; by rewrite Hparse.
Qed.

(** X22.  Whatever the flags, a run of a sub-command prints exactly one
    result, which is a failure result or a success result; the exit status
    is 0 or 1; it is 1 only when the printed result is a failure, and a
    printed failure gives status 1 for every sub-command but [exists]. *)
Theorem every_run_prints_one_result (op : Operation) (fl : Flags)
    (s : fsstate) :
  exists r,
    out_printed (RunE op fl s) = [r] /\ well_shaped r /\
    (out_exit (RunE op fl s) = 0%Z \/ out_exit (RunE op fl s) = 1%Z) /\
    (out_exit (RunE op fl s) = 1%Z -> r !! "success" = Some (VBool false)) /\
    (op <> OpExists -> r !! "success" = Some (VBool false) ->
     out_exit (RunE op fl s) = 1%Z).
Proof.
  destruct (call_of_flags op fl) as [c|err] eqn:Hc.
  - exists (perform s c).2. rewrite (RunE_call op fl s c Hc).
    pose proof (perform_well_shaped s c) as Hw.
    destruct (output_and_exit_spec (perform s c) Hw) as (_ & Hp & H0 & H1).
    destruct (getBool_success _ Hw) as [[Hs _]|[Hs _]].
    + specialize (H0 Hs). rewrite Hs.
      destruct op; repeat split; try done; auto; try (rewrite H0; done).
    + specialize (H1 Hs).
      destruct op; repeat split; try done; auto.
  - destruct (RunE_bad_flag op fl s err Hc) as (str & _ & _ & ->).
    eexists. split; [reflexivity|]. cbn [mcpFatalError out_exit].
    split; [left; by eexists|]. split; [by right|].
    split; intros; by simplify_map_eq.
Qed.

(** X23.  The root command runs the sub-command whose name is the
    selector; for a selector that is not empty and names none of the nine
    operations it prints the failure [unknown operation: <selector>],
    exits with status 1 and does not touch the file system. *)
Theorem rootCmd_selects_by_name (operation : string) (fl : Flags)
    (s : fsstate) :
  (forall op, operation = op_name op -> rootCmd operation fl s = RunE op fl s) /\
  (operation <> "" -> (forall op, operation <> op_name op) ->
   rootCmd operation fl s =
     {| out_state := s;
        out_printed :=
          [mcpError (errors_New ("unknown operation: " ++ operation))];
        out_exit := 1 |}).
Proof.
  split.
  - intros op ->. by destruct op.
  - intros Hne Hop. unfold rootCmd, subCommandMap.
    rewrite bool_decide_eq_false_2 by done.
    pose proof (Hop OpRead). pose proof (Hop OpWrite). pose proof (Hop OpList).
    pose proof (Hop OpExists). pose proof (Hop OpStat).
    pose proof (Hop OpMkdir). pose proof (Hop OpRm). pose proof (Hop OpMv).
    pose proof (Hop OpCp). cbn [op_name] in *.
    by rewrite !bool_decide_eq_false_2 by done.
Qed.

End Dispatch.

(** ** After a change, on a host that keeps what it is given *)

Section Afterwards.
Context {H : Host}.

(** X24.  On a host where a file written without error can be examined
    and read back, a successful [Write] leaves a path that [Exists] and
    [Stat] report as a file, and on which [Mkdir] fails because the path
    exists but is not a directory. *)
Theorem written_path_is_a_file (s s1 : fsstate) (path content : string)
    (createDirs : bool) (r : gmap string value) :
  WriteFile_law H ->
  Write s path content createDirs = (s1, r) ->
  r !! "success" = Some (VBool true) ->
  Exists s1 path !! "exists" = Some (VBool true) /\
  Exists s1 path !! "is_file" = Some (VBool true) /\
  Stat s1 path !! "type" = Some (VStr "file") /\
  (forall parents,
     Mkdir s1 path parents =
       (s1, mcpError (errors_New
               ("path exists but is not a directory: " ++ path)))).
Proof.
  unfold Write. intros Hlaw Hw Hs.
  case_bool_decide as Hp; [by simplify_eq|].
  case_bool_decide as Hc; [by simplify_eq|].
  destruct (ExpandPath path) as [q|e] eqn:Hq; [|by simplify_eq].
  destruct (if createDirs then os_MkdirAll s (filepath_Dir q) 493 else (s, None))
    as [s0 [e|]]; [by simplify_eq|].
  destruct (os_WriteFile s0 q content 420) as [s2 [e|]] eqn:Hwf.
  { destruct (IsPermission e); by simplify_eq. }
  simplify_eq. destruct (Hlaw _ _ _ _ _ Hwf) as [(info & Hi & Hd) _].
  rewrite (Exists_found s1 path q info), (Stat_found s1 path q info) by done.
  rewrite itemType_kind, Hd.
  repeat split; try (by simplify_map_eq).
  intros parents. rewrite (Mkdir_existing s1 path q parents info) by done.
  by rewrite Hd.
Qed.

(** X25.  On a host where a directory made without error is found as a
    directory, a successful [Mkdir] with [parents] leaves a path that
    [Exists] and [Stat] report as a directory and that [Read] refuses as
    not being a file. *)
Theorem made_path_is_a_directory (s s1 : fsstate) (path : string)
    (r : gmap string value) :
  MkdirAll_law H ->
  Mkdir s path true = (s1, r) ->
  r !! "success" = Some (VBool true) ->
  Exists s1 path !! "is_dir" = Some (VBool true) /\
  Stat s1 path !! "type" = Some (VStr "directory") /\
  Read s1 path = mcpError (errors_New ("path is not a file: " ++ path)).
Proof.
  unfold Mkdir. intros Hlaw Hm Hs.
  case_bool_decide as Hp; [by simplify_eq|].
  destruct (ExpandPath path) as [q|e] eqn:Hq; [|by simplify_eq].
  assert (exists info, os_Stat s1 q = Ok info /\ IsDir info = true)
    as (info & Hi & Hd).
  { destruct (os_Stat s q) as [info|e] eqn:Hst.
    - destruct (IsDir info) eqn:Hd; [|by simplify_eq]. simplify_eq. by eauto.
    - destruct (os_MkdirAll s q 493) as [s' [e'|]] eqn:Hall.
      { destruct (IsPermission e'); by simplify_eq. }
      simplify_eq. by eapply Hlaw. }
  rewrite (Exists_found s1 path q info), (Stat_found s1 path q info) by done.
  rewrite itemType_kind, Hd.
  repeat split; try (by simplify_map_eq).
  unfold Read. rewrite bool_decide_eq_false_2 by done. by rewrite Hq, Hi, Hd.
Qed.

End Afterwards.

(** ** Errors of the examination *)

Section ExaminationErrors.
Context {H : Host}.

(** X26.  When the examination of the target fails with an error other
    than not-found, every operation that examines its target ([Read],
    [List], [Exists], [Stat], [Rm], [Mv], [Cp]) returns that error with the
    host's own message, also when it is a permission error: the message
    [permission denied] is kept for errors of the operation itself.  [Rm],
    [Mv] and [Cp] then leave the file system as it was. *)
Theorem examination_errors_are_passed_through (s : fsstate)
    (path p : string) (e : error) :
  path <> "" -> ExpandPath path = Ok p ->
  os_Stat s p = Err e -> IsNotExist e = false ->
  Read s path = mcpError e /\
  (forall recursive, List s path recursive = mcpError e) /\
  Exists s path = mcpError e /\
  Stat s path = mcpError e /\
  (forall recursive, Rm s path recursive = (s, mcpError e)) /\
  (forall dest dst,
     dest <> "" -> ExpandPath dest = Ok dst ->
     Mv s path dest = (s, mcpError e) /\
     forall recursive, Cp s path dest recursive = (s, mcpError e)).
Proof.
  intros Hne Hp Hs He. unfold Read, List, Exists, Stat, Rm, Mv, Cp.
  rewrite !(bool_decide_eq_false_2 (path = "")) by done.
  rewrite Hp, Hs, He. cbn [negb]. do 5 (split; [done|]).
  intros dest dst Hdne Hdst. rewrite !bool_decide_eq_false_2 by done.
  by rewrite Hdst.
Qed.

End ExaminationErrors.

(** ** The further properties at concrete inputs *)

Section ConcreteFurther.
Import MemFS.

(** X1: of two pairs named [path] the second one is kept. *)
Lemma mcpSuccess_last_pair_wins_witness :
  mcpSuccess [VStr "path"; VStr "a"; VStr "path"; VStr "b"] !! "path" =
    Some (VStr "b").
Proof.
  exact (mcpSuccess_last_pair_wins
           [VStr "path"; VStr "a"; VStr "path"; VStr "b"] "path" eq_refl).
Defined.

(** X2: the second name is an integer. *)
Lemma mcpSuccess_rejects_malformed_witness :
  mcpSuccess [VStr "a"; VInt 1; VInt 2; VInt 3] =
    mcpError (errors_New "name at index 2 must be a string, got int").
Proof.
  destruct (mcpSuccess_rejects_malformed [VStr "a"; VInt 1; VInt 2; VInt 3])
    as [_ Hbad].
  exact (Hbad [VStr "a"; VInt 1] (VInt 2) (VInt 3) [] eq_refl eq_refl eq_refl
           eq_refl).
Defined.

(** X3: [~/x] without a home directory. *)
Lemma ExpandPath_fails_exactly_without_home_witness :
  exists err, ExpandPath (H := host_no_home) "~/x" = Err err.
Proof.
  destruct (ExpandPath_fails_exactly_without_home (H := host_no_home) "~/x")
    as [[_ Hback] _].
  apply Hback. split; [reflexivity|right; reflexivity].
Defined.

(** X4: a path that is one unset variable. *)
Lemma ExpandPath_never_empty_witness :
  "." <> "" /\
  (os_ExpandEnv (os_Getenv (Host := host_home)) "$NOTHING" = "" -> "." = ".").
Proof.
  exact (ExpandPath_never_empty (H := host_home) "$NOTHING" "." eq_refl).
Defined.

(** X5: only the leading [~] of [~/a~b] is replaced. *)
Lemma ExpandPath_tilde_only_in_front_witness :
  ExpandPath (H := host_home) "~/a~b" = Ok "/home/u/a~b".
Proof.
  destruct (ExpandPath_tilde_only_in_front (H := host_home) "~/a~b" eq_refl)
    as [Hhome _].
  apply (Hhome "a~b" "/home/u"); [reflexivity|reflexivity|discriminate].
Defined.

(** X6: [write] with neither path nor content. *)
Lemma missing_argument_is_reported_witness :
  perform (H := host_home) fs_sample (CallWrite "" "" true) =
    (fs_sample, mcpError (errors_New "path is required")).
Proof.
  exact (missing_argument_is_reported (H := host_home) fs_sample
           (CallWrite "" "" true) "path" eq_refl).
Defined.

(** X7: the root of the sample file system. *)
Lemma List_count_and_item_fields_witness :
  exists items,
    List (H := host_home) fs_sample "/" false !! "items" =
      Some (VItems items) /\
    List (H := host_home) fs_sample "/" false !! "count" =
      Some (VInt (Z.of_nat (length items))) /\
    Forall (fun it => dom it = item_fields false) items.
Proof.
  apply (List_count_and_item_fields (H := host_home) fs_sample "/" false).
  vm_compute. reflexivity.
Defined.

(** X8: the two entries of the root. *)
Lemma List_follows_directory_order_witness :
  exists p entries items,
    ExpandPath (H := host_home) "/" = Ok p /\
    os_ReadDir (Host := host_home) fs_sample p = Ok entries /\
    List (H := host_home) fs_sample "/" false !! "items" =
      Some (VItems items) /\
    map (fun it : gmap string value => it !! "name") items =
      map (fun e => Some (VStr (de_Name e))) entries /\
    map (fun it : gmap string value => it !! "path") items =
      map (fun e => Some (VStr (filepath_Join [p; de_Name e]))) entries.
Proof.
  apply (List_follows_directory_order (H := host_home) fs_sample "/").
  vm_compute. reflexivity.
Defined.

(** X9: the walk of [/tmp]. *)
Lemma List_recursive_excludes_root_witness :
  exists p items,
    ExpandPath (H := host_home) "/tmp" = Ok p /\
    List (H := host_home) fs_sample "/tmp" true !! "items" =
      Some (VItems items) /\
    Forall (fun v => walkErr v = None)
           (walk_visits (Host := host_home) fs_sample p) /\
    map (fun it : gmap string value => it !! "path") items =
      map (fun v => Some (VStr (walkPath v)))
          (filter (fun v => walkPath v <> p)
                  (walk_visits (Host := host_home) fs_sample p)).
Proof.
  apply (List_recursive_excludes_root (H := host_home) fs_sample "/tmp").
  vm_compute. reflexivity.
Defined.

(** X10: the file [/tmp/f]. *)
Lemma Exists_fields_by_outcome_witness :
  exists found : bool,
    Exists (H := host_home) fs_sample "/tmp/f" !! "exists" =
      Some (VBool found) /\
    dom (Exists (H := host_home) fs_sample "/tmp/f") = exists_fields found /\
    (found = true ->
     exists d : bool,
       Exists (H := host_home) fs_sample "/tmp/f" !! "is_dir" =
         Some (VBool d) /\
       Exists (H := host_home) fs_sample "/tmp/f" !! "is_file" =
         Some (VBool (negb d)) /\
       Exists (H := host_home) fs_sample "/tmp/f" !! "type" =
         Some (VStr (if d then "directory" else "file"))).
Proof.
  apply (Exists_fields_by_outcome (H := host_home) fs_sample "/tmp/f").
  vm_compute. reflexivity.
Defined.

(** X11: the file [/tmp/f]. *)
Lemma Stat_fields_and_kind_witness :
  dom (Stat (H := host_home) fs_sample "/tmp/f") = stat_fields.
Proof.
  destruct (Stat_fields_and_kind (H := host_home) fs_sample "/tmp/f")
    as [Hdom _]; [vm_compute; reflexivity|].
  exact Hdom.
Defined.

(** X12: the file [/tmp/f]. *)
Lemma Stat_agrees_with_Exists_witness :
  Exists (H := host_home) fs_sample "/tmp/f" !! "exists" = Some (VBool true).
Proof.
  destruct (Stat_agrees_with_Exists (H := host_home) fs_sample "/tmp/f")
    as [[Hto _] _].
  apply Hto. vm_compute. reflexivity.
Defined.

(** X13: the missing path [/nope]. *)
Lemma missing_path_across_operations_witness :
  Read (H := host_home) fs_sample "/nope" =
    mcpError (errors_New "file not found: /nope").
Proof.
  destruct (missing_path_across_operations (H := host_home) fs_sample "/nope")
    as [Hread _]; [vm_compute; reflexivity|].
  exact Hread.
Defined.

(** X14: the directory [/tmp]. *)
Lemma directory_across_operations_witness :
  Read (H := host_home) fs_sample "/tmp" =
    mcpError (errors_New "path is not a file: /tmp").
Proof.
  destruct (directory_across_operations (H := host_home) fs_sample "/tmp")
    as [Hread _]; [vm_compute; reflexivity|].
  exact Hread.
Defined.

(** X15: the file [/tmp/f]. *)
Lemma file_across_operations_witness :
  Rm (H := host_home) fs_sample "/tmp/f" true =
    Rm (H := host_home) fs_sample "/tmp/f" false.
Proof.
  destruct (file_across_operations (H := host_home) fs_sample "/tmp/f")
    as (_ & _ & Hrm & _); [vm_compute; reflexivity|].
  exact Hrm.
Defined.

(** X16: the removal of the file [/tmp/f]. *)
Lemma Rm_succeeds_exactly_when_removal_does_witness :
  (Rm (H := host_home) fs_sample "/tmp/f" false).2 !! "success" =
    Some (VBool true).
Proof.
  destruct (Rm_succeeds_exactly_when_removal_does (H := host_home) fs_sample
              "/tmp/f" false) as [[_ Hback] _].
  apply Hback. split; [discriminate|].
  exists "/tmp/f", (node_info "f" (NFile "hello" 420 7)),
    (remove fs_sample "/tmp/f").1.
  repeat split; vm_compute; reflexivity.
Defined.

(** X17: [/tmp/f] renamed to [/tmp/g]. *)
Lemma Mv_succeeds_exactly_when_rename_does_witness :
  (Mv (H := host_home) fs_sample "/tmp/f" "/tmp/g").2 !! "success" =
    Some (VBool true).
Proof.
  destruct (Mv_succeeds_exactly_when_rename_does (H := host_home) fs_sample
              "/tmp/f" "/tmp/g") as [[_ Hback] _].
  apply Hback. split; [discriminate|]. split; [discriminate|].
  exists "/tmp/f", "/tmp/g", (node_info "f" (NFile "hello" 420 7)),
    (rename fs_sample "/tmp/f" "/tmp/g").1.
  repeat split; vm_compute; reflexivity.
Defined.

(** X18: [/tmp/f] copied to [/tmp/g]. *)
Lemma Cp_succeeds_exactly_when_copy_does_witness :
  (Cp (H := host_home) fs_sample "/tmp/f" "/tmp/g" false).2 !! "success" =
    Some (VBool true).
Proof.
  destruct (Cp_succeeds_exactly_when_copy_does (H := host_home) fs_sample
              "/tmp/f" "/tmp/g" false) as [[_ Hback] _].
  apply Hback. split; [discriminate|]. split; [discriminate|].
  exists "/tmp/f", "/tmp/g", (node_info "f" (NFile "hello" 420 7)),
    (copy fs_sample "/tmp/f" "/tmp/g").1.
  split; [reflexivity|]. split; [reflexivity|]. split; [reflexivity|].
  split; [discriminate|]. vm_compute. reflexivity.
Defined.

(** X19: [/tmp/x/y.txt] written with its parent made. *)
Lemma Write_succeeds_exactly_when_written_witness :
  (Write (H := host_home) fs_sample "/tmp/x/y.txt" "hi" true).2 !! "success" =
    Some (VBool true).
Proof.
  destruct (Write_succeeds_exactly_when_written (H := host_home) fs_sample
              "/tmp/x/y.txt" "hi" true) as [[_ Hback] _].
  apply Hback. split; [discriminate|]. split; [discriminate|].
  exists "/tmp/x/y.txt", (mkdirAll fs_sample "/tmp/x" 493).1,
    (writeFile (mkdirAll fs_sample "/tmp/x" 493).1 "/tmp/x/y.txt" "hi" 420).1.
  repeat split; vm_compute; reflexivity.
Defined.

(** X20: [/a] made on the bare file system. *)
Lemma Mkdir_succeeds_exactly_when_made_witness :
  (Mkdir (H := host_home) fs_bare "/a" false).2 !! "success" =
    Some (VBool true).
Proof.
  apply (Mkdir_succeeds_exactly_when_made (H := host_home) fs_bare "/a" false).
  split; [discriminate|]. exists "/a". split; [reflexivity|]. right.
  exists (PathError "stat" "/a" ENOENT), (mkdir fs_bare "/a" 493).1.
  split; vm_compute; reflexivity.
Defined.

(** X21: [rm] with [recursive] given as [yes]. *)
Lemma bad_boolean_flag_is_fatal_witness :
  RunE (H := host_home) OpRm
       (mkFlags "/tmp" "" "" "" "yes" "false" "false") fs_sample =
    @mkOutcome host_home fs_sample
      [mcpError (errors_New
         ("failed to parse bool yes: strconv.ParseBool: parsing "
          ++ double_quote ++ "yes" ++ double_quote ++ ": invalid syntax"))]
      1.
Proof.
  apply (bad_boolean_flag_is_fatal (H := host_home) OpRm
           (mkFlags "/tmp" "" "" "" "yes" "false" "false") fs_sample "yes");
    [reflexivity| |reflexivity].
  intros Hin.
  repeat (apply elem_of_cons in Hin as [Hin|Hin]; [discriminate|]).
  by apply elem_of_nil in Hin.
Defined.

(** X23: a selector that names no operation. *)
Lemma rootCmd_selects_by_name_witness :
  rootCmd (H := host_home) "frobnicate" (flags_path "/tmp") fs_sample =
    @mkOutcome host_home fs_sample
      [mcpError (errors_New "unknown operation: frobnicate")] 1.
Proof.
  destruct (rootCmd_selects_by_name (H := host_home) "frobnicate"
              (flags_path "/tmp") fs_sample) as [_ Hunknown].
  apply Hunknown; [discriminate|]. intros op. destruct op; discriminate.
Defined.

(** X24: [/tmp/x/y.txt] after it was written. *)
Lemma written_path_is_a_file_witness :
  Exists (H := host_home)
         (Write (H := host_home) fs_sample "/tmp/x/y.txt" "hi" true).1
         "/tmp/x/y.txt" !! "is_file" = Some (VBool true).
Proof.
  destruct (written_path_is_a_file (H := host_home) fs_sample
              (Write (H := host_home) fs_sample "/tmp/x/y.txt" "hi" true).1
              "/tmp/x/y.txt" "hi" true
              (Write (H := host_home) fs_sample "/tmp/x/y.txt" "hi" true).2)
    as (_ & Hfile & _).
  - apply MemFSFacts.WriteFile_law_MemFS.
  - apply surjective_pairing.
  - vm_compute. reflexivity.
  - exact Hfile.
Defined.

(** X25: [/a/b] after it was made on the bare file system. *)
Lemma made_path_is_a_directory_witness :
  Exists (H := host_home)
         (Mkdir (H := host_home) fs_bare "/a/b" true).1 "/a/b" !! "is_dir" =
    Some (VBool true).
Proof.
  destruct (made_path_is_a_directory (H := host_home) fs_bare
              (Mkdir (H := host_home) fs_bare "/a/b" true).1 "/a/b"
              (Mkdir (H := host_home) fs_bare "/a/b" true).2)
    as (Hdir & _).
  - apply MemFSFacts.MkdirAll_law_MemFS.
  - apply surjective_pairing.
  - vm_compute. reflexivity.
  - exact Hdir.
Defined.

(** X26: [/tmp/f/x], below the file [/tmp/f]. *)
Lemma examination_errors_are_passed_through_witness :
  Stat (H := host_home) fs_sample "/tmp/f/x" =
    mcpError (errors_New "stat /tmp/f/x: not a directory").
Proof.
  edestruct (examination_errors_are_passed_through (H := host_home) fs_sample
               "/tmp/f/x" "/tmp/f/x") as (_ & _ & _ & Hstat & _);
    [discriminate | reflexivity | vm_compute; reflexivity | reflexivity |].
  exact Hstat.
Defined.

End ConcreteFurther.
